(** * ElonBot: the per-user background sender

    A shallow embedding of [database.py] (the operations on users, profiles,
    messages, destinations and subscriptions), of [sender.py]
    ([SenderManager]: client pool, dialog listing, task registry, send loop,
    restore on boot, subscription reaper, profile cleanup) and of the two
    callers [on_shutdown] ([main.py]) and [is_user_ready] ([handlers.py]);
    the properties of the specification proved or refuted on it; and further
    properties of the code.

    Conventions of the embedding.
    - SQLite INTEGER columns and Python ints are [Z]; durations handed to
      [asyncio.sleep] and the wall clock are rationals ([Q]), [int(time.time())]
      is the floor of the clock.
    - The tables keyed by [user_id] are finite maps; [user_groups] is a list of
      rows.
    - Coroutines are computations of a state-and-exception monad [M].  Every
      [await] of a store call, a transport call or a sleep asks the environment
      for its outcome: a store or transport call returns, or it raises
      [CancelledError], [FloodWaitError n] or some other [Exception]; a sleep
      elapses or is cancelled.  The environment is a script per kind of call;
      an exhausted script answers "returns".
    - [TelegramClient] and [asyncio.Task] objects live in two heaps and are
      named by their index, so that [self.clients[user_id]] and the loop's
      local [client] can alias one object.
    - [while True] loops take a fuel (a bound on the number of cycles); running
      out of fuel is a result of its own, never confused with an exit. *)

From stdpp Require Import gmap strings list fin_maps pretty.
From Stdlib Require Import ZArith QArith Qround Qminmax Lia Lqa.

Local Open Scope Z_scope.

(** Rational arithmetic is reasoned about, not unfolded. *)
#[local] Arguments Qplus : simpl never.
#[local] Arguments Qminus : simpl never.
#[local] Arguments Qmult : simpl never.
#[local] Arguments Qmax : simpl never.
#[local] Arguments Qfloor : simpl never.
#[local] Arguments inject_Z : simpl never.
#[local] Arguments Z.of_nat : simpl never.
#[local] Arguments Z.mul : simpl never.
#[local] Arguments Z.add : simpl never.
#[local] Arguments Z.pow : simpl never.

(* ===================================================================== *)
(** ** database.py *)
(* ===================================================================== *)

Module Database.

Record user_row := UserRow {
  full_name : string;
  is_logged_in : Z;
  is_active : Z;
  is_banned : Z;
  subscription_until : Z;
  created_at : Z;
  updated_at : Z
}.

Record profile_row := ProfileRow {
  phone : string;
  session : string;
  profile_updated_at : Z
}.

Record message_row := MessageRow {
  text : string;
  message_updated_at : Z
}.

Record group_row := GroupRow {
  group_user_id : Z;
  group_id : Z;
  group_title : string;
  added_at : Z
}.

(** The four tables the sender reads; [user_id] is the primary key of the
    first three. *)
Record tables := Tables {
  users : gmap Z user_row;
  profiles : gmap Z profile_row;
  messages : gmap Z message_row;
  user_groups : list group_row
}.

Definition with_users (u : gmap Z user_row) (d : tables) : tables :=
  Tables u (profiles d) (messages d) (user_groups d).

(** [SELECT * FROM users WHERE user_id = ?] *)
Definition get_user (user_id : Z) (d : tables) : option user_row :=
  users d !! user_id.

(** The row after [SET is_active = ?, updated_at = ?]. *)
Definition set_active_status (v now : Z) (r : user_row) : user_row :=
  UserRow (full_name r) (is_logged_in r) v (is_banned r)
          (subscription_until r) (created_at r) now.

(** [UPDATE users SET is_active = ?, updated_at = ? WHERE user_id = ?]:
    no row is touched when the user does not exist. *)
Definition update_user_active_status (now user_id v : Z) (d : tables) : tables :=
  with_users (alter (set_active_status v now) user_id (users d)) d.

Definition get_profile (user_id : Z) (d : tables) : option profile_row :=
  profiles d !! user_id.

Definition get_message (user_id : Z) (d : tables) : option message_row :=
  messages d !! user_id.

(** [SELECT group_id FROM user_groups WHERE user_id = ?] *)
Definition get_user_groups (user_id : Z) (d : tables) : list Z :=
  group_id <$> filter (λ g, group_user_id g = user_id) (user_groups d).

(** [SELECT * FROM users WHERE is_active = 1 AND is_banned = 0] *)
Definition get_active_users (d : tables) : list (Z * user_row) :=
  filter (λ ur, is_active ur.2 = 1 ∧ is_banned ur.2 = 0) (map_to_list (users d)).

(** [bool(row and row[0] > now)] *)
Definition check_subscription (now user_id : Z) (d : tables) : bool :=
  match users d !! user_id with
  | Some r => bool_decide (now < subscription_until r)
  | None => false
  end.

(** [SELECT user_id FROM users WHERE subscription_until > 0
      AND subscription_until < ? AND is_active = 1] *)
Definition get_expired_subscriptions (now : Z) (d : tables) : list Z :=
  (filter (λ ur, 0 < subscription_until ur.2
                 ∧ subscription_until ur.2 < now
                 ∧ is_active ur.2 = 1)
          (map_to_list (users d))).*1.

(** *** The rest of the store's operations *)

Definition with_profiles (p : gmap Z profile_row) (d : tables) : tables :=
  Tables (users d) p (messages d) (user_groups d).

Definition with_messages (m : gmap Z message_row) (d : tables) : tables :=
  Tables (users d) (profiles d) m (user_groups d).

Definition with_user_groups (g : list group_row) (d : tables) : tables :=
  Tables (users d) (profiles d) (messages d) g.

(** [INSERT INTO users (user_id, full_name, created_at, updated_at) ...
     ON CONFLICT(user_id) DO UPDATE SET full_name, updated_at]: a new row
    takes the column defaults (all 0); an existing row keeps everything but
    its name and its stamp. *)
Definition upsert_user (now user_id : Z) (name : string) (d : tables) : tables :=
  with_users
    (<[user_id :=
         match users d !! user_id with
         | Some r => UserRow name (is_logged_in r) (is_active r) (is_banned r)
                             (subscription_until r) (created_at r) now
         | None => UserRow name 0 0 0 0 now now
         end]> (users d)) d.

(** The row after [SET is_logged_in = ?, updated_at = ?]. *)
Definition set_login_status (v now : Z) (r : user_row) : user_row :=
  UserRow (full_name r) v (is_active r) (is_banned r)
          (subscription_until r) (created_at r) now.

Definition update_user_login_status (now user_id v : Z) (d : tables) : tables :=
  with_users (alter (set_login_status v now) user_id (users d)) d.

(** [UPDATE users SET is_banned = 1, is_active = 0, updated_at = ?] *)
Definition set_banned (now : Z) (r : user_row) : user_row :=
  UserRow (full_name r) (is_logged_in r) 0 1
          (subscription_until r) (created_at r) now.

Definition ban_user (now user_id : Z) (d : tables) : tables :=
  with_users (alter (set_banned now) user_id (users d)) d.


Definition delete_profile (user_id : Z) (d : tables) : tables :=
  with_profiles (delete user_id (profiles d)) d.


Definition delete_message (user_id : Z) (d : tables) : tables :=
  with_messages (delete user_id (messages d)) d.

(** [add_user_group]: refused ([False]) when the user has 3 groups already,
    and when the [INSERT] breaks [UNIQUE (user_id, group_id)] (the bare
    [except] returns [False]); otherwise the row is added. *)
Definition add_user_group (now user_id group : Z) (title : string)
    (d : tables) : bool * tables :=
  if bool_decide
       (3 ≤ length (filter (λ g, group_user_id g = user_id) (user_groups d)))%nat
  then (false, d)
  else if bool_decide
            (Exists (λ g, group_user_id g = user_id ∧ group_id g = group)
                    (user_groups d))
  then (false, d)
  else (true, with_user_groups
                (user_groups d ++ [GroupRow user_id group title now]) d).

(** [DELETE FROM user_groups WHERE user_id = ? AND group_id = ?] *)
Definition remove_user_group (user_id group : Z) (d : tables) : tables :=
  with_user_groups
    (filter (λ g, ¬ (group_user_id g = user_id ∧ group_id g = group))
            (user_groups d)) d.

(** [DELETE FROM user_groups WHERE user_id = ?] *)
Definition clear_user_groups (user_id : Z) (d : tables) : tables :=
  with_user_groups (filter (λ g, group_user_id g ≠ user_id) (user_groups d)) d.

(** [save_user_groups]: delete the user's rows, insert the given ones in
    order, commit.  A group given twice breaks [UNIQUE (user_id, group_id)]:
    the exception leaves the [async with] before the commit and nothing is
    changed ([None]).  No cap is checked here. *)
Definition save_user_groups (now user_id : Z) (groups : list (Z * string))
    (d : tables) : option tables :=
  if bool_decide (NoDup groups.*1) then
    Some (with_user_groups
            (filter (λ g, group_user_id g ≠ user_id) (user_groups d)
             ++ ((λ gt, GroupRow user_id gt.1 gt.2 now) <$> groups)) d)
  else None.




(** [UPDATE users SET subscription_until = 0, is_active = 0, updated_at = ?] *)
Definition clear_subscription (now : Z) (r : user_row) : user_row :=
  UserRow (full_name r) (is_logged_in r) 0 (is_banned r) 0 (created_at r) now.

Definition remove_subscription (now user_id : Z) (d : tables) : tables :=
  with_users (alter (clear_subscription now) user_id (users d)) d.

End Database.

(* ===================================================================== *)
(** ** The environment of a coroutine *)
(* ===================================================================== *)

(** The exceptions the sender distinguishes.  [FloodWaitError] is a subclass
    of [Exception]; [CancelledError] is not (it derives from [BaseException]),
    so [except Exception] lets it through.  [Exception] stands for every
    other exception. *)
Inductive exn :=
| CancelledError
| FloodWaitError (seconds : Z)
| Exception.

(** What an [await] does: it returns, or raises. *)
Inductive outcome :=
| Returns
| Raises (e : exn).

(** What an [await asyncio.sleep(d)] does: the delay elapses, or the task is
    cancelled while it sleeps ([asyncio.sleep] raises nothing else). *)
Inductive wake :=
| Elapsed
| Interrupted.

(** A [TelegramClient] object: the session it was built from and whether it
    is connected. *)
Record client_obj := ClientObj {
  c_session : string;
  connected : bool
}.

(** An [asyncio.Task].  A task is [Pending] from [create_task] until its
    coroutine first runs, [Suspended] while the coroutine waits at one of its
    [await]s (for a send loop the record keeps the loop's local [client]),
    and [Finished] afterwards ([task.done()]). *)
Inductive task_state :=
| Pending
| Suspended (loop_client : option nat)
| Finished.

Inductive task_kind :=
| SendingLoop (user_id : Z)
| SubscriptionChecker.

Record task_obj := TaskObj {
  t_kind : task_kind;
  t_state : task_state
}.

(** The observable actions, in the order they happen. *)
Inductive event :=
| EvStartSending (user_id : Z)            (* start_sending entered *)
| EvStopSending (user_id : Z)             (* stop_sending entered *)
| EvSetActive (user_id v : Z)             (* the UPDATE of is_active was executed *)
| EvConnect (c : nat)                     (* client.connect() *)
| EvSendMessage (c : nat) (group : Z) (body : string)
| EvSleep (d : Q)                         (* asyncio.sleep(d) *)
| EvDisconnect (c : nat)                  (* client.disconnect() *)
| EvDelClient (user_id : Z)               (* del self.clients[user_id] *)
| EvDelTask (user_id : Z)                 (* del self.active_tasks[user_id] *)
| EvCreateTask (k : task_kind) (t : nat)  (* asyncio.create_task *)
| EvCancel (t : nat).                     (* task.cancel() *)

(** The whole state: the store and the clock, the two heaps, the fields of
    [SenderManager], the scripts of the environment, the trace, and the frame
    (the locals [retry_count] and [client]) of the send loop that is
    running. *)
Record St := MkSt {
  db : Database.tables;
  clock : Q;
  client_objs : list client_obj;
  task_objs : list task_obj;
  active_tasks : gmap Z nat;
  clients : gmap Z nat;
  subscription_checker_task : option nat;
  store_script : list outcome;
  transport_script : list outcome;
  timer_script : list wake;
  entropy : list Q;
  trace : list event;
  retry_count : Z;
  client : option nat
}.

Definition with_db (x : Database.tables) (s : St) : St :=
  MkSt x (clock s) (client_objs s) (task_objs s) (active_tasks s) (clients s)
       (subscription_checker_task s) (store_script s) (transport_script s)
       (timer_script s) (entropy s) (trace s) (retry_count s) (client s).
Definition with_clock (x : Q) (s : St) : St :=
  MkSt (db s) x (client_objs s) (task_objs s) (active_tasks s) (clients s)
       (subscription_checker_task s) (store_script s) (transport_script s)
       (timer_script s) (entropy s) (trace s) (retry_count s) (client s).
Definition with_client_objs (x : list client_obj) (s : St) : St :=
  MkSt (db s) (clock s) x (task_objs s) (active_tasks s) (clients s)
       (subscription_checker_task s) (store_script s) (transport_script s)
       (timer_script s) (entropy s) (trace s) (retry_count s) (client s).
Definition with_task_objs (x : list task_obj) (s : St) : St :=
  MkSt (db s) (clock s) (client_objs s) x (active_tasks s) (clients s)
       (subscription_checker_task s) (store_script s) (transport_script s)
       (timer_script s) (entropy s) (trace s) (retry_count s) (client s).
Definition with_active_tasks (x : gmap Z nat) (s : St) : St :=
  MkSt (db s) (clock s) (client_objs s) (task_objs s) x (clients s)
       (subscription_checker_task s) (store_script s) (transport_script s)
       (timer_script s) (entropy s) (trace s) (retry_count s) (client s).
Definition with_clients (x : gmap Z nat) (s : St) : St :=
  MkSt (db s) (clock s) (client_objs s) (task_objs s) (active_tasks s) x
       (subscription_checker_task s) (store_script s) (transport_script s)
       (timer_script s) (entropy s) (trace s) (retry_count s) (client s).
Definition with_subscription_checker_task (x : option nat) (s : St) : St :=
  MkSt (db s) (clock s) (client_objs s) (task_objs s) (active_tasks s) (clients s)
       x (store_script s) (transport_script s)
       (timer_script s) (entropy s) (trace s) (retry_count s) (client s).
Definition with_store_script (x : list outcome) (s : St) : St :=
  MkSt (db s) (clock s) (client_objs s) (task_objs s) (active_tasks s) (clients s)
       (subscription_checker_task s) x (transport_script s)
       (timer_script s) (entropy s) (trace s) (retry_count s) (client s).
Definition with_transport_script (x : list outcome) (s : St) : St :=
  MkSt (db s) (clock s) (client_objs s) (task_objs s) (active_tasks s) (clients s)
       (subscription_checker_task s) (store_script s) x
       (timer_script s) (entropy s) (trace s) (retry_count s) (client s).
Definition with_timer_script (x : list wake) (s : St) : St :=
  MkSt (db s) (clock s) (client_objs s) (task_objs s) (active_tasks s) (clients s)
       (subscription_checker_task s) (store_script s) (transport_script s)
       x (entropy s) (trace s) (retry_count s) (client s).
Definition with_entropy (x : list Q) (s : St) : St :=
  MkSt (db s) (clock s) (client_objs s) (task_objs s) (active_tasks s) (clients s)
       (subscription_checker_task s) (store_script s) (transport_script s)
       (timer_script s) x (trace s) (retry_count s) (client s).
Definition with_trace (x : list event) (s : St) : St :=
  MkSt (db s) (clock s) (client_objs s) (task_objs s) (active_tasks s) (clients s)
       (subscription_checker_task s) (store_script s) (transport_script s)
       (timer_script s) (entropy s) x (retry_count s) (client s).
Definition with_retry_count (x : Z) (s : St) : St :=
  MkSt (db s) (clock s) (client_objs s) (task_objs s) (active_tasks s) (clients s)
       (subscription_checker_task s) (store_script s) (transport_script s)
       (timer_script s) (entropy s) (trace s) x (client s).
Definition with_client (x : option nat) (s : St) : St :=
  MkSt (db s) (clock s) (client_objs s) (task_objs s) (active_tasks s) (clients s)
       (subscription_checker_task s) (store_script s) (transport_script s)
       (timer_script s) (entropy s) (trace s) (retry_count s) x.

(** [int(time.time())] *)
Definition now (s : St) : Z := Qfloor (clock s).

(* ===================================================================== *)
(** ** The monad of coroutines *)
(* ===================================================================== *)

Inductive res (A : Type) :=
| Ret (a : A)
| Raise (e : exn)
| OutOfFuel.
Arguments Ret {A} a.
Arguments Raise {A} e.
Arguments OutOfFuel {A}.

Definition M (A : Type) : Type := St → res A * St.

Definition ret {A} (a : A) : M A := λ s, (Ret a, s).

Definition bind {A B} (m : M A) (k : A → M B) : M B := λ s,
  match m s with
  | (Ret a, s') => k a s'
  | (Raise e, s') => (Raise e, s')
  | (OutOfFuel, s') => (OutOfFuel, s')
  end.

Definition raise {A} (e : exn) : M A := λ s, (Raise e, s).

Definition out_of_fuel {A} : M A := λ s, (OutOfFuel, s).

(** [try: m  except ...: h e]; a handler that does not match re-raises. *)
Definition try_except {A} (m : M A) (h : exn → M A) : M A := λ s,
  match m s with
  | (Raise e, s') => h e s'
  | r => r
  end.

(** [try: m  finally: c]: [c] runs after [m] however [m] ended; an exception
    of [c] replaces the result of [m]. *)
Definition try_finally {A} (m : M A) (c : M ()) : M A := λ s,
  match m s with
  | (OutOfFuel, s') => (OutOfFuel, s')
  | (r, s') =>
      match c s' with
      | (Ret _, s'') => (r, s'')
      | (Raise e, s'') => (Raise e, s'')
      | (OutOfFuel, s'') => (OutOfFuel, s'')
      end
  end.

Declare Scope M_scope.
Notation "x ← m ; k" := (bind m (λ x, k))
  (at level 20, m at level 100, k at level 200, only parsing) : M_scope.
Notation "m ;; k" := (bind m (λ _, k))
  (at level 100, k at level 200, right associativity) : M_scope.
Delimit Scope M_scope with M.
Bind Scope M_scope with M.
Local Open Scope M_scope.

Definition gets {A} (f : St → A) : M A := λ s, (Ret (f s), s).
Definition modify (f : St → St) : M () := λ s, (Ret (), f s).
Definition emit (e : event) : M () := modify (λ s, with_trace (trace s ++ [e]) s).

(** [for x in l: body x] *)
Fixpoint for_each {A} (l : list A) (body : A → M ()) : M () :=
  match l with
  | [] => ret ()
  | x :: l' => body x ;; for_each l' body
  end.

(** The next answer of a script. *)
Definition next_outcome (script : list outcome) : outcome * list outcome :=
  match script with
  | [] => (Returns, [])
  | o :: script' => (o, script')
  end.

Definition next_wake (script : list wake) : wake * list wake :=
  match script with
  | [] => (Elapsed, [])
  | w :: script' => (w, script')
  end.

(** [await self.db.<query>(...)]: a read of the store. *)
Definition await_query {A} (q : Z → Database.tables → A) : M A := λ s,
  let '(o, script) := next_outcome (store_script s) in
  let s := with_store_script script s in
  match o with
  | Returns => (Ret (q (now s) (db s)), s)
  | Raises e => (Raise e, s)
  end.

(** [await self.db.update_user_active_status(user_id, v)].  The statement is
    executed as a whole or not at all. *)
Definition await_update_user_active_status (user_id v : Z) : M () := λ s,
  let '(o, script) := next_outcome (store_script s) in
  let s := with_store_script script s in
  match o with
  | Returns =>
      (Ret (), with_trace (trace s ++ [EvSetActive user_id v])
                 (with_db (Database.update_user_active_status (now s) user_id v (db s)) s))
  | Raises e => (Raise e, s)
  end.

(** [await asyncio.sleep(d)]: the clock moves on by [d] (not at all when [d]
    is negative) unless the sleep is interrupted. *)
Definition sleep (d : Q) : M () := λ s,
  let '(w, script) := next_wake (timer_script s) in
  let s := with_trace (trace s ++ [EvSleep d]) (with_timer_script script s) in
  match w with
  | Elapsed => (Ret (), with_clock (clock s + Qmax d 0)%Q s)
  | Interrupted => (Raise CancelledError, s)
  end.

(** [random.random()]: a fraction in [[0, 1)], taken from the entropy. *)
Definition unit_fraction (q : Q) : Q := (q - inject_Z (Qfloor q))%Q.

Definition random : M Q := λ s,
  match entropy s with
  | [] => (Ret 0%Q, s)
  | q :: qs => (Ret (unit_fraction q), with_entropy qs s)
  end.

(** [random.randint(a, b)]: an integer of [[a, b]], both ends included;
    [ValueError] on an empty range. *)
Definition randint_of (a b : Z) (f : Q) : Z :=
  a + Qfloor (f * inject_Z (b - a + 1)).

Definition randint (a b : Z) : M Z :=
  if bool_decide (b < a) then raise Exception
  else f ← random; ret (randint_of a b f).

(** [random.uniform(a, b)] is [a + (b - a) * random()]. *)
Definition uniform_of (a b f : Q) : Q := (a + (b - a) * f)%Q.

Definition uniform (a b : Q) : M Q :=
  f ← random; ret (uniform_of a b f).

(** [client.is_connected()] *)
Definition is_connected (c : nat) (s : St) : bool :=
  match client_objs s !! c with
  | Some o => connected o
  | None => false
  end.

Definition set_connected (b : bool) (c : nat) (s : St) : St :=
  with_client_objs
    (alter (λ o, ClientObj (c_session o) b) c (client_objs s)) s.

(** [await client.connect()] / [send_message] / [disconnect]: a transport
    call. *)
Definition await_transport (e : event) (effect : St → St) : M () := λ s,
  let '(o, script) := next_outcome (transport_script s) in
  let s := with_trace (trace s ++ [e]) (with_transport_script script s) in
  match o with
  | Returns => (Ret (), effect s)
  | Raises x => (Raise x, s)
  end.

Definition connect (c : nat) : M () :=
  await_transport (EvConnect c) (set_connected true c).

Definition send_message (c : nat) (group : Z) (body : string) : M () :=
  await_transport (EvSendMessage c group body) id.

Definition disconnect (c : nat) : M () :=
  await_transport (EvDisconnect c) (set_connected false c).

(** [del d[k]] inside [try: ... except KeyError: pass]. *)
Definition del_client (user_id : Z) : M () :=
  modify (λ s, with_trace (trace s ++ [EvDelClient user_id])
                 (with_clients (delete user_id (clients s)) s)).

Definition del_task (user_id : Z) : M () :=
  modify (λ s, with_trace (trace s ++ [EvDelTask user_id])
                 (with_active_tasks (delete user_id (active_tasks s)) s)).

(** [task.done()] *)
Definition done (t : nat) (s : St) : bool :=
  match task_objs s !! t with
  | Some (TaskObj _ Finished) => true
  | _ => false
  end.

Definition set_task_state (t : nat) (x : task_state) (s : St) : St :=
  with_task_objs (alter (λ o, TaskObj (t_kind o) x) t (task_objs s)) s.

(** [asyncio.create_task(coro)]: a new pending task. *)
Definition create_task (k : task_kind) : M nat := λ s,
  let t := length (task_objs s) in
  (Ret t, with_trace (trace s ++ [EvCreateTask k t])
            (with_task_objs (task_objs s ++ [TaskObj k Pending]) s)).

(* ===================================================================== *)
(** ** sender.py: class SenderManager *)
(* ===================================================================== *)

(** How the send loop was left. *)
Inductive exit_path :=
| ByBreak        (* a [break] of the [while True] loop *)
| ByCancellation (* [except asyncio.CancelledError: pass] *)
| ByFault.       (* [except Exception:] at the loop boundary *)

(** [config.py] is not part of the sources at hand: the constants the sender
    imports from it are parameters of the development. *)
Class Config := {
  MAX_RETRY_ATTEMPTS : Z;
  BASE_RETRY_DELAY : Z;
  MAX_RETRY_DELAY : Z;
  DEFAULT_RANDOM_INTERVAL_MIN : Z;
  DEFAULT_RANDOM_INTERVAL_MAX : Z
}.

Section SenderManager.
Context {config : Config}.

(** [TelegramClient(StringSession(session_string), ...)]: a new object, not
    yet connected. *)
Definition new_client (session_string : string) : M nat := λ s,
  (Ret (length (client_objs s)),
   with_client_objs (client_objs s ++ [ClientObj session_string false]) s).

(** [create_client]: reuse the pooled client when it is connected, drop it
    from the pool when it is not, and otherwise build, connect and pool a
    new one. *)
Definition create_client (user_id : Z) (session_string : string) : M nat :=
  pooled ← gets (λ s, clients s !! user_id);
  reuse ← match pooled with
          | Some c =>
              up ← gets (is_connected c);
              if up then ret (Some c) else (del_client user_id ;; ret None)
          | None => ret None
          end;
  match reuse with
  | Some c => ret c
  | None =>
      c ← new_client session_string;
      connect c ;;
      modify (λ s, with_clients (<[user_id := c]> (clients s)) s) ;;
      ret c
  end.

(** [self.active_tasks[user_id]] exists and is not [done()]. *)
Definition has_live_task (user_id : Z) (s : St) : bool :=
  match active_tasks s !! user_id with
  | Some t => negb (done t s)
  | None => false
  end.

(** Lines 124-125: create the task and record it. *)
Definition spawn_sending_loop (user_id : Z) : M () :=
  t ← create_task (SendingLoop user_id);
  modify (λ s, with_active_tasks (<[user_id := t]> (active_tasks s)) s).

(** Lines 120-125: what [start_sending] does once its guard has let the
    call through.  The [await] of the store suspends the caller between
    the guard and the spawn. *)
Definition start_sending_unguarded (user_id : Z) : M () :=
  await_update_user_active_status user_id 1 ;;
  spawn_sending_loop user_id.

Definition start_sending (user_id : Z) : M () :=
  emit (EvStartSending user_id) ;;
  live ← gets (has_live_task user_id);
  if live then ret () else start_sending_unguarded user_id.

(** The [finally] block of [_sending_loop]. *)
Definition cleanup (user_id : Z) : M () :=
  cur ← gets client;
  match cur with
  | Some c =>
      up ← gets (is_connected c);
      if up then try_except (disconnect c) (λ _, ret ()) else ret ()
  | None => ret ()
  end ;;
  pooled ← gets (λ s, clients s !! user_id);
  (if pooled is Some _ then del_client user_id else ret ()) ;;
  entry ← gets (λ s, active_tasks s !! user_id);
  (if entry is Some _ then del_task user_id else ret ()).

(** [task.cancel()] followed by [await task] under
    [except asyncio.CancelledError: pass].  A pending task never runs its
    coroutine.  A suspended send loop gets [CancelledError] at its [await],
    which its [except asyncio.CancelledError: pass] swallows, and runs its
    [finally] block with its own frame. *)
Definition cancel_and_await (t : nat) : M () :=
  emit (EvCancel t) ;;
  o ← gets (λ s, task_objs s !! t);
  match o with
  | Some (TaskObj (SendingLoop user_id) (Suspended c)) =>
      modify (with_client c) ;;
      cleanup user_id ;;
      modify (set_task_state t Finished)
  | Some _ => modify (set_task_state t Finished)
  | None => ret ()
  end.

(** Lines 132-145 of [stop_sending]: cancel the task if there is one and
    drop the registry entry. *)
Definition stop_task (user_id : Z) : M () :=
  entry ← gets (λ s, active_tasks s !! user_id);
  match entry with
  | Some t =>
      finished ← gets (done t);
      (if finished then ret () else cancel_and_await t) ;;
      del_task user_id
  | None => ret ()
  end.

(** Lines 147-157 of [stop_sending]: disconnect the pooled client if there
    is one and drop it from the pool. *)
Definition stop_client (user_id : Z) : M () :=
  pooled ← gets (λ s, clients s !! user_id);
  match pooled with
  | Some c =>
      try_except (disconnect c) (λ _, ret ()) ;;
      del_client user_id
  | None => ret ()
  end.

Definition stop_sending (user_id : Z) : M () :=
  emit (EvStopSending user_id) ;;
  await_update_user_active_status user_id 0 ;;
  stop_task user_id ;;
  stop_client user_id.

(** [e.seconds + random.randint(5, 15)], slept on a rate-limit rejection
    (lines 200 and 218-219). *)
Definition flood_wait (seconds : Z) : M () :=
  r ← randint 5 15;
  sleep (inject_Z (seconds + r)).

(** Lines 193-204: one destination. *)
Definition send_to_group (c : nat) (body : string) (group : Z) : M () :=
  try_except
    (send_message c group body ;;
     d ← uniform 2 5;
     sleep d)
    (λ e, match e with
          | FloodWaitError seconds => flood_wait seconds
          | Exception => ret ()
          | CancelledError => raise CancelledError
          end).

(** Lines 187-214: the body of the inner [try]. *)
Definition send_cycle (user_id : Z) (profile : Database.profile_row)
    (message : Database.message_row) (user_groups : list Z) : M () :=
  let acquire : M nat :=
    c ← create_client user_id (Database.session profile);
    modify (with_client (Some c)) ;;
    ret c in
  cur ← gets client;
  c ← match cur with
      | Some c => up ← gets (is_connected c); if up then ret c else acquire
      | None => acquire
      end;
  for_each user_groups (send_to_group c (Database.text message)) ;;
  modify (with_retry_count 0) ;;
  interval ← randint DEFAULT_RANDOM_INTERVAL_MIN DEFAULT_RANDOM_INTERVAL_MAX;
  sleep (inject_Z interval).

(** Line 229: [min(BASE_RETRY_DELAY * (2 ** retry_count), MAX_RETRY_DELAY)]. *)
Definition backoff (count : Z) : Z :=
  Z.min (BASE_RETRY_DELAY * 2 ^ count) MAX_RETRY_DELAY.

(** Lines 216-231: the handlers of the inner [try]; the result says whether
    the loop goes on. *)
Definition on_cycle_error (user_id : Z) (e : exn) : M bool :=
  match e with
  | FloodWaitError seconds => flood_wait seconds ;; ret true
  | Exception =>
      modify (λ s, with_retry_count (retry_count s + 1) s) ;;
      count ← gets retry_count;
      if bool_decide (MAX_RETRY_ATTEMPTS ≤ count) then
        await_update_user_active_status user_id 0 ;;
        ret false
      else
        jitter ← uniform 0 5;
        sleep (inject_Z (backoff count) + jitter)%Q ;;
        ret true
  | CancelledError => raise CancelledError
  end.

(** Lines 166-231: one turn of the [while True] loop; [false] is [break]. *)
Definition cycle (user_id : Z) : M bool :=
  user ← await_query (λ _, Database.get_user user_id);
  match user with
  | None => ret false
  | Some u =>
      if bool_decide (Database.is_active u = 0)
         || bool_decide (Database.is_banned u = 1)
      then ret false
      else
        has_subscription ← await_query (λ t, Database.check_subscription t user_id);
        if negb has_subscription then
          await_update_user_active_status user_id 0 ;;
          ret false
        else
          profile ← await_query (λ _, Database.get_profile user_id);
          message ← await_query (λ _, Database.get_message user_id);
          user_groups ← await_query (λ _, Database.get_user_groups user_id);
          match profile, message, user_groups with
          | Some p, Some m, _ :: _ =>
              try_except (send_cycle user_id p m user_groups ;; ret true)
                         (on_cycle_error user_id)
          | _, _, _ => ret false
          end
  end.

Fixpoint cycles (fuel : nat) (user_id : Z) : M () :=
  match fuel with
  | O => out_of_fuel
  | S fuel' =>
      again ← cycle user_id;
      if again then cycles fuel' user_id else ret ()
  end.

(** Lines 164-237: the loop under its two [except] clauses. *)
Definition guarded_cycles (fuel : nat) (user_id : Z) : M exit_path :=
  try_except
    (cycles fuel user_id ;; ret ByBreak)
    (λ e, match e with
          | CancelledError => ret ByCancellation
          | _ => await_update_user_active_status user_id 0 ;; ret ByFault
          end).

(** Lines 164-256: the [try / except / finally] statement, entered with the
    frame found in the state. *)
Definition _sending_loop_from (fuel : nat) (user_id : Z) : M exit_path :=
  try_finally (guarded_cycles fuel user_id) (cleanup user_id).

Definition _sending_loop (fuel : nat) (user_id : Z) : M exit_path :=
  modify (λ s, with_client None (with_retry_count 0 s)) ;;
  _sending_loop_from fuel user_id.

(** Lines 263-280: what [restore_active_tasks] does for one user. *)
Definition restore_user (user_id : Z) : M () :=
  has_subscription ← await_query (λ t, Database.check_subscription t user_id);
  if negb has_subscription then
    await_update_user_active_status user_id 0
  else
    profile ← await_query (λ _, Database.get_profile user_id);
    message ← await_query (λ _, Database.get_message user_id);
    user_groups ← await_query (λ _, Database.get_user_groups user_id);
    match profile, message, user_groups with
    | Some _, Some _, _ :: _ => start_sending user_id
    | _, _, _ => await_update_user_active_status user_id 0
    end.

(** Lines 283-284: start the reaper unless it was started before. *)
Definition start_subscription_checker : M () :=
  checker ← gets subscription_checker_task;
  match checker with
  | None =>
      t ← create_task SubscriptionChecker;
      modify (with_subscription_checker_task (Some t))
  | Some _ => ret ()
  end.

Definition restore_active_tasks : M () :=
  active_users ← await_query (λ _, Database.get_active_users);
  for_each active_users (λ user, restore_user user.1) ;;
  start_subscription_checker.

(** Lines 290-303: one turn of the reaper. *)
Definition subscription_checker_tick : M () :=
  try_except
    (sleep 300 ;;
     expired_users ← await_query (λ t, Database.get_expired_subscriptions t);
     for_each expired_users stop_sending)
    (λ e, match e with
          | CancelledError => raise CancelledError
          | _ => ret ()
          end).

Fixpoint subscription_checker_ticks (fuel : nat) : M () :=
  match fuel with
  | O => out_of_fuel
  | S fuel' => subscription_checker_tick ;; subscription_checker_ticks fuel'
  end.

Definition _subscription_checker_loop (fuel : nat) : M () :=
  try_except (subscription_checker_ticks fuel)
    (λ e, match e with
          | CancelledError => ret ()
          | _ => raise e
          end).

(** [await self.db.<statement>(...)]: a write of the store other than that
    of the active flag; executed as a whole or not at all. *)
Definition await_statement (f : Z → Database.tables → Database.tables) : M () := λ s,
  let '(o, script) := next_outcome (store_script s) in
  let s := with_store_script script s in
  match o with
  | Returns => (Ret (), with_db (f (now s) (db s)) s)
  | Raises e => (Raise e, s)
  end.

(** What [get_user_dialogs] reads of a dialog: its id, its title (it may be
    missing or empty), [dialog.is_group], and the attributes [megagroup] and
    [broadcast] of its entity ([None] when the entity has no such attribute:
    users and basic groups have neither). *)
Record dialog := Dialog {
  dialog_id : Z;
  dialog_title : option string;
  is_group : bool;
  megagroup : option bool;
  broadcast : option bool
}.

(** [hasattr(entity, a) and entity.a] *)
Definition has_attr (a : option bool) : bool :=
  match a with
  | Some b => b
  | None => false
  end.

(** [dialog.title or f"Chat {dialog.id}"] *)
Definition title_or_default (d : dialog) : string :=
  match dialog_title d with
  | Some (String a t) => String a t
  | _ => "Chat " +:+ pretty (dialog_id d)
  end.

(** Lines 94-106: the body of the [async for] over the dialogs. *)
Fixpoint group_dialogs (dialogs : list dialog) : list (Z * string) :=
  match dialogs with
  | [] => []
  | d :: rest =>
      if is_group d || has_attr (megagroup d) then
        if has_attr (broadcast d) then group_dialogs rest
        else (dialog_id d, title_or_default d) :: group_dialogs rest
      else group_dialogs rest
  end.

(** [client.iter_dialogs()], run to its end: the transport hands over the
    listing, or raises. *)
Definition iter_dialogs (c : nat) (listing : list dialog) : M (list dialog) := λ s,
  let '(o, script) := next_outcome (transport_script s) in
  let s := with_transport_script script s in
  match o with
  | Returns => (Ret listing, s)
  | Raises x => (Raise x, s)
  end.

(** [get_user_dialogs]; [listing] is what the transport would list for the
    user's account. *)
Definition get_user_dialogs (user_id : Z) (listing : list dialog)
    : M (list (Z * string)) :=
  try_except
    (profile ← await_query (λ _, Database.get_profile user_id);
     match profile with
     | None => ret []
     | Some p =>
         c ← create_client user_id (Database.session p);
         dialogs ← iter_dialogs c listing;
         ret (group_dialogs dialogs)
     end)
    (λ e, match e with
          | CancelledError => raise CancelledError
          | _ => ret []
          end).


Definition cleanup_profile (user_id : Z) : M () :=
  stop_sending user_id ;;
  await_statement (λ _, Database.delete_profile user_id) ;;
  await_statement (λ _, Database.delete_message user_id) ;;
  await_statement (λ t, Database.update_user_login_status t user_id 0).

End SenderManager.

(* ===================================================================== *)
(** ** main.py and handlers.py: the callers of the sender *)
(* ===================================================================== *)


(** [is_user_ready] of [handlers.py]: the gate in front of the start
    button. *)
Definition is_user_ready (user_id : Z) : M bool :=
  user ← await_query (λ _, Database.get_user user_id);
  match user with
  | None => ret false
  | Some u =>
      if bool_decide (Database.is_logged_in u = 0) then ret false
      else
        profile ← await_query (λ _, Database.get_profile user_id);
        message ← await_query (λ _, Database.get_message user_id);
        user_groups ← await_query (λ _, Database.get_user_groups user_id);
        ret (match profile, message, user_groups with
             | Some _, Some _, _ :: _ => true
             | _, _, _ => false
             end)
  end.

(* ===================================================================== *)
(** ** Vocabulary of the proofs *)
(* ===================================================================== *)

(** [preserves f m]: running [m] leaves the observation [f] of the state as
    it was, however [m] ends. *)
Definition preserves {X A} (f : St → X) (m : M A) : Prop :=
  ∀ s, f (m s).2 = f s.

(** [emits P m]: running [m] only appends to the trace, and every event it
    appends satisfies [P]. *)
Definition emits {A} (P : event → Prop) (m : M A) : Prop :=
  ∀ s, ∃ evs, trace (m s).2 = trace s ++ evs ∧ Forall P evs.

(** The events of a teardown: cancelling, disconnecting, dropping entries. *)
Definition teardown_event (e : event) : Prop :=
  match e with
  | EvCancel _ | EvDisconnect _ | EvDelClient _ | EvDelTask _ => True
  | _ => False
  end.

(** The events of a delivery attempt. *)
Definition sending_event (e : event) : Prop :=
  match e with
  | EvConnect _ | EvSendMessage _ _ _ | EvSleep _ | EvDelClient _ => True
  | _ => False
  end.

(** An event that is not a write of the active flag. *)
Definition not_a_write (e : event) : Prop :=
  match e with
  | EvSetActive _ _ => False
  | _ => True
  end.

(** [quiet s s']: between [s] and [s'] the store was not written. *)
Definition quiet (s s' : St) : Prop :=
  db s' = db s ∧ ∃ evs, trace s' = trace s ++ evs ∧ Forall not_a_write evs.

Definition always_quiet {A} (m : M A) : Prop := ∀ s, quiet s (m s).2.

(** [m] leaves the store alone, unless it ends with [stop]. *)
Definition quiet_unless {A} (stop : res A) (m : M A) : Prop :=
  ∀ s, quiet s (m s).2 ∨ (m s).1 = stop.

(** [answers n script]: the next [n] calls of the script return. *)
Definition answers (n : nat) (script : list outcome) : Prop :=
  Forall (λ o, o = Returns) (take n script).



(** The state in which [stop_sending] starts its teardown. *)
Definition after_stop_write (user_id : Z) (script : list outcome) (s : St) : St :=
  with_trace (trace s ++ [EvStopSending user_id; EvSetActive user_id 0])
    (with_db (Database.update_user_active_status (now s) user_id 0 (db s))
       (with_store_script script s)).

(** An event that neither calls [start_sending] for [user_id] nor creates a
    send task for that user. *)
Definition no_spawn (user_id : Z) (e : event) : Prop :=
  e ≠ EvStartSending user_id ∧ ∀ t, e ≠ EvCreateTask (SendingLoop user_id) t.

(** [untouched user_id s s']: between [s] and [s'] nothing that concerns
    [user_id] has changed: the user's row, the three other tables, the
    user's registry entry, the clock; the store still answers; the tasks
    that existed are as they were; and no task was spawned for the user. *)
Definition untouched (user_id : Z) (s s' : St) : Prop :=
  Database.get_user user_id (db s') = Database.get_user user_id (db s)
  ∧ Database.profiles (db s') = Database.profiles (db s)
  ∧ Database.messages (db s') = Database.messages (db s)
  ∧ Database.user_groups (db s') = Database.user_groups (db s)
  ∧ active_tasks s' !! user_id = active_tasks s !! user_id
  ∧ clock s' = clock s
  ∧ (store_script s = [] → store_script s' = [])
  ∧ (∀ t o, task_objs s !! t = Some o → task_objs s' !! t = Some o)
  ∧ ∃ evs, trace s' = trace s ++ evs ∧ Forall (no_spawn user_id) evs.

#[global] Instance task_kind_eq_dec : EqDecision task_kind.
Proof. solve_decision. Defined.

#[global] Instance task_state_eq_dec : EqDecision task_state.
Proof. solve_decision. Defined.

(** A send task of [user_id] that is not finished. *)
Definition is_live_send_task (user_id : Z) (o : task_obj) : Prop :=
  t_kind o = SendingLoop user_id ∧ t_state o ≠ Finished.

#[global] Instance is_live_send_task_dec user_id o :
  Decision (is_live_send_task user_id o).
Proof. unfold is_live_send_task. apply _. Defined.

Definition live_send_tasks (user_id : Z) (s : St) : list task_obj :=
  filter (is_live_send_task user_id) (task_objs s).

(** Registry mutual exclusion: a user has at most one live send task, and a
    live send task is the one the registry holds for its user. *)
Definition one_task_per_user (s : St) : Prop :=
  ∀ user_id,
    (length (live_send_tasks user_id s) ≤ 1)%nat
    ∧ ∀ t o, task_objs s !! t = Some o → is_live_send_task user_id o →
             active_tasks s !! user_id = Some t.

(** Two calls of [start_sending user_id] that overlap.  Each call runs its
    own statements in order: the guard of line 117, then, past the guard,
    lines 120-125.  The first call is suspended at the [await] of line 121
    when the second evaluates its guard, so both guards see the registry
    before either call has recorded a task. *)
Definition two_overlapping_starts (user_id : Z) : M () :=
  emit (EvStartSending user_id) ;;
  first_sees_live ← gets (has_live_task user_id);
  emit (EvStartSending user_id) ;;
  second_sees_live ← gets (has_live_task user_id);
  (if first_sees_live then ret () else start_sending_unguarded user_id) ;;
  (if second_sees_live then ret () else start_sending_unguarded user_id).

Section Poised.
Context {config : Config}.



End Poised.

(* ===================================================================== *)
(** ** Worlds to run the model on *)
(* ===================================================================== *)

(** Values picked for the examples; [config.py] itself is not at hand. *)
Definition sample_config : Config := {|
  MAX_RETRY_ATTEMPTS := 3;
  BASE_RETRY_DELAY := 5;
  MAX_RETRY_DELAY := 300;
  DEFAULT_RANDOM_INTERVAL_MIN := 300;
  DEFAULT_RANDOM_INTERVAL_MAX := 360
|}.

(** User 7: active, not banned, subscribed until second 1000. *)
Definition ann : Database.user_row :=
  Database.UserRow "Ann" 1 1 0 1000 5 5.

(** A store in which user 7 is ready to send to two groups. *)
Definition ready_store : Database.tables :=
  Database.Tables
    {[ 7 := ann ]}
    {[ 7 := Database.ProfileRow "+100" "session-7" 5 ]}
    {[ 7 := Database.MessageRow "hello" 5 ]}
    [Database.GroupRow 7 100 "one" 5; Database.GroupRow 7 200 "two" 5].

(** The same store with no destination selected. *)
Definition no_groups_store : Database.tables :=
  Database.Tables (Database.users ready_store) (Database.profiles ready_store)
    (Database.messages ready_store) [].

(** User 7 is flagged active and is banned, and has selected no group. *)
Definition banned_active_store : Database.tables :=
  Database.Tables
    {[ 7 := Database.UserRow "Ann" 1 1 1 1000 5 5 ]}
    (Database.profiles ready_store) (Database.messages ready_store) [].

(** User 7 is flagged active but never had a subscription; user 8 is flagged
    active and the subscription ran out at second 500. *)
Definition lapsed_store : Database.tables :=
  Database.Tables
    {[ 7 := Database.UserRow "Ann" 1 1 0 0 5 5;
       8 := Database.UserRow "Bob" 1 1 0 500 5 5 ]}
    ∅ ∅ [].

(** The state at boot, at second [t], over the store [d]: nothing in
    memory. *)
Definition boot_at (t : Q) (d : Database.tables) : St :=
  MkSt d t [] [] ∅ ∅ None [] [] [] [] [] 0 None.

(** The state at second [t]: the store [d], no client, and for user 7 a
    registered task that has started. *)
Definition running_at (t : Q) (d : Database.tables) : St :=
  MkSt d t [] [TaskObj (SendingLoop 7) (Suspended None)] {[ 7 := 0%nat ]} ∅ None
       [] [] [] [] [] 0 None.


(** A state in which the next draw of [random.random()] is 10/11. *)
Definition high_draw : St :=
  with_entropy [(10 # 11)%Q] (running_at 10 ready_store).


(** The loop of user 7 is cancelled during its third sleep. *)
Definition cancelled_while_asleep : St :=
  with_timer_script [Elapsed; Elapsed; Interrupted] (running_at 10 ready_store).

(* ===================================================================== *)
(** ** Three claims as the specification states them *)
(* ===================================================================== *)

(** C2 as stated: the delay slept after a rate-limit rejection announcing
    [R] seconds is at least [R] and strictly less than [R + 15]. *)
Definition rate_limit_delay_strictly_below_R_plus_15 : Prop :=
  ∀ (R : Z) (s : St) (n : Z),
    trace (flood_wait R s).2 = trace s ++ [EvSleep (inject_Z n)] →
    R ≤ n ∧ n < R + 15.


(** C8 as stated: every user persisted as active whose subscription is valid
    and whose setup is incomplete has the flag cleared by Restore-on-Boot. *)
Definition restore_clears_every_unready_active_user : Prop :=
  ∀ (user_id : Z) (s : St) (u : Database.user_row),
    store_script s = [] →
    Database.users (db s) !! user_id = Some u →
    Database.is_active u = 1 →
    now s < Database.subscription_until u →
    Database.get_profile user_id (db s) = None
    ∨ Database.get_message user_id (db s) = None
    ∨ Database.get_user_groups user_id (db s) = [] →
    Database.is_active
      <$> Database.get_user user_id (db (restore_active_tasks s).2) = Some 0.

(* ===================================================================== *)
(** ** Vocabulary of the further properties *)
(* ===================================================================== *)

(** The destinations of [user_id] among the rows [l]. *)
Definition groups_of (user_id : Z) (l : list Database.group_row) : list Z :=
  Database.group_id <$> filter (λ g, Database.group_user_id g = user_id) l.

(** The cap the store's [add_user_group] and the handlers enforce: nobody
    has more than three destinations. *)
Definition groups_capped (d : Database.tables) : Prop :=
  ∀ user_id, (length (Database.get_user_groups user_id d) ≤ 3)%nat.

(** [UNIQUE (user_id, group_id)] *)
Definition group_key (g : Database.group_row) : Z * Z :=
  (Database.group_user_id g, Database.group_id g).

Definition groups_unique (d : Database.tables) : Prop :=
  NoDup (group_key <$> Database.user_groups d).

(** [never_cancelled s]: from [s] on nobody cancels the running coroutine:
    no store or transport call is interrupted by [CancelledError], and no
    sleep is interrupted.  Faults of the store and of the transport are
    allowed. *)
Definition never_cancelled (s : St) : Prop :=
  Forall (λ o, o ≠ Raises CancelledError) (store_script s)
  ∧ Forall (λ o, o ≠ Raises CancelledError) (transport_script s)
  ∧ Forall (λ w, w = Elapsed) (timer_script s).

(** [calm m]: when nobody cancels, [m] does not end with [CancelledError],
    and nobody cancels afterwards either. *)
Definition calm {A} (m : M A) : Prop :=
  ∀ s, never_cancelled s →
       never_cancelled (m s).2 ∧ (m s).1 ≠ Raise CancelledError.

(** The destinations a trace shows a delivery attempt for, in order. *)
Definition attempts (evs : list event) : list (nat * Z * string) :=
  omap (λ e, match e with
             | EvSendMessage c group body => Some (c, group, body)
             | _ => None
             end) evs.

(** [keeps R m]: the states before and after [m] are related by [R],
    however [m] ends. *)
Definition keeps {A} (R : St → St → Prop) (m : M A) : Prop :=
  ∀ s, R s (m s).2.

(** [shrinks s s']: from [s] to [s'] the registry and the pool have gained
    no entry. *)
Definition shrinks (s s' : St) : Prop :=
  (∀ k, active_tasks s !! k = None → active_tasks s' !! k = None)
  ∧ (∀ k, clients s !! k = None → clients s' !! k = None).

(** [later s s']: the clock has not gone back. *)
Definition later (s s' : St) : Prop := (clock s <= clock s')%Q.


(** The events of a delivery over an open connection. *)
Definition delivery_event (e : event) : Prop :=
  match e with
  | EvSendMessage _ _ _ | EvSleep _ => True
  | _ => False
  end.

(* ===================================================================== *)
(** ** More worlds *)
(* ===================================================================== *)

(** User 7 is sending: the loop is suspended at an [await] with an open
    connection, its client is pooled, and the reaper runs. *)
Definition sending_at (t : Q) (d : Database.tables) : St :=
  MkSt d t [ClientObj "session-7" true]
       [TaskObj (SendingLoop 7) (Suspended (Some 0%nat));
        TaskObj SubscriptionChecker (Suspended None)]
       {[ 7 := 0%nat ]} {[ 7 := 0%nat ]} (Some 1%nat) [] [] [] [] [] 0 (Some 0%nat).

(** The same, with a transport that fails the first destination and
    rate-limits the second. *)
Definition faulty_transport : St :=
  with_transport_script [Raises Exception; Raises (FloodWaitError 30)]
    (sending_at 10 ready_store).

(** An account with a basic group, a broadcast channel, a megagroup without
    title, and a private chat. *)
Definition sample_listing : list dialog :=
  [Dialog (-100) (Some "Friends") true None None;
   Dialog (-1001) (Some "News") false (Some false) (Some true);
   Dialog (-1002) None true (Some true) (Some false);
   Dialog 42 (Some "Bob") false None None].

(* ===================================================================== *)
(** ** Random draws stay in their range *)
(* ===================================================================== *)

Lemma unit_fraction_range (q : Q) :
  (0 <= unit_fraction q)%Q ∧ (unit_fraction q < 1)%Q.
Proof.
  unfold unit_fraction.
  pose proof (Qfloor_le q) as Hlo.
  pose proof (Qlt_floor q) as Hhi.
  rewrite inject_Z_plus in Hhi.
  change (inject_Z 1) with 1%Q in Hhi.
  split; lra.
Qed.

Lemma randint_of_range (a b : Z) (f : Q) :
  a ≤ b → (0 <= f)%Q → (f < 1)%Q →
  a ≤ randint_of a b f ∧ randint_of a b f ≤ b.
Proof.
  intros Hab Hf0 Hf1. unfold randint_of.
  set (n := b - a + 1).
  assert (Hn : (0 < inject_Z n)%Q).
  { change 0%Q with (inject_Z 0). rewrite <- Zlt_Qlt. subst n. lia. }
  assert (Hlo : 0 ≤ Qfloor (f * inject_Z n)).
  { change 0 with (Qfloor (inject_Z 0)) at 1.
    apply Qfloor_resp_le. change (inject_Z 0) with 0%Q. nra. }
  assert (Hhi : Qfloor (f * inject_Z n) < n).
  { rewrite Zlt_Qlt.
    apply Qle_lt_trans with (f * inject_Z n)%Q; [apply Qfloor_le|]. nra. }
  subst n. lia.
Qed.

Lemma uniform_of_range (a b f : Q) :
  (a <= b)%Q → (0 <= f)%Q → (f < 1)%Q →
  (a <= uniform_of a b f)%Q ∧ (uniform_of a b f <= b)%Q.
Proof. intros Hab Hf0 Hf1. unfold uniform_of. split; nra. Qed.

(** [random] never fails, touches nothing but the entropy, and returns a
    fraction. *)
Lemma random_spec (s : St) :
  ∃ f, random s = (Ret f, with_entropy (tail (entropy s)) s)
       ∧ (0 <= f)%Q ∧ (f < 1)%Q.
Proof.
  unfold random. destruct s as [? ? ? ? ? ? ? ? ? ? en ? ? ?]; simpl.
  destruct en as [|q qs]; simpl.
  - exists 0%Q. split; [reflexivity | split; lra].
  - exists (unit_fraction q). destruct (unit_fraction_range q). auto.
Qed.

Lemma randint_spec (a b : Z) (s : St) :
  a ≤ b →
  ∃ r, randint a b s = (Ret r, with_entropy (tail (entropy s)) s)
       ∧ a ≤ r ∧ r ≤ b.
Proof.
  intros Hab. unfold randint.
  rewrite bool_decide_eq_false_2 by lia.
  destruct (random_spec s) as (f & Hr & H0 & H1).
  unfold bind. rewrite Hr. unfold ret.
  exists (randint_of a b f). split; [reflexivity|].
  by apply randint_of_range.
Qed.

Lemma uniform_spec (a b : Q) (s : St) :
  (a <= b)%Q →
  ∃ d, uniform a b s = (Ret d, with_entropy (tail (entropy s)) s)
       ∧ (a <= d)%Q ∧ (d <= b)%Q.
Proof.
  intros Hab. unfold uniform.
  destruct (random_spec s) as (f & Hr & H0 & H1).
  unfold bind. rewrite Hr. unfold ret.
  exists (uniform_of a b f). split; [reflexivity|].
  by apply uniform_of_range.
Qed.

(* ===================================================================== *)
(** ** Two program logics in miniature: frames and traces *)
(* ===================================================================== *)

Section Logic.
Context {X : Type} (f : St → X) (P : event → Prop).

Lemma preserves_ret {A} (a : A) : preserves f (ret a).
Proof. by intros s. Qed.

Lemma preserves_raise {A} (e : exn) : preserves f (raise (A:=A) e).
Proof. by intros s. Qed.

Lemma preserves_out_of_fuel {A} : preserves f (out_of_fuel (A:=A)).
Proof. by intros s. Qed.

Lemma preserves_gets {A} (g : St → A) : preserves f (gets g).
Proof. by intros s. Qed.

Lemma preserves_modify (g : St → St) :
  (∀ s, f (g s) = f s) → preserves f (modify g).
Proof. intros Hg s. apply Hg. Qed.

Lemma preserves_bind {A B} (m : M A) (k : A → M B) :
  preserves f m → (∀ a, preserves f (k a)) → preserves f (bind m k).
Proof.
  intros Hm Hk s. unfold bind. specialize (Hm s).
  destruct (m s) as [[a|e|] s']; simpl in *; [rewrite Hk|..]; done.
Qed.

Lemma preserves_try_except {A} (m : M A) (h : exn → M A) :
  preserves f m → (∀ e, preserves f (h e)) → preserves f (try_except m h).
Proof.
  intros Hm Hh s. unfold try_except. specialize (Hm s).
  destruct (m s) as [[a|e|] s']; simpl in *; [|rewrite Hh|]; done.
Qed.

Lemma preserves_try_finally {A} (m : M A) (c : M ()) :
  preserves f m → preserves f c → preserves f (try_finally m c).
Proof.
  intros Hm Hc s. unfold try_finally. specialize (Hm s).
  destruct (m s) as [[a|e|] s']; simpl in *; [| |done];
    specialize (Hc s'); destruct (c s') as [[[]|e'|] s'']; simpl in *; congruence.
Qed.

Lemma preserves_for_each {A} (l : list A) (body : A → M ()) :
  (∀ x, preserves f (body x)) → preserves f (for_each l body).
Proof.
  intros Hb. induction l as [|x l IH]; simpl.
  - apply preserves_ret.
  - apply preserves_bind; auto.
Qed.

Lemma emits_ret {A} (a : A) : emits P (ret a).
Proof. intros s. exists []. by rewrite app_nil_r. Qed.

Lemma emits_raise {A} (e : exn) : emits P (raise (A:=A) e).
Proof. intros s. exists []. by rewrite app_nil_r. Qed.

Lemma emits_out_of_fuel {A} : emits P (out_of_fuel (A:=A)).
Proof. intros s. exists []. by rewrite app_nil_r. Qed.

Lemma emits_gets {A} (g : St → A) : emits P (gets g).
Proof. intros s. exists []. by rewrite app_nil_r. Qed.

Lemma emits_modify (g : St → St) :
  (∀ s, trace (g s) = trace s) → emits P (modify g).
Proof. intros Hg s. exists []. simpl. by rewrite Hg, app_nil_r. Qed.

Lemma emits_emit (e : event) : P e → emits P (emit e).
Proof. intros He s. exists [e]. split; [done|]. by constructor. Qed.

Lemma emits_bind {A B} (m : M A) (k : A → M B) :
  emits P m → (∀ a, emits P (k a)) → emits P (bind m k).
Proof.
  intros Hm Hk s. unfold bind. destruct (Hm s) as (evs & Ht & Hevs).
  destruct (m s) as [[a|e|] s']; simpl in *; [|by eauto..].
  destruct (Hk a s') as (evs' & Ht' & Hevs').
  exists (evs ++ evs'). split.
  - by rewrite Ht', Ht, app_assoc.
  - by apply Forall_app.
Qed.

Lemma emits_try_except {A} (m : M A) (h : exn → M A) :
  emits P m → (∀ e, emits P (h e)) → emits P (try_except m h).
Proof.
  intros Hm Hh s. unfold try_except. destruct (Hm s) as (evs & Ht & Hevs).
  destruct (m s) as [[a|e|] s']; simpl in *; [by eauto| |by eauto].
  destruct (Hh e s') as (evs' & Ht' & Hevs').
  exists (evs ++ evs'). split.
  - by rewrite Ht', Ht, app_assoc.
  - by apply Forall_app.
Qed.

Lemma emits_try_finally {A} (m : M A) (c : M ()) :
  emits P m → emits P c → emits P (try_finally m c).
Proof.
  intros Hm Hc s. unfold try_finally. destruct (Hm s) as (evs & Ht & Hevs).
  destruct (m s) as [[a|e|] s']; simpl in *; [| |by eauto];
    destruct (Hc s') as (evs' & Ht' & Hevs');
    destruct (c s') as [[[]|e'|] s'']; simpl in *;
    (exists (evs ++ evs'); split;
     [by rewrite Ht', Ht, app_assoc | by apply Forall_app]).
Qed.

Lemma emits_for_each {A} (l : list A) (body : A → M ()) :
  (∀ x, emits P (body x)) → emits P (for_each l body).
Proof.
  intros Hb. induction l as [|x l IH]; simpl.
  - apply emits_ret.
  - apply emits_bind; auto.
Qed.

(** The primitives. *)

Lemma preserves_await_query {A} (q : Z → Database.tables → A) :
  (∀ x s, f (with_store_script x s) = f s) → preserves f (await_query q).
Proof.
  intros Hf s. unfold await_query.
  destruct (next_outcome (store_script s)) as [[|e] script]; simpl; apply Hf.
Qed.

Lemma emits_await_query {A} (q : Z → Database.tables → A) :
  emits P (await_query q).
Proof.
  intros s. exists []. unfold await_query.
  destruct (next_outcome (store_script s)) as [[|e] script]; simpl;
    by rewrite app_nil_r.
Qed.

Lemma emits_await_update_user_active_status (user_id v : Z) :
  P (EvSetActive user_id v) →
  emits P (await_update_user_active_status user_id v).
Proof.
  intros HP s. unfold await_update_user_active_status.
  destruct (next_outcome (store_script s)) as [[|e] script]; simpl.
  - exists [EvSetActive user_id v]. split; [done|]. by constructor.
  - exists []. by rewrite app_nil_r.
Qed.

Lemma preserves_sleep (d : Q) :
  (∀ x s, f (with_timer_script x s) = f s) →
  (∀ x s, f (with_trace x s) = f s) →
  (∀ x s, f (with_clock x s) = f s) →
  preserves f (sleep d).
Proof.
  intros H1 H2 H3 s. unfold sleep.
  destruct (next_wake (timer_script s)) as [[|] script]; simpl;
    by rewrite ?H3, H2, H1.
Qed.

Lemma emits_sleep (d : Q) : P (EvSleep d) → emits P (sleep d).
Proof.
  intros HP s. unfold sleep. exists [EvSleep d].
  destruct (next_wake (timer_script s)) as [[|] script]; simpl;
    (split; [done | by constructor]).
Qed.

Lemma preserves_random :
  (∀ x s, f (with_entropy x s) = f s) → preserves f random.
Proof. intros Hf s. unfold random. destruct (entropy s); simpl; [done | apply Hf]. Qed.

Lemma emits_random : emits P random.
Proof.
  intros s. exists []. unfold random.
  destruct (entropy s); simpl; by rewrite app_nil_r.
Qed.

Lemma preserves_randint (a b : Z) :
  (∀ x s, f (with_entropy x s) = f s) → preserves f (randint a b).
Proof.
  intros Hf. unfold randint. case_bool_decide.
  - apply preserves_raise.
  - apply preserves_bind; [by apply preserves_random | intros; apply preserves_ret].
Qed.

Lemma emits_randint (a b : Z) : emits P (randint a b).
Proof.
  unfold randint. case_bool_decide.
  - apply emits_raise.
  - apply emits_bind; [apply emits_random | intros; apply emits_ret].
Qed.

Lemma preserves_uniform (a b : Q) :
  (∀ x s, f (with_entropy x s) = f s) → preserves f (uniform a b).
Proof.
  intros Hf. unfold uniform.
  apply preserves_bind; [by apply preserves_random | intros; apply preserves_ret].
Qed.

Lemma emits_uniform (a b : Q) : emits P (uniform a b).
Proof.
  unfold uniform.
  apply emits_bind; [apply emits_random | intros; apply emits_ret].
Qed.

Lemma preserves_await_transport (e : event) (effect : St → St) :
  (∀ x s, f (with_transport_script x s) = f s) →
  (∀ x s, f (with_trace x s) = f s) →
  (∀ s, f (effect s) = f s) →
  preserves f (await_transport e effect).
Proof.
  intros H1 H2 H3 s. unfold await_transport.
  destruct (next_outcome (transport_script s)) as [[|x] script]; simpl;
    by rewrite ?H3, H2, H1.
Qed.

Lemma emits_await_transport (e : event) (effect : St → St) :
  P e → (∀ s, trace (effect s) = trace s) →
  emits P (await_transport e effect).
Proof.
  intros HP He s. unfold await_transport. exists [e].
  destruct (next_outcome (transport_script s)) as [[|x] script]; simpl;
    rewrite ?He; (split; [done | by constructor]).
Qed.

Lemma emits_del_client (user_id : Z) :
  P (EvDelClient user_id) → emits P (del_client user_id).
Proof. intros HP s. exists [EvDelClient user_id]. split; [done | by constructor]. Qed.

Lemma emits_del_task (user_id : Z) :
  P (EvDelTask user_id) → emits P (del_task user_id).
Proof. intros HP s. exists [EvDelTask user_id]. split; [done | by constructor]. Qed.

Lemma emits_create_task (k : task_kind) :
  (∀ t, P (EvCreateTask k t)) → emits P (create_task k).
Proof.
  intros HP s. exists [EvCreateTask k (length (task_objs s))].
  split; [done | by constructor].
Qed.

End Logic.

Lemma emits_weaken {A} (P Q : event → Prop) (m : M A) :
  (∀ e, P e → Q e) → emits P m → emits Q m.
Proof.
  intros HPQ Hm s. destruct (Hm s) as (evs & Ht & Hevs).
  exists evs. split; [done|]. eapply Forall_impl; eauto.
Qed.

Lemma emits_for_each_in {A} (P : event → Prop) (l : list A) (body : A → M ()) :
  (∀ x, x ∈ l → emits P (body x)) → emits P (for_each l body).
Proof.
  induction l as [|x l IH]; intros Hb; simpl.
  - apply emits_ret.
  - apply emits_bind.
    + apply Hb. by left.
    + intros _. apply IH. intros y Hy. apply Hb. by right.
Qed.

(** One step of a trace proof: peel the outermost construct. *)
Ltac emits_step :=
  first
    [ apply emits_ret | apply emits_raise | apply emits_gets
    | apply emits_out_of_fuel
    | apply emits_await_query | apply emits_random
    | apply emits_randint | apply emits_uniform
    | apply emits_modify; by intros
    | apply emits_emit
    | apply emits_sleep
    | apply emits_await_update_user_active_status
    | apply emits_del_client | apply emits_del_task
    | apply emits_create_task; intros
    | apply emits_await_transport; [|by intros]
    | apply emits_bind; [|intros]
    | apply emits_try_except; [|intros]
    | apply emits_try_finally
    | apply emits_for_each; intros
    | match goal with
      | |- emits _ (match ?x with _ => _ end) => destruct x
      end ].

Section Traces.
Context {config : Config} (P : event → Prop).
Hypothesis teardown : ∀ e, teardown_event e → P e.

Lemma emits_disconnect (c : nat) : emits P (disconnect c).
Proof.
  unfold disconnect. apply emits_await_transport; [|by intros].
  by apply teardown.
Qed.

Lemma emits_cleanup (user_id : Z) : emits P (cleanup user_id).
Proof.
  unfold cleanup.
  repeat first [apply emits_disconnect | emits_step]; by apply teardown.
Qed.

Lemma emits_cancel_and_await (t : nat) : emits P (cancel_and_await t).
Proof.
  unfold cancel_and_await.
  repeat first [apply emits_cleanup | emits_step]; by apply teardown.
Qed.

Lemma emits_stop_sending (user_id : Z) :
  P (EvStopSending user_id) → P (EvSetActive user_id 0) →
  emits P (stop_sending user_id).
Proof.
  intros H1 H2. unfold stop_sending, stop_task, stop_client.
  repeat first [apply emits_disconnect | apply emits_cancel_and_await | emits_step];
    first [done | by apply teardown].
Qed.

End Traces.

(* ===================================================================== *)
(** ** The reaper's query *)
(* ===================================================================== *)

Lemma elem_of_get_expired_subscriptions (t : Z) (d : Database.tables) (user_id : Z) :
  user_id ∈ Database.get_expired_subscriptions t d ↔
  ∃ r, Database.users d !! user_id = Some r
       ∧ 0 < Database.subscription_until r
       ∧ Database.subscription_until r < t
       ∧ Database.is_active r = 1.
Proof.
  unfold Database.get_expired_subscriptions.
  rewrite list_elem_of_fmap. split.
  - intros ([u r] & -> & Hin). apply list_elem_of_filter in Hin as [Hp Hin].
    apply elem_of_map_to_list in Hin. simpl in *. exists r. tauto.
  - intros (r & Hr & Hp). exists (user_id, r). split; [done|].
    apply list_elem_of_filter. split; [simpl; tauto|].
    by apply elem_of_map_to_list.
Qed.

(** The reaper calls [stop_sending] for the users its query returned, and
    for no one else. *)
Lemma subscription_checker_tick_stops_expired_only (s : St) :
  ∃ evs, trace (subscription_checker_tick s).2 = trace s ++ evs
         ∧ ∀ user_id, EvStopSending user_id ∈ evs →
             ∃ t, user_id ∈ Database.get_expired_subscriptions t (db s).
Proof.
  unfold subscription_checker_tick, try_except, bind at 1, sleep.
  destruct (next_wake (timer_script s)) as [[|] script]; simpl.
  2:{ eexists. split; [done|]. intros u Hu. apply list_elem_of_singleton in Hu. done. }
  unfold bind at 1, await_query. simpl.
  destruct (next_outcome (store_script s)) as [[|e] script']; simpl.
  2:{ destruct e; simpl; (eexists; split; [done|]);
      intros u Hu; apply list_elem_of_singleton in Hu; done. }
  match goal with |- context [for_each ?l stop_sending ?st] =>
    set (expired := l); set (s1 := st) end.
  assert (Hem : emits (λ e, ∀ u, e = EvStopSending u → u ∈ expired)
                  (for_each expired stop_sending)).
  { apply emits_for_each_in. intros x Hx. apply emits_stop_sending.
    - intros e He u ->. destruct He.
    - by intros u [= <-].
    - intros u [=]. }
  destruct (Hem s1) as (evs & Ht & Hevs).
  assert (Hgoal : trace (for_each expired stop_sending s1).2
                  = trace s ++ EvSleep 300 :: evs
                  ∧ ∀ u, EvStopSending u ∈ EvSleep 300 :: evs → u ∈ expired).
  { split.
    - rewrite Ht. subst s1. simpl. by rewrite <- app_assoc.
    - intros u Hu. apply elem_of_cons in Hu as [[=]|Hu].
      rewrite Forall_forall in Hevs. by eapply Hevs. }
  destruct Hgoal as [Hg1 Hg2].
  destruct (for_each expired stop_sending s1) as [[[]|e|] s2]; simpl in *;
    try destruct e; simpl;
    (exists (EvSleep 300 :: evs); split; [done|]);
    intros u Hu; eexists; eapply Hg2; eauto.
Qed.

(* ===================================================================== *)
(** ** What the send loop leaves alone *)
(* ===================================================================== *)

(** One step of a frame proof. *)
Ltac preserves_step :=
  first
    [ apply preserves_ret | apply preserves_raise | apply preserves_gets
    | apply preserves_out_of_fuel
    | apply preserves_await_query; by intros
    | apply preserves_random; by intros
    | apply preserves_randint; by intros
    | apply preserves_uniform; by intros
    | apply preserves_modify; by intros
    | apply preserves_sleep; by intros
    | apply preserves_await_transport; by intros
    | apply preserves_bind; [|intros]
    | apply preserves_try_except; [|intros]
    | apply preserves_try_finally
    | apply preserves_for_each; intros
    | match goal with
      | |- preserves _ (match ?x with _ => _ end) => destruct x
      end ].

Section Frames.
Context {config : Config}.

Lemma preserves_db_new_client (x : string) : preserves db (new_client x).
Proof. by intros s. Qed.

Lemma emits_new_client (P : event → Prop) (x : string) : emits P (new_client x).
Proof. intros s. exists []. simpl. by rewrite app_nil_r. Qed.

Lemma preserves_db_create_client (user_id : Z) (x : string) :
  preserves db (create_client user_id x).
Proof.
  unfold create_client, connect, del_client.
  repeat first [apply preserves_db_new_client | preserves_step].
Qed.

Lemma emits_create_client (user_id : Z) (x : string) :
  emits sending_event (create_client user_id x).
Proof.
  unfold create_client, connect.
  repeat first [apply emits_new_client | emits_step]; done.
Qed.

Lemma preserves_db_flood_wait (seconds : Z) : preserves db (flood_wait seconds).
Proof. unfold flood_wait. repeat preserves_step. Qed.

Lemma emits_flood_wait (seconds : Z) : emits sending_event (flood_wait seconds).
Proof. unfold flood_wait. repeat emits_step; done. Qed.

Lemma preserves_db_send_to_group (c : nat) (body : string) (group : Z) :
  preserves db (send_to_group c body group).
Proof.
  unfold send_to_group, send_message.
  repeat first [apply preserves_db_flood_wait | preserves_step].
Qed.

Lemma emits_send_to_group (c : nat) (body : string) (group : Z) :
  emits sending_event (send_to_group c body group).
Proof.
  unfold send_to_group, send_message.
  repeat first [apply emits_flood_wait | emits_step]; done.
Qed.

Lemma preserves_db_send_cycle user_id profile message user_groups :
  preserves db (send_cycle user_id profile message user_groups).
Proof.
  unfold send_cycle.
  repeat first [apply preserves_db_send_to_group
               | apply preserves_db_create_client | preserves_step].
Qed.

Lemma emits_send_cycle user_id profile message user_groups :
  emits sending_event (send_cycle user_id profile message user_groups).
Proof.
  unfold send_cycle.
  repeat first [apply emits_send_to_group
               | apply emits_create_client | emits_step]; done.
Qed.

Lemma preserves_db_cleanup (user_id : Z) : preserves db (cleanup user_id).
Proof. unfold cleanup, disconnect, del_client, del_task. repeat preserves_step. Qed.

End Frames.

(* ===================================================================== *)
(** ** The loop writes the flag only on its way out *)
(* ===================================================================== *)

Lemma quiet_refl (s : St) : quiet s s.
Proof. split; [done|]. exists []. by rewrite app_nil_r. Qed.

Lemma quiet_trans (s1 s2 s3 : St) : quiet s1 s2 → quiet s2 s3 → quiet s1 s3.
Proof.
  intros [Hd1 (e1 & Ht1 & He1)] [Hd2 (e2 & Ht2 & He2)]. split; [congruence|].
  exists (e1 ++ e2). split.
  - by rewrite Ht2, Ht1, app_assoc.
  - by apply Forall_app.
Qed.

Lemma always_quiet_intro {A} (m : M A) :
  preserves db m → emits not_a_write m → always_quiet m.
Proof. intros Hp He s. split; [apply Hp | apply He]. Qed.

Lemma quiet_unless_always {A} (stop : res A) (m : M A) :
  always_quiet m → quiet_unless stop m.
Proof. intros Hm s. left. apply Hm. Qed.

Lemma quiet_unless_bind {A B} (stop : res B) (m : M A) (k : A → M B) :
  always_quiet m → (∀ a, quiet_unless stop (k a)) → quiet_unless stop (bind m k).
Proof.
  intros Hm Hk s. unfold bind. specialize (Hm s).
  destruct (m s) as [[a|e|] s']; simpl in *; [|by left..].
  destruct (Hk a s') as [Hq|Hr]; [left | by right].
  by eapply quiet_trans.
Qed.

Lemma quiet_unless_try_except {A} (stop : res A) (m : M A) (h : exn → M A) :
  always_quiet m → (∀ e, quiet_unless stop (h e)) →
  quiet_unless stop (try_except m h).
Proof.
  intros Hm Hh s. unfold try_except. specialize (Hm s).
  destruct (m s) as [[a|e|] s']; simpl in *; [by left| |by left].
  destruct (Hh e s') as [Hq|Hr]; [left | by right].
  by eapply quiet_trans.
Qed.

(** A write of the flag that the store refuses leaves it as it was. *)
Lemma write_then_break {A} (user_id v : Z) (a : A) :
  quiet_unless (Ret a) (await_update_user_active_status user_id v ;; ret a).
Proof.
  intros s. unfold bind, await_update_user_active_status.
  destruct (next_outcome (store_script s)) as [[|e] script]; simpl.
  - by right.
  - left. split; [done|]. exists []. by rewrite app_nil_r.
Qed.

Lemma sending_event_not_a_write (e : event) : sending_event e → not_a_write e.
Proof. by destruct e. Qed.

Lemma teardown_event_not_a_write (e : event) : teardown_event e → not_a_write e.
Proof. by destruct e. Qed.

Section Quiet.
Context {config : Config}.

Lemma always_quiet_query {A} (q : Z → Database.tables → A) :
  always_quiet (await_query q).
Proof.
  apply always_quiet_intro; [by apply preserves_await_query | apply emits_await_query].
Qed.

Lemma always_quiet_flood_wait (seconds : Z) : always_quiet (flood_wait seconds).
Proof.
  apply always_quiet_intro; [apply preserves_db_flood_wait|].
  eapply emits_weaken; [apply sending_event_not_a_write | apply emits_flood_wait].
Qed.

Lemma always_quiet_send_cycle user_id profile message user_groups :
  always_quiet (send_cycle user_id profile message user_groups).
Proof.
  apply always_quiet_intro; [apply preserves_db_send_cycle|].
  eapply emits_weaken; [apply sending_event_not_a_write | apply emits_send_cycle].
Qed.

Lemma always_quiet_cleanup (user_id : Z) : always_quiet (cleanup user_id).
Proof.
  apply always_quiet_intro; [apply preserves_db_cleanup|].
  apply emits_cleanup, teardown_event_not_a_write.
Qed.

Lemma always_quiet_bind {A B} (m : M A) (k : A → M B) :
  always_quiet m → (∀ a, always_quiet (k a)) → always_quiet (bind m k).
Proof.
  intros Hm Hk s. unfold bind. specialize (Hm s).
  destruct (m s) as [[a|e|] s']; simpl in *; [|done..].
  eapply quiet_trans; [done | apply Hk].
Qed.

Lemma always_quiet_pure {A} (m : M A) :
  (∀ s, (m s).2 = s) → always_quiet m.
Proof. intros Hm s. rewrite Hm. apply quiet_refl. Qed.

Lemma on_cycle_error_quiet (user_id : Z) (e : exn) :
  quiet_unless (Ret false) (on_cycle_error user_id e).
Proof.
  destruct e as [|seconds|]; simpl.
  - apply quiet_unless_always, always_quiet_pure. by intros.
  - apply quiet_unless_always, always_quiet_bind;
      [apply always_quiet_flood_wait | intros; by apply always_quiet_pure].
  - apply quiet_unless_bind.
    { apply always_quiet_intro; [by apply preserves_modify | by apply emits_modify]. }
    intros _. apply quiet_unless_bind; [by apply always_quiet_pure|].
    intros count. case_bool_decide.
    + apply write_then_break.
    + apply quiet_unless_always, always_quiet_intro.
      * repeat preserves_step.
      * repeat emits_step; done.
Qed.

Lemma cycle_quiet (user_id : Z) : quiet_unless (Ret false) (cycle user_id).
Proof.
  unfold cycle.
  apply quiet_unless_bind; [apply always_quiet_query|].
  intros [u|]; [|apply quiet_unless_always, always_quiet_pure; by intros].
  destruct (_ || _); [apply quiet_unless_always, always_quiet_pure; by intros|].
  apply quiet_unless_bind; [apply always_quiet_query|].
  intros [|]; simpl; [|apply write_then_break].
  apply quiet_unless_bind; [apply always_quiet_query|]. intros profile.
  apply quiet_unless_bind; [apply always_quiet_query|]. intros message.
  apply quiet_unless_bind; [apply always_quiet_query|]. intros user_groups.
  destruct profile, message, user_groups;
    try (apply quiet_unless_always, always_quiet_pure; by intros).
  apply quiet_unless_try_except; [|apply on_cycle_error_quiet].
  apply always_quiet_bind; [apply always_quiet_send_cycle|].
  intros; by apply always_quiet_pure.
Qed.

Lemma cycles_quiet (fuel : nat) (user_id : Z) :
  quiet_unless (Ret ()) (cycles fuel user_id).
Proof.
  induction fuel as [|fuel IH]; simpl.
  - apply quiet_unless_always, always_quiet_pure. by intros.
  - intros s. unfold bind.
    destruct (cycle_quiet user_id s) as [Hq|Hr].
    + destruct (cycle user_id s) as [[[|]|e|] s']; simpl in *; try by left.
      destruct (IH s') as [Hq'|Hr']; [left | by right].
      by eapply quiet_trans.
    + destruct (cycle user_id s) as [[[|]|e|] s']; simpl in *; try done.
      by right.
Qed.

End Quiet.

(* ===================================================================== *)
(** ** The [finally] block *)
(* ===================================================================== *)

Ltac run_cleanup :=
  unfold cleanup, bind, gets, try_except, disconnect, await_transport,
    del_client, del_task, modify, ret; simpl.

Ltac cleanup_cases s user_id :=
  run_cleanup;
  destruct (client s) as [?c|]; simpl;
  [ destruct (is_connected c s); simpl;
    [ destruct (next_outcome (transport_script s)) as [[|?e] ?script]; simpl |] |];
  destruct (clients s !! user_id) eqn:?Hpool; simpl;
  destruct (active_tasks s !! user_id) eqn:?Hentry; simpl.

Lemma cleanup_returns (user_id : Z) (s : St) : (cleanup user_id s).1 = Ret ().
Proof. cleanup_cases s user_id; done. Qed.

Lemma cleanup_drops_entries (user_id : Z) (s : St) :
  clients (cleanup user_id s).2 !! user_id = None
  ∧ active_tasks (cleanup user_id s).2 !! user_id = None.
Proof. cleanup_cases s user_id; by rewrite ?lookup_delete_eq. Qed.

Lemma cleanup_keeps_client (user_id : Z) : preserves client (cleanup user_id).
Proof. unfold cleanup, disconnect, del_client, del_task. repeat preserves_step. Qed.


(** The registry entry, when there is one, is dropped last. *)
Lemma cleanup_del_task_event (user_id : Z) (s : St) :
  is_Some (active_tasks s !! user_id) →
  ∃ pre, trace (cleanup user_id s).2 = trace s ++ pre ++ [EvDelTask user_id]
         ∧ Forall teardown_event pre.
Proof.
  intros [t Ht]. cleanup_cases s user_id; try congruence;
    rewrite <- ?app_assoc; simpl;
    match goal with
    | |- ∃ pre, _ ++ ?l = _ ∧ _ =>
        exists (removelast l); split; [reflexivity | repeat constructor]
    end.
Qed.

(* ===================================================================== *)
(** ** Leaving the send loop *)
(* ===================================================================== *)

Section Exit.
Context {config : Config}.

Lemma sending_loop_from_unfold (fuel : nat) (user_id : Z) (s : St) :
  (guarded_cycles fuel user_id s).1 ≠ OutOfFuel →
  _sending_loop_from fuel user_id s
  = ((guarded_cycles fuel user_id s).1,
     (cleanup user_id (guarded_cycles fuel user_id s).2).2).
Proof.
  intros Hr. unfold _sending_loop_from, try_finally.
  destruct (guarded_cycles fuel user_id s) as [[p|e|] s1]; simpl in *; [| |done];
    pose proof (cleanup_returns user_id s1) as Hc;
    destruct (cleanup user_id s1) as [[[]|e'|] s']; simpl in *; done.
Qed.

Lemma sending_loop_from_out_of_fuel (fuel : nat) (user_id : Z) (s : St) :
  (guarded_cycles fuel user_id s).1 = OutOfFuel ↔
  (_sending_loop_from fuel user_id s).1 = OutOfFuel.
Proof.
  unfold _sending_loop_from, try_finally.
  destruct (guarded_cycles fuel user_id s) as [[p|e|] s1]; simpl in *; [| |done];
    pose proof (cleanup_returns user_id s1) as Hc;
    destruct (cleanup user_id s1) as [[[]|e'|] s']; simpl in *; done.
Qed.

(** [_sending_loop] enters the [try] statement with a fresh frame. *)
Lemma sending_loop_enters (fuel : nat) (user_id : Z) (s : St) :
  _sending_loop fuel user_id s
  = _sending_loop_from fuel user_id (with_client None (with_retry_count 0 s)).
Proof. reflexivity. Qed.

(** After a cycle that asks for another one, the rest of the run is the
    loop entered in the state that cycle left: what is proved of
    [_sending_loop_from] in every state holds of every cycle of every run. *)
Lemma sending_loop_next_cycle (fuel : nat) (user_id : Z) (s s1 : St) :
  cycle user_id s = (Ret true, s1) →
  _sending_loop_from (S fuel) user_id s = _sending_loop_from fuel user_id s1.
Proof.
  intros H.
  assert (Hc : cycles (S fuel) user_id s = cycles fuel user_id s1).
  { simpl. unfold bind. by rewrite H. }
  unfold _sending_loop_from, guarded_cycles, try_finally, try_except, bind.
  by rewrite Hc.
Qed.

(** Whoever cancels the loop at its first [await] makes it run the [finally]
    block and nothing else: this is the reaction [cancel_and_await] relies
    on. *)
Lemma cancelled_loop_runs_cleanup (fuel : nat) (user_id : Z) (s : St) script :
  store_script s = Raises CancelledError :: script →
  _sending_loop_from (S fuel) user_id s
  = (Ret ByCancellation, (cleanup user_id (with_store_script script s)).2).
Proof.
  intros Hs. rewrite sending_loop_from_unfold;
    unfold guarded_cycles, try_except, bind; simpl;
    unfold cycle, bind, await_query; rewrite Hs; simpl; done.
Qed.

Lemma guarded_cycles_quiet (fuel : nat) (user_id : Z) (s : St) :
  let r := (guarded_cycles fuel user_id s).1 in
  r = Ret ByCancellation ∨ r = Raise CancelledError →
  quiet s (guarded_cycles fuel user_id s).2.
Proof.
  unfold guarded_cycles, try_except, bind. simpl.
  destruct (cycles_quiet fuel user_id s) as [Hq|Hr].
  - destruct (cycles fuel user_id s) as [[[]|e|] s1]; simpl in *.
    + by intros [|].
    + destruct e as [|n|]; simpl; [done|..];
        unfold await_update_user_active_status;
        (destruct (next_outcome (store_script s1)) as [[|e'] script]; simpl;
         [by intros [|] |]);
        intros _; (eapply quiet_trans; [done|]);
        (split; [done|]); exists []; by rewrite app_nil_r.
    + by intros [|].
  - destruct (cycles fuel user_id s) as [[[]|e|] s1]; simpl in *; try done.
    by intros [|].
Qed.

End Exit.

(* ===================================================================== *)
(** ** A store that answers *)
(* ===================================================================== *)

Lemma answers_nil (n : nat) : answers n [].
Proof. unfold answers. rewrite take_nil. constructor. Qed.

Lemma answers_next (n : nat) (script : list outcome) :
  answers (S n) script →
  ∃ script', next_outcome script = (Returns, script') ∧ answers n script'.
Proof.
  unfold answers. destruct script as [|o script]; simpl.
  - intros _. exists []. split; [done|]. rewrite take_nil. constructor.
  - intros H. apply Forall_cons in H as [-> H]. by exists script.
Qed.

Lemma await_query_answers {A} (q : Z → Database.tables → A) (n : nat) (s : St) :
  answers (S n) (store_script s) →
  ∃ script, await_query q s = (Ret (q (now s) (db s)), with_store_script script s)
            ∧ answers n script.
Proof.
  intros H. apply answers_next in H as (script & Hn & H).
  exists script. split; [|done]. unfold await_query. by rewrite Hn.
Qed.

Lemma await_update_answers (user_id v : Z) (n : nat) (s : St) :
  answers (S n) (store_script s) →
  ∃ script,
    await_update_user_active_status user_id v s
    = (Ret (), with_trace (trace s ++ [EvSetActive user_id v])
                 (with_db (Database.update_user_active_status (now s) user_id v (db s))
                    (with_store_script script s)))
    ∧ answers n script.
Proof.
  intros H. apply answers_next in H as (script & Hn & H).
  exists script. split; [|done].
  unfold await_update_user_active_status. by rewrite Hn.
Qed.

(** Symbolic execution of one store call under [answers]. *)
Ltac store_step H :=
  match goal with
  | |- context [await_query ?q ?s] =>
      let script := fresh "script" in
      let Hq := fresh "Hq" in
      destruct (await_query_answers q _ s H) as (script & Hq & ?);
      rewrite Hq; clear Hq; clear H; simpl
  | |- context [await_update_user_active_status ?u ?v ?s] =>
      let script := fresh "script" in
      let Hq := fresh "Hq" in
      destruct (await_update_answers u v _ s H) as (script & Hq & ?);
      rewrite Hq; clear Hq; clear H; simpl
  end.

Section Cycle.
Context {config : Config}.

(** The entitlement check fails: the flag is written and the loop breaks. *)
Lemma cycle_subscription_expired (user_id : Z) (s : St) (u : Database.user_row) :
  answers 3 (store_script s) →
  Database.users (db s) !! user_id = Some u →
  Database.is_active u ≠ 0 → Database.is_banned u ≠ 1 →
  Database.subscription_until u ≤ now s →
  ∃ script,
    cycle user_id s
    = (Ret false,
       with_trace (trace s ++ [EvSetActive user_id 0])
         (with_db (Database.update_user_active_status (now s) user_id 0 (db s))
            (with_store_script script s))).
Proof.
  intros Hs Hu Hact Hban Hsub. unfold cycle.
  unfold bind at 1. store_step Hs.
  unfold Database.get_user. rewrite Hu.
  rewrite !bool_decide_eq_false_2 by done. simpl.
  unfold bind at 1.
  match goal with H : answers 2 _ |- _ => store_step H end.
  unfold Database.check_subscription. simpl. rewrite Hu.
  rewrite bool_decide_eq_false_2 by (unfold now in *; simpl; lia). simpl.
  unfold bind at 1.
  match goal with H : answers 1 _ |- _ => store_step H end.
  by eexists.
Qed.

(** A readiness precondition is missing: the loop breaks and does nothing
    else. *)
Lemma cycle_configuration_fault (user_id : Z) (s : St) (u : Database.user_row) :
  answers 5 (store_script s) →
  Database.users (db s) !! user_id = Some u →
  Database.is_active u ≠ 0 → Database.is_banned u ≠ 1 →
  now s < Database.subscription_until u →
  Database.get_profile user_id (db s) = None
  ∨ Database.get_message user_id (db s) = None
  ∨ Database.get_user_groups user_id (db s) = [] →
  ∃ script, cycle user_id s = (Ret false, with_store_script script s).
Proof.
  intros Hs Hu Hact Hban Hsub Hmiss. unfold cycle.
  unfold bind at 1. store_step Hs.
  unfold Database.get_user. rewrite Hu.
  rewrite !bool_decide_eq_false_2 by done. simpl.
  unfold bind at 1.
  match goal with H : answers 4 _ |- _ => store_step H end.
  unfold Database.check_subscription. simpl. rewrite Hu.
  rewrite bool_decide_eq_true_2 by (unfold now in *; simpl; lia). simpl.
  unfold bind at 1.
  match goal with H : answers 3 _ |- _ => store_step H end.
  unfold bind at 1.
  match goal with H : answers 2 _ |- _ => store_step H end.
  unfold bind at 1.
  match goal with H : answers 1 _ |- _ => store_step H end.
  exists script3.
  destruct Hmiss as [-> | [-> | ->]]; simpl; [done|..].
  - by destruct (Database.get_profile user_id (db s)).
  - by destruct (Database.get_profile user_id (db s)),
               (Database.get_message user_id (db s)).
Qed.


End Cycle.

Lemma get_user_update_user_active_status (t user_id v : Z) (d : Database.tables) :
  Database.get_user user_id (Database.update_user_active_status t user_id v d)
  = Database.set_active_status v t <$> Database.get_user user_id d.
Proof.
  unfold Database.get_user, Database.update_user_active_status. simpl.
  by rewrite lookup_alter_eq.
Qed.

Lemma get_user_update_other (t user_id other v : Z) (d : Database.tables) :
  user_id ≠ other →
  Database.get_user other (Database.update_user_active_status t user_id v d)
  = Database.get_user other d.
Proof.
  intros Hne. unfold Database.get_user, Database.update_user_active_status. simpl.
  by rewrite lookup_alter_ne.
Qed.

(* ===================================================================== *)
(** ** Stopping *)
(* ===================================================================== *)

Ltac unfold_stop :=
  unfold stop_task, stop_client, cancel_and_await, cleanup, disconnect,
    del_client, del_task, emit.

Lemma preserves_db_stop_task (user_id : Z) : preserves db (stop_task user_id).
Proof. unfold_stop. repeat preserves_step. Qed.

Lemma preserves_db_stop_client (user_id : Z) : preserves db (stop_client user_id).
Proof. unfold_stop. repeat preserves_step. Qed.

Lemma preserves_clock_stop_task (user_id : Z) : preserves clock (stop_task user_id).
Proof. unfold_stop. repeat preserves_step. Qed.

Lemma preserves_clock_stop_client (user_id : Z) : preserves clock (stop_client user_id).
Proof. unfold_stop. repeat preserves_step. Qed.

Lemma preserves_store_script_stop_task (user_id : Z) :
  preserves store_script (stop_task user_id).
Proof. unfold_stop. repeat preserves_step. Qed.

Lemma preserves_store_script_stop_client (user_id : Z) :
  preserves store_script (stop_client user_id).
Proof. unfold_stop. repeat preserves_step. Qed.

Lemma preserves_active_tasks_stop_client (user_id : Z) :
  preserves active_tasks (stop_client user_id).
Proof. unfold_stop. repeat preserves_step. Qed.

Lemma preserves_task_objs_stop_client (user_id : Z) :
  preserves task_objs (stop_client user_id).
Proof. unfold_stop. repeat preserves_step. Qed.

Lemma preserves_task_objs_cleanup (user_id : Z) :
  preserves task_objs (cleanup user_id).
Proof. unfold cleanup, disconnect, del_client, del_task. repeat preserves_step. Qed.

(** Neither half of the teardown raises: every call that could is wrapped. *)
Lemma cancel_and_await_returns (t : nat) (s : St) :
  (cancel_and_await t s).1 = Ret ().
Proof.
  unfold cancel_and_await, bind, emit, modify, gets. simpl.
  destruct (task_objs s !! t) as [[[u|] [|c|]]|]; simpl; try done.
  match goal with |- context [cleanup u ?x] =>
    pose proof (cleanup_returns u x) as Hc;
    destruct (cleanup u x) as [[[]|e|] s2]; simpl in *; done
  end.
Qed.

Lemma stop_task_returns (user_id : Z) (s : St) : (stop_task user_id s).1 = Ret ().
Proof.
  unfold stop_task, bind, gets. simpl.
  destruct (active_tasks s !! user_id) as [t|]; simpl; [|done].
  destruct (done t s); simpl; [done|].
  pose proof (cancel_and_await_returns t s) as Hc.
  destruct (cancel_and_await t s) as [[[]|e|] s2]; simpl in *; done.
Qed.

Lemma stop_client_returns (user_id : Z) (s : St) : (stop_client user_id s).1 = Ret ().
Proof.
  unfold stop_client, bind, gets. simpl.
  destruct (clients s !! user_id) as [c|]; simpl; [|done].
  unfold try_except, disconnect, await_transport.
  by destruct (next_outcome (transport_script s)) as [[|e] script].
Qed.

Lemma stop_task_drops_entry (user_id : Z) (s : St) :
  active_tasks (stop_task user_id s).2 !! user_id = None.
Proof.
  unfold stop_task, bind, gets. simpl.
  destruct (active_tasks s !! user_id) as [t|] eqn:Ht; simpl; [|done].
  destruct (done t s); simpl; [by rewrite lookup_delete_eq|].
  pose proof (cancel_and_await_returns t s) as Hc.
  destruct (cancel_and_await t s) as [[[]|e|] s2]; simpl in *; try done.
  by rewrite lookup_delete_eq.
Qed.

Lemma stop_client_drops_entry (user_id : Z) (s : St) :
  clients (stop_client user_id s).2 !! user_id = None.
Proof.
  unfold stop_client, bind, gets. simpl.
  destruct (clients s !! user_id) as [c|] eqn:Hc; simpl; [|done].
  unfold try_except, disconnect, await_transport.
  destruct (next_outcome (transport_script s)) as [[|e] script]; simpl;
    by rewrite lookup_delete_eq.
Qed.

Lemma stop_task_without_entry (user_id : Z) (s : St) :
  active_tasks s !! user_id = None → stop_task user_id s = (Ret (), s).
Proof. intros H. unfold stop_task, bind, gets. simpl. by rewrite H. Qed.

Lemma stop_client_without_entry (user_id : Z) (s : St) :
  clients s !! user_id = None → stop_client user_id s = (Ret (), s).
Proof. intros H. unfold stop_client, bind, gets. simpl. by rewrite H. Qed.

Lemma stop_sending_answers (user_id : Z) (n : nat) (s : St) :
  answers (S n) (store_script s) →
  ∃ script,
    answers n script
    ∧ stop_sending user_id s
      = (Ret (), (stop_client user_id
                   (stop_task user_id (after_stop_write user_id script s)).2).2).
Proof.
  intros H. apply answers_next in H as (script & Hn & H).
  exists script. split; [done|].
  set (s1 := after_stop_write user_id script s).
  assert (Hs : stop_sending user_id s
               = (stop_task user_id ;; stop_client user_id) s1).
  { unfold stop_sending, bind at 1, emit, modify. simpl.
    unfold bind at 1, await_update_user_active_status. simpl. rewrite Hn.
    simpl. rewrite <- app_assoc. reflexivity. }
  rewrite Hs. unfold bind.
  pose proof (stop_task_returns user_id s1) as H1.
  destruct (stop_task user_id s1) as [[[]|e|] s2]; simpl in *; try done.
  pose proof (stop_client_returns user_id s2) as H2.
  destruct (stop_client user_id s2) as [[[]|e|] s3]; simpl in *; done.
Qed.


Lemma emits_stop_client (user_id : Z) : emits teardown_event (stop_client user_id).
Proof.
  unfold stop_client.
  repeat first [apply emits_disconnect | emits_step]; done.
Qed.

Lemma cancel_and_await_trace (t : nat) (s : St) :
  ∃ evs, trace (cancel_and_await t s).2 = trace s ++ EvCancel t :: evs
         ∧ Forall teardown_event evs.
Proof.
  unfold cancel_and_await. unfold bind at 1, emit, modify. simpl.
  match goal with |- context [(?m ?x).2] =>
    assert (Hem : emits teardown_event m);
    [| destruct (Hem x) as (evs & Htr & Hall) ]
  end.
  { repeat first [apply emits_cleanup | emits_step]; done. }
  exists evs. split; [|done]. rewrite Htr. simpl. by rewrite <- app_assoc.
Qed.

(** Stopping a user whose registered task is not finished cancels it. *)
Lemma stop_task_trace_live (user_id : Z) (s : St) (t : nat) :
  active_tasks s !! user_id = Some t → done t s = false →
  ∃ evs, trace (stop_task user_id s).2 = trace s ++ EvCancel t :: evs
         ∧ Forall teardown_event evs.
Proof.
  intros Ht Hd. unfold stop_task, bind at 1, gets. simpl. rewrite Ht.
  unfold bind at 1, bind at 1. simpl. rewrite Hd.
  destruct (cancel_and_await_trace t s) as (evs & Htr & Hall).
  pose proof (cancel_and_await_returns t s) as Hr.
  destruct (cancel_and_await t s) as [[[]|e|] s1]; simpl in *; try done.
  exists (evs ++ [EvDelTask user_id]). split.
  - rewrite Htr. by rewrite <- app_assoc.
  - apply Forall_app. split; [done|]. by repeat constructor.
Qed.

(* ===================================================================== *)
(** ** Rate limits and backoff *)
(* ===================================================================== *)



Lemma sleep_trace (d : Q) (s : St) : trace (sleep d s).2 = trace s ++ [EvSleep d].
Proof. unfold sleep. by destruct (next_wake (timer_script s)) as [[|] script]. Qed.


Section Flood.
Context {config : Config}.

(** The delay after a rate-limit rejection is the announced wait plus a draw
    between 5 and 15, both included. *)
Lemma flood_wait_spec (seconds : Z) (s : St) :
  ∃ r, 5 ≤ r ∧ r ≤ 15
       ∧ flood_wait seconds s
         = sleep (inject_Z (seconds + r)) (with_entropy (tail (entropy s)) s).
Proof.
  destruct (randint_spec 5 15 s) as (r & Hr & Hlo & Hhi); [lia|].
  exists r. split; [done|]. split; [done|].
  unfold flood_wait, bind. by rewrite Hr.
Qed.

(** A destination that answers with a rate-limit rejection. *)
Lemma send_to_group_flood (c : nat) (body : string) (group : Z) (s : St)
    (R : Z) (script : list outcome) :
  transport_script s = Raises (FloodWaitError R) :: script →
  ∃ r, 5 ≤ r ∧ r ≤ 15
       ∧ send_to_group c body group s
         = sleep (inject_Z (R + r))
             (with_entropy (tail (entropy s))
                (with_trace (trace s ++ [EvSendMessage c group body])
                   (with_transport_script script s))).
Proof.
  intros Hs.
  destruct (flood_wait_spec R
              (with_trace (trace s ++ [EvSendMessage c group body])
                 (with_transport_script script s)))
    as (r & Hlo & Hhi & Hrun).
  exists r. split; [done|]. split; [done|].
  unfold send_to_group, try_except, bind at 1, send_message, await_transport.
  rewrite Hs. simpl. by rewrite Hrun.
Qed.



(** Below the cap the delay is the exponential itself. *)
Lemma backoff_below_cap (k : Z) :
  BASE_RETRY_DELAY * 2 ^ k ≤ MAX_RETRY_DELAY →
  backoff k = BASE_RETRY_DELAY * 2 ^ k.
Proof. unfold backoff. lia. Qed.





End Flood.

Section ConnectFault.
Context {config : Config}.


End ConnectFault.

(* ===================================================================== *)
(** ** Consecutive connection faults *)
(* ===================================================================== *)

Section Ceiling.
Context {config : Config}.




End Ceiling.

(* ===================================================================== *)
(** ** Restore on boot *)
(* ===================================================================== *)

Ltac untouched_split :=
  unfold untouched;
  split; [|split; [|split; [|split; [|split; [|split; [|split; [|split]]]]]]].

Lemma untouched_refl (user_id : Z) (s : St) : untouched user_id s s.
Proof.
  untouched_split; try done. exists []. by rewrite app_nil_r.
Qed.

Lemma untouched_trans (user_id : Z) (s1 s2 s3 : St) :
  untouched user_id s1 s2 → untouched user_id s2 s3 → untouched user_id s1 s3.
Proof.
  intros (A1 & A2 & A3 & A4 & A5 & A6 & A7 & A8 & e1 & Ht1 & He1)
         (B1 & B2 & B3 & B4 & B5 & B6 & B7 & B8 & e2 & Ht2 & He2).
  untouched_split; try congruence; auto.
  exists (e1 ++ e2). split.
  - by rewrite Ht2, Ht1, app_assoc.
  - by apply Forall_app.
Qed.

Lemma await_query_nil {A} (q : Z → Database.tables → A) (s : St) :
  store_script s = [] →
  await_query q s = (Ret (q (now s) (db s)), with_store_script [] s).
Proof. intros H. unfold await_query. by rewrite H. Qed.

Lemma await_update_nil (user_id v : Z) (s : St) :
  store_script s = [] →
  await_update_user_active_status user_id v s
  = (Ret (), with_trace (trace s ++ [EvSetActive user_id v])
               (with_db (Database.update_user_active_status (now s) user_id v (db s))
                  (with_store_script [] s))).
Proof. intros H. unfold await_update_user_active_status. by rewrite H. Qed.

Lemma update_untouched (user_id other v : Z) (s : St) :
  other ≠ user_id →
  untouched user_id s
    (with_trace (trace s ++ [EvSetActive other v])
       (with_db (Database.update_user_active_status (now s) other v (db s))
          (with_store_script [] s))).
Proof.
  intros Hne. untouched_split; simpl; try done.
  - by apply get_user_update_other.
  - exists [EvSetActive other v]. split; [done|].
    repeat constructor; discriminate.
Qed.

Section Restore.
Context {config : Config}.

(** [start_sending] for another user. *)
Lemma start_sending_untouched (user_id other : Z) (s : St) :
  other ≠ user_id → store_script s = [] →
  ∃ s', start_sending other s = (Ret (), s') ∧ untouched user_id s s'.
Proof.
  intros Hne Hs. unfold start_sending, bind at 1, emit, modify. simpl.
  unfold bind at 1, gets. simpl.
  assert (Hev : ∀ l, Forall (no_spawn user_id) l →
                  Forall (no_spawn user_id) (EvStartSending other :: l)).
  { intros l Hl. constructor; [|done]. split; [congruence | discriminate]. }
  destruct (has_live_task other _); simpl.
  - eexists. split; [reflexivity|]. untouched_split; try done.
    exists [EvStartSending other]. split; [done|]. by apply Hev.
  - unfold start_sending_unguarded, bind at 1.
    rewrite await_update_nil by done. simpl.
    unfold spawn_sending_loop, bind, create_task, modify. simpl.
    eexists. split; [reflexivity|]. untouched_split; simpl; try done.
    + by apply get_user_update_other.
    + by rewrite lookup_insert_ne.
    + intros t o Ht. by apply lookup_app_l_Some.
    + eexists. rewrite <- !app_assoc. split; [reflexivity|]. simpl.
      apply Hev. repeat constructor; try discriminate. congruence.
Qed.

(** Restore-on-boot of another user. *)
Lemma restore_user_untouched (user_id other : Z) (s : St) :
  other ≠ user_id → store_script s = [] →
  ∃ s', restore_user other s = (Ret (), s') ∧ untouched user_id s s'.
Proof.
  intros Hne Hs. unfold restore_user. unfold bind at 1.
  rewrite await_query_nil by done.
  destruct (Database.check_subscription _ _ _); simpl.
  2:{ rewrite await_update_nil by done. eexists. split; [reflexivity|].
      exact (update_untouched user_id other 0 s Hne). }
  unfold bind at 1. rewrite await_query_nil by done.
  unfold bind at 1. rewrite await_query_nil by done.
  unfold bind at 1. rewrite await_query_nil by done.
  simpl.
  set (s0 := with_store_script [] _).
  assert (Hs0 : untouched user_id s s0).
  { untouched_split; try done. exists []. by rewrite app_nil_r. }
  assert (Hupd : ∃ s', await_update_user_active_status other 0 s0 = (Ret (), s')
                       ∧ untouched user_id s s').
  { rewrite await_update_nil by done. eexists. split; [reflexivity|].
    eapply untouched_trans; [exact Hs0|].
    exact (update_untouched user_id other 0 s0 Hne). }
  destruct (Database.get_profile other (db s)); [|done].
  destruct (Database.get_message other (db s)); [|done].
  destruct (Database.get_user_groups other (db s)); [done|].
  destruct (start_sending_untouched user_id other s0 Hne eq_refl) as (s' & Hr & Hu).
  exists s'. split; [done|]. by eapply untouched_trans.
Qed.

Lemma restore_users_untouched (user_id : Z) (l : list (Z * Database.user_row)) :
  ∀ s, user_id ∉ l.*1 → store_script s = [] →
    ∃ s', for_each l (λ user, restore_user user.1) s = (Ret (), s')
          ∧ untouched user_id s s'.
Proof.
  induction l as [|[v r] l IH]; intros s Hnotin Hs; simpl.
  - eexists. split; [reflexivity | apply untouched_refl].
  - apply not_elem_of_cons in Hnotin as [Hne Hnotin].
    destruct (restore_user_untouched user_id v s) as (s1 & Hr & Hu); [done..|].
    unfold bind. rewrite Hr.
    destruct (IH s1 Hnotin) as (s2 & Hr' & Hu').
    { destruct Hu as (_ & _ & _ & _ & _ & _ & H & _). by apply H. }
    exists s2. split; [done|]. by eapply untouched_trans.
Qed.

Lemma start_subscription_checker_untouched (user_id : Z) (s : St) :
  ∃ s', start_subscription_checker s = (Ret (), s') ∧ untouched user_id s s'.
Proof.
  unfold start_subscription_checker, bind at 1, gets. simpl.
  destruct (subscription_checker_task s).
  - eexists. split; [reflexivity | apply untouched_refl].
  - unfold bind, create_task, modify. simpl.
    eexists. split; [reflexivity|]. untouched_split; simpl; try done.
    + intros t o Ht. by apply lookup_app_l_Some.
    + eexists. split; [reflexivity|]. repeat constructor; discriminate.
Qed.

Lemma for_each_app {A} (l1 l2 : list A) (body : A → M ()) (s : St) :
  for_each (l1 ++ l2) body s = (for_each l1 body ;; for_each l2 body) s.
Proof.
  revert s. induction l1 as [|x l1 IH]; intros s; simpl; [done|].
  unfold bind in *. destruct (body x s) as [[[]|e|] s1]; [|done..].
  apply IH.
Qed.

(** The users [get_active_users] returns, each once. *)
Lemma elem_of_get_active_users (d : Database.tables) (user_id : Z)
    (u : Database.user_row) :
  (user_id, u) ∈ Database.get_active_users d ↔
  Database.users d !! user_id = Some u
  ∧ Database.is_active u = 1 ∧ Database.is_banned u = 0.
Proof.
  unfold Database.get_active_users. rewrite list_elem_of_filter. simpl.
  rewrite elem_of_map_to_list. tauto.
Qed.

Lemma NoDup_get_active_users (d : Database.tables) :
  NoDup (Database.get_active_users d).*1.
Proof.
  unfold Database.get_active_users.
  eapply sublist_NoDup; [apply (NoDup_fst_map_to_list (Database.users d))|].
  apply fmap_sublist, sublist_filter.
Qed.

(** Restore-on-boot of the user itself. *)
Lemma restore_user_self (user_id : Z) (s : St) (u : Database.user_row) :
  store_script s = [] →
  Database.users (db s) !! user_id = Some u →
  now s < Database.subscription_until u →
  ∃ s' evs,
    restore_user user_id s = (Ret (), s')
    ∧ trace s' = trace s ++ evs
    ∧ store_script s' = []
    ∧ (Database.get_profile user_id (db s) = None
       ∨ Database.get_message user_id (db s) = None
       ∨ Database.get_user_groups user_id (db s) = [] →
       Database.is_active <$> Database.get_user user_id (db s') = Some 0
       ∧ evs = [EvSetActive user_id 0]
       ∧ active_tasks s' = active_tasks s
       ∧ task_objs s' = task_objs s)
    ∧ (is_Some (Database.get_profile user_id (db s)) →
       is_Some (Database.get_message user_id (db s)) →
       Database.get_user_groups user_id (db s) ≠ [] →
       ∃ evs', evs = EvStartSending user_id :: evs'
         ∧ (active_tasks s !! user_id = None →
            Database.is_active <$> Database.get_user user_id (db s') = Some 1
            ∧ evs' = [EvSetActive user_id 1;
                      EvCreateTask (SendingLoop user_id) (length (task_objs s))]
            ∧ active_tasks s' !! user_id = Some (length (task_objs s))
            ∧ task_objs s' = task_objs s ++ [TaskObj (SendingLoop user_id) Pending])).
Proof.
  intros Hs Hu Hsub. unfold restore_user. unfold bind at 1.
  rewrite await_query_nil by done.
  unfold Database.check_subscription. rewrite Hu.
  rewrite bool_decide_eq_true_2 by done. simpl.
  unfold bind at 1. rewrite await_query_nil by done.
  unfold bind at 1. rewrite await_query_nil by done.
  unfold bind at 1. rewrite await_query_nil by done.
  simpl.
  assert (Hflag : ∀ v t, Database.is_active <$>
            Database.get_user user_id
              (Database.update_user_active_status t user_id v (db s)) = Some v).
  { intros v t. rewrite get_user_update_user_active_status.
    unfold Database.get_user. by rewrite Hu. }
  destruct (Database.get_profile user_id (db s)) as [p|] eqn:Hp.
  2:{ rewrite await_update_nil by done. eexists _, _. split; [reflexivity|].
      simpl. split; [reflexivity|]. split; [done|]. split.
      - intros _. by rewrite Hflag.
      - by intros [? [=]]. }
  destruct (Database.get_message user_id (db s)) as [m|] eqn:Hm.
  2:{ rewrite await_update_nil by done. eexists _, _. split; [reflexivity|].
      simpl. split; [reflexivity|]. split; [done|]. split.
      - intros _. by rewrite Hflag.
      - by intros _ [? [=]]. }
  destruct (Database.get_user_groups user_id (db s)) as [|g gs] eqn:Hg.
  { rewrite await_update_nil by done. eexists _, _. split; [reflexivity|].
    simpl. split; [reflexivity|]. split; [done|]. split.
    - intros _. by rewrite Hflag.
    - by intros _ _ []. }
  unfold start_sending, bind at 1, emit, modify. simpl.
  unfold bind at 1, gets. simpl.
  destruct (has_live_task user_id _) eqn:Hlive; simpl.
  - eexists _, _. split; [reflexivity|]. simpl. split; [reflexivity|].
    split; [done|]. split.
    + by intros [[=]|[[=]|[=]]].
    + intros _ _ _. eexists. split; [reflexivity|].
      intros Hnone. unfold has_live_task in Hlive. simpl in Hlive.
      by rewrite Hnone in Hlive.
  - unfold start_sending_unguarded, bind at 1.
    rewrite await_update_nil by done. simpl.
    unfold spawn_sending_loop, bind, create_task, modify. simpl.
    eexists _, _. split; [reflexivity|]. simpl. rewrite <- !app_assoc. simpl.
    split; [reflexivity|]. split; [done|]. split.
    + by intros [[=]|[[=]|[=]]].
    + intros _ _ _. eexists. split; [reflexivity|]. intros _.
      split; [by rewrite Hflag|]. split; [done|].
      split; [by rewrite lookup_insert_eq | done].
Qed.

End Restore.

(* ===================================================================== *)
(** ** Starting *)
(* ===================================================================== *)

Lemma start_sending_live_noop (user_id : Z) (s : St) :
  has_live_task user_id s = true →
  start_sending user_id s
  = (Ret (), with_trace (trace s ++ [EvStartSending user_id]) s).
Proof.
  intros H. unfold start_sending, bind, emit, modify, gets. simpl.
  unfold has_live_task, done in *. simpl. by rewrite H.
Qed.

Lemma start_sending_spawns (user_id : Z) (n : nat) (s : St) :
  has_live_task user_id s = false →
  answers (S n) (store_script s) →
  ∃ script,
    answers n script
    ∧ start_sending user_id s
      = (Ret (),
         with_active_tasks (<[user_id := length (task_objs s)]> (active_tasks s))
           (with_trace
              (trace s ++ [EvStartSending user_id; EvSetActive user_id 1;
                           EvCreateTask (SendingLoop user_id) (length (task_objs s))])
              (with_task_objs (task_objs s ++ [TaskObj (SendingLoop user_id) Pending])
                 (with_db (Database.update_user_active_status (now s) user_id 1 (db s))
                    (with_store_script script s))))).
Proof.
  intros H Hs. apply answers_next in Hs as (script & Hn & Hs).
  exists script. split; [done|].
  unfold start_sending, bind at 1, emit, modify. simpl.
  unfold bind at 1, gets. simpl.
  assert (H' : has_live_task user_id
                 (with_trace (trace s ++ [EvStartSending user_id]) s) = false)
    by exact H.
  rewrite H'.
  unfold start_sending_unguarded, bind at 1, await_update_user_active_status.
  simpl. rewrite Hn. simpl.
  unfold spawn_sending_loop, bind, create_task, modify. simpl.
  rewrite <- !app_assoc. reflexivity.
Qed.

(** Calls of [start_sending] that do not overlap keep the registry
    exclusive. *)
Lemma start_sending_keeps_one_task_per_user (user_id : Z) (s : St) :
  answers 1 (store_script s) →
  one_task_per_user s → one_task_per_user (start_sending user_id s).2.
Proof.
  intros Hs Hinv.
  destruct (has_live_task user_id s) eqn:Hlive.
  { rewrite start_sending_live_noop by done. exact Hinv. }
  destruct (start_sending_spawns user_id 0 s Hlive Hs) as (script & _ & ->).
  simpl.
  assert (Hnone : live_send_tasks user_id s = []).
  { destruct (live_send_tasks user_id s) as [|o l] eqn:E; [done|]. exfalso.
    assert (Ho : o ∈ live_send_tasks user_id s) by (rewrite E; by left).
    apply list_elem_of_filter in Ho as [Hl Ho].
    apply list_elem_of_lookup in Ho as [t Ht].
    destruct (Hinv user_id) as [_ Hreg].
    specialize (Hreg t o Ht Hl).
    unfold has_live_task, done in Hlive. rewrite Hreg, Ht in Hlive.
    destruct Hl as [_ Hl]. destruct o as [k []]; simpl in *; done. }
  intros v. unfold live_send_tasks. simpl. rewrite filter_app.
  destruct (decide (v = user_id)) as [->|Hne].
  - fold (live_send_tasks user_id s). rewrite Hnone. simpl. split.
    + rewrite filter_cons. destruct (decide _); simpl; lia.
    + intros t o Ht Hl. rewrite lookup_insert_eq. f_equal.
      apply lookup_app_Some in Ht as [Ht | [Hge Ht]].
      * exfalso. assert (Hin : o ∈ live_send_tasks user_id s).
        { apply list_elem_of_filter. split; [done|].
          apply list_elem_of_lookup. eauto. }
        rewrite Hnone in Hin. by apply not_elem_of_nil in Hin.
      * apply lookup_lt_Some in Ht as Hlt. simpl in Hlt. lia.
  - destruct (Hinv v) as [Hlen Hreg]. split.
    + rewrite filter_cons_False, filter_nil, app_nil_r by
        (intros [[=] _]; done). exact Hlen.
    + intros t o Ht Hl. rewrite lookup_insert_ne by done.
      apply lookup_app_Some in Ht as [Ht | [Hge Ht]]; [by eapply Hreg|].
      exfalso. destruct (t - length (task_objs s))%nat; simpl in Ht; [|done].
      injection Ht as <-. destruct Hl as [[=] _]. done.
Qed.

(* ===================================================================== *)
(** ** The claims *)
(* ===================================================================== *)

Section Claims.
Context {config : Config}.

(** C1 (what the code does).  When a readiness precondition is missing, the
    loop ends in that cycle, by [break], with no delivery, no sleep and no
    retry: all it does is the teardown.  It does not write the store: the
    user's row, and with it the active flag the cycle has just read as
    non-zero, is as before. *)
Theorem configuration_fault_stops_without_clearing_the_flag
    (fuel : nat) (user_id : Z) (s : St) (u : Database.user_row) :
  answers 5 (store_script s) →
  Database.users (db s) !! user_id = Some u →
  Database.is_active u ≠ 0 → Database.is_banned u ≠ 1 →
  now s < Database.subscription_until u →
  Database.get_profile user_id (db s) = None
  ∨ Database.get_message user_id (db s) = None
  ∨ Database.get_user_groups user_id (db s) = [] →
  ∃ s' post,
    _sending_loop_from (S fuel) user_id s = (Ret ByBreak, s')
    ∧ trace s' = trace s ++ post
    ∧ Forall teardown_event post
    ∧ db s' = db s
    ∧ Database.get_user user_id (db s') = Some u
    ∧ Database.is_active u ≠ 0.
Proof.
  intros Hs Hu Hact Hban Hsub Hmiss.
  destruct (cycle_configuration_fault user_id s u Hs Hu Hact Hban Hsub Hmiss)
    as (script & Hcycle).
  assert (Hg : guarded_cycles (S fuel) user_id s
               = (Ret ByBreak, with_store_script script s)).
  { unfold guarded_cycles, try_except, bind. simpl. unfold bind.
    by rewrite Hcycle. }
  rewrite sending_loop_from_unfold by (by rewrite Hg).
  rewrite Hg. simpl.
  set (s1 := with_store_script _ _).
  destruct (emits_cleanup teardown_event (λ e H, H) user_id s1)
    as (post & Hpost & Hall).
  exists (cleanup user_id s1).2, post.
  rewrite preserves_db_cleanup. subst s1. simpl in *. done.
Qed.

(** C2 (amended). After a rate-limit rejection announcing [R] seconds, on one
    destination or on the whole cycle, the loop sleeps [R] plus a whole
    number of seconds drawn between 5 and 15, both ends included: the delay
    is at least [R + 5], hence at least [R], and at most [R + 15], whatever
    the draw.  After the sleep a destination-level rejection lets the
    delivery go on with the next destination, and a cycle-level one lets the
    loop go on with its next cycle, the failure counter untouched. *)
Theorem rate_limit_delay_bounds (R : Z) :
  (∀ (c : nat) (body : string) (group : Z) (s : St) (script : list outcome),
     transport_script s = Raises (FloodWaitError R) :: script →
     ∃ n, R ≤ n ∧ R + 5 ≤ n ∧ n ≤ R + 15
          ∧ trace (send_to_group c body group s).2
            = trace s ++ [EvSendMessage c group body; EvSleep (inject_Z n)]
          ∧ ((next_wake (timer_script s)).1 = Elapsed →
             (send_to_group c body group s).1 = Ret ()))
  ∧ (∀ (user_id : Z) (s : St),
     ∃ n, R ≤ n ∧ R + 5 ≤ n ∧ n ≤ R + 15
          ∧ trace (on_cycle_error user_id (FloodWaitError R) s).2
            = trace s ++ [EvSleep (inject_Z n)]
          ∧ retry_count (on_cycle_error user_id (FloodWaitError R) s).2
            = retry_count s
          ∧ ((next_wake (timer_script s)).1 = Elapsed →
             (on_cycle_error user_id (FloodWaitError R) s).1 = Ret true)).
Proof.
  split.
  - intros c body group s script Hs.
    destruct (send_to_group_flood c body group s R script Hs)
      as (r & Hlo & Hhi & Hrun).
    rewrite Hrun.
    exists (R + r). split; [lia|]. split; [lia|]. split; [lia|].
    rewrite sleep_trace. simpl. split; [by rewrite <- app_assoc|].
    unfold sleep. simpl. destruct (next_wake (timer_script s)) as [[|] ?]; done.
  - intros user_id s. unfold on_cycle_error, bind.
    destruct (flood_wait_spec R s) as (r & Hlo & Hhi & Hrun). rewrite Hrun.
    exists (R + r). split; [lia|]. split; [lia|]. split; [lia|].
    unfold sleep. simpl. destruct (next_wake (timer_script s)) as [[|] ?]; done.
Qed.




(** C6 (what the code does when two calls overlap).  At boot, with no
    registry entry for user 7, two calls of [start_sending 7] of which the
    second begins while the first is suspended at its [await] of the store
    both pass the guard; each then creates a task, and the second overwrites
    the registry entry of the first.  Two pending send tasks of user 7 exist
    at once and the registry is no longer exclusive.  The same two calls
    made one after the other create one task only. *)
Theorem overlapping_starts_spawn_two_tasks :
  let s := boot_at 10 ready_store in
  let s' := (two_overlapping_starts 7 s).2 in
  has_live_task 7 s = false
  ∧ (two_overlapping_starts 7 s).1 = Ret ()
  ∧ live_send_tasks 7 s'
    = [TaskObj (SendingLoop 7) Pending; TaskObj (SendingLoop 7) Pending]
  ∧ active_tasks s' !! 7 = Some 1%nat
  ∧ ¬ one_task_per_user s'
  ∧ live_send_tasks 7 ((start_sending 7 ;; start_sending 7) s).2
    = [TaskObj (SendingLoop 7) Pending].
Proof.
  simpl. split; [reflexivity|]. split; [reflexivity|].
  split; [vm_compute; reflexivity|]. split; [reflexivity|]. split.
  - intros H. destruct (H 7) as [Hlen _]. vm_compute in Hlen. lia.
  - vm_compute. reflexivity.
Qed.

(** C7. If the subscription check of a cycle fails (the clock has reached
    [subscription_until]) and the store answers, the loop ends in that very
    cycle, by [break]: it writes the active flag to 0, and everything it does
    afterwards is the teardown of the [finally] block, in which the registry
    entry is removed; so the write comes before the removal, and at the end
    the flag is 0 and the entry is gone. *)
Theorem expired_subscription_stops_within_the_cycle
    (fuel : nat) (user_id : Z) (s : St) (u : Database.user_row) :
  answers 3 (store_script s) →
  Database.users (db s) !! user_id = Some u →
  Database.is_active u ≠ 0 → Database.is_banned u ≠ 1 →
  Database.subscription_until u ≤ now s →
  ∃ s' post,
    _sending_loop_from (S fuel) user_id s = (Ret ByBreak, s')
    ∧ trace s' = trace s ++ EvSetActive user_id 0 :: post
    ∧ Forall teardown_event post
    ∧ (is_Some (active_tasks s !! user_id) → EvDelTask user_id ∈ post)
    ∧ active_tasks s' !! user_id = None
    ∧ Database.is_active <$> Database.get_user user_id (db s') = Some 0.
Proof.
  intros Hs Hu Hact Hban Hsub.
  destruct (cycle_subscription_expired user_id s u Hs Hu Hact Hban Hsub)
    as (script & Hcycle).
  assert (Hg : guarded_cycles (S fuel) user_id s
               = (Ret ByBreak,
                  with_trace (trace s ++ [EvSetActive user_id 0])
                    (with_db (Database.update_user_active_status (now s) user_id 0 (db s))
                       (with_store_script script s)))).
  { unfold guarded_cycles, try_except, bind. simpl. unfold bind.
    by rewrite Hcycle. }
  rewrite sending_loop_from_unfold by (by rewrite Hg).
  rewrite Hg. simpl.
  set (s1 := with_trace _ _).
  assert (Hpost : ∃ post, trace (cleanup user_id s1).2 = trace s1 ++ post
                          ∧ Forall teardown_event post
                          ∧ (is_Some (active_tasks s !! user_id) →
                             EvDelTask user_id ∈ post)).
  { destruct (active_tasks s !! user_id) as [t|] eqn:Ht.
    - destruct (cleanup_del_task_event user_id s1) as (pre & Hpre & Hall).
      { subst s1. simpl. by rewrite Ht. }
      exists (pre ++ [EvDelTask user_id]). split; [done|]. split.
      + apply Forall_app. split; [done|]. by repeat constructor.
      + intros _. apply elem_of_app. right. by left.
    - destruct (emits_cleanup teardown_event (λ e H, H) user_id s1)
        as (post & Hpost & Hall).
      exists post. split; [done|]. split; [done|]. by intros [? [=]]. }
  destruct Hpost as (post & Htr & Hall & Hdel).
  exists (cleanup user_id s1).2, post. split; [done|]. split.
  { rewrite Htr. subst s1. simpl. by rewrite <- app_assoc. }
  split; [done|]. split; [done|]. split.
  { apply cleanup_drops_entries. }
  rewrite preserves_db_cleanup. subst s1. simpl.
  rewrite get_user_update_user_active_status. unfold Database.get_user.
  by rewrite Hu.
Qed.

(** C8 (amended). Take a user persisted as active and not banned, with a
    valid subscription, and a store that answers.  Restore-on-Boot returns.
    If the profile, the message or the destination set is missing, the
    user's flag is 0 afterwards, [start_sending] was not called for the user,
    no send task was created for the user, and the user's registry entry is
    as before.  If all three are present, [start_sending] was called for the
    user; with no registry entry at boot, the flag is 1 afterwards and a
    pending send task of the user has been created and registered. *)
Theorem restore_on_boot (user_id : Z) (s : St) (u : Database.user_row) :
  store_script s = [] →
  Database.users (db s) !! user_id = Some u →
  Database.is_active u = 1 → Database.is_banned u = 0 →
  now s < Database.subscription_until u →
  ∃ s' evs,
    restore_active_tasks s = (Ret (), s')
    ∧ trace s' = trace s ++ evs
    ∧ (Database.get_profile user_id (db s) = None
       ∨ Database.get_message user_id (db s) = None
       ∨ Database.get_user_groups user_id (db s) = [] →
       Database.is_active <$> Database.get_user user_id (db s') = Some 0
       ∧ Forall (no_spawn user_id) evs
       ∧ active_tasks s' !! user_id = active_tasks s !! user_id)
    ∧ (is_Some (Database.get_profile user_id (db s)) →
       is_Some (Database.get_message user_id (db s)) →
       Database.get_user_groups user_id (db s) ≠ [] →
       EvStartSending user_id ∈ evs
       ∧ (active_tasks s !! user_id = None →
          Database.is_active <$> Database.get_user user_id (db s') = Some 1
          ∧ ∃ t, EvCreateTask (SendingLoop user_id) t ∈ evs
                 ∧ active_tasks s' !! user_id = Some t
                 ∧ task_objs s' !! t = Some (TaskObj (SendingLoop user_id) Pending))).
Proof.
  intros Hs Hu Hact Hban Hsub.
  unfold restore_active_tasks, bind at 1. rewrite await_query_nil by done.
  set (s0 := with_store_script [] s).
  assert (Hin : (user_id, u) ∈ Database.get_active_users (db s)).
  { by apply elem_of_get_active_users. }
  pose proof (NoDup_get_active_users (db s)) as Hnd.
  apply list_elem_of_split in Hin as (l1 & l2 & Hl). rewrite Hl in Hnd |- *.
  rewrite fmap_app, fmap_cons in Hnd. simpl in Hnd.
  apply NoDup_app in Hnd as (_ & Hn1 & Hn2).
  apply NoDup_cons in Hn2 as [Hn2 _].
  assert (Hn1' : user_id ∉ l1.*1).
  { intros Hx. apply (Hn1 _ Hx). by left. }
  destruct (restore_users_untouched user_id l1 s0 Hn1' eq_refl)
    as (s1 & Hr1 & U1).
  destruct U1 as (A1 & A2 & A3 & A4 & A5 & A6 & A7 & A8 & e1 & Ht1 & He1).
  destruct (restore_user_self user_id s1 u) as (s2 & e2 & Hr2 & Ht2 & Hs2 & Hmiss & Hpres).
  { by apply A7. }
  { by rewrite <- Hu. }
  { unfold now. by rewrite A6. }
  destruct (restore_users_untouched user_id l2 s2 Hn2 Hs2) as (s3 & Hr3 & U3).
  destruct (start_subscription_checker_untouched user_id s3) as (s4 & Hr4 & U4).
  pose proof (untouched_trans _ _ _ _ U3 U4) as U.
  destruct U as (B1 & B2 & B3 & B4 & B5 & B6 & B7 & B8 & e3 & Ht3 & He3).
  assert (Hrun : (for_each (l1 ++ (user_id, u) :: l2)
                    (λ user, restore_user user.1) ;; start_subscription_checker) s0
                 = (Ret (), s4)).
  { unfold bind at 1. rewrite for_each_app. unfold bind at 1. rewrite Hr1.
    simpl. unfold bind at 1. rewrite Hr2. by rewrite Hr3. }
  unfold bind at 1 in Hrun. unfold bind at 1. rewrite Hrun. clear Hrun.
  assert (Hp : Database.get_profile user_id (db s1) = Database.get_profile user_id (db s)).
  { unfold Database.get_profile. by rewrite A2. }
  assert (Hm : Database.get_message user_id (db s1) = Database.get_message user_id (db s)).
  { unfold Database.get_message. by rewrite A3. }
  assert (Hg : Database.get_user_groups user_id (db s1)
               = Database.get_user_groups user_id (db s)).
  { unfold Database.get_user_groups. by rewrite A4. }
  rewrite Hp, Hm, Hg in Hmiss, Hpres.
  exists s4, (e1 ++ e2 ++ e3). split; [done|]. split.
  { rewrite Ht3, Ht2, Ht1. subst s0. simpl. by rewrite <- !app_assoc. }
  split.
  - intros Hmissing.
    destruct (Hmiss Hmissing) as (Hflag & -> & Hat & Hto).
    split; [by rewrite B1|]. split.
    + rewrite !Forall_app. split; [done|]. split; [|done].
      repeat constructor; discriminate.
    + rewrite B5, Hat, A5. done.
  - intros H1 H2 H3. destruct (Hpres H1 H2 H3) as (e2' & -> & Hnew).
    split.
    + rewrite !elem_of_app. right. left. by left.
    + intros Hnone.
      assert (Hnone1 : active_tasks s1 !! user_id = None).
      { rewrite A5. exact Hnone. }
      destruct (Hnew Hnone1) as (Hflag & -> & Hat & Hto).
      split; [by rewrite B1|].
      exists (length (task_objs s1)). split.
      * rewrite !elem_of_app. right. left. right. right. by left.
      * split; [by rewrite B5|]. apply B8. rewrite Hto.
        by rewrite lookup_app_r, Nat.sub_diag.
Qed.

(** C9. A send loop that ends because it was cancelled (at an [await] of the
    loop, or at the [await] of the handler at its boundary) has not written
    the store at all: the tables are what they were when the loop was
    entered, and no write of the flag is in its trace.  Accordingly, after
    [stop_sending] has cancelled a suspended loop, the store holds exactly
    what the write of [stop_sending] itself put there: in the user's row
    [is_active] is 0, [updated_at] is the time of that write, and every
    other field is as before. *)
Theorem cancellation_exit_writes_nothing :
  (∀ (fuel : nat) (user_id : Z) (s : St),
     let r := (_sending_loop_from fuel user_id s).1 in
     let s' := (_sending_loop_from fuel user_id s).2 in
     r = Ret ByCancellation ∨ r = Raise CancelledError →
     db s' = db s
     ∧ ∃ evs, trace s' = trace s ++ evs ∧ Forall not_a_write evs)
  ∧ (∀ (user_id : Z) (s : St) (t : nat) (c : option nat),
     answers 1 (store_script s) →
     active_tasks s !! user_id = Some t →
     task_objs s !! t = Some (TaskObj (SendingLoop user_id) (Suspended c)) →
     let s' := (stop_sending user_id s).2 in
     (∃ evs, trace s' = trace s ++ EvStopSending user_id :: EvSetActive user_id 0
                               :: EvCancel t :: evs
             ∧ Forall teardown_event evs)
     ∧ db s' = Database.update_user_active_status (now s) user_id 0 (db s)
     ∧ Database.get_user user_id (db s')
       = Database.set_active_status 0 (now s) <$> Database.get_user user_id (db s)).
Proof.
  split.
  - intros fuel user_id s r s' Hr. subst r s'.
    assert (Hg : (guarded_cycles fuel user_id s).1 ≠ OutOfFuel).
    { rewrite sending_loop_from_out_of_fuel. by destruct Hr as [-> | ->]. }
    rewrite sending_loop_from_unfold in Hr |- * by done. simpl in *.
    apply guarded_cycles_quiet in Hr.
    pose proof (always_quiet_cleanup user_id (guarded_cycles fuel user_id s).2) as Hc.
    exact (quiet_trans _ _ _ Hr Hc).
  - intros user_id s t c Hs Ht Hobj s'. subst s'.
    destruct (stop_sending_answers user_id 0 s Hs) as (script & _ & Hstop).
    rewrite Hstop. simpl.
    set (s1 := after_stop_write user_id script s).
    assert (Hdb : db (stop_client user_id (stop_task user_id s1).2).2
                  = Database.update_user_active_status (now s) user_id 0 (db s)).
    { by rewrite preserves_db_stop_client, preserves_db_stop_task. }
    split; [|split; [done|]].
    + destruct (stop_task_trace_live user_id s1 t) as (evs1 & Htr1 & Hall1).
      { done. }
      { unfold done. subst s1. simpl. by rewrite Hobj. }
      destruct (emits_stop_client user_id (stop_task user_id s1).2)
        as (evs2 & Htr2 & Hall2).
      exists (evs1 ++ evs2). split.
      * rewrite Htr2, Htr1. subst s1. simpl. by rewrite <- !app_assoc.
      * by apply Forall_app.
    + rewrite Hdb. apply get_user_update_user_active_status.
Qed.

(** C10. The query of the reaper returns exactly the users with
    [0 < subscription_until < now] and [is_active = 1].  So a user whose
    [subscription_until] is 0 is never returned, whatever the time, and a
    turn of the reaper never calls [stop_sending] for such a user. *)
Theorem expired_subscriptions_exact :
  (∀ (t : Z) (d : Database.tables) (user_id : Z),
     user_id ∈ Database.get_expired_subscriptions t d ↔
     ∃ r, Database.users d !! user_id = Some r
          ∧ 0 < Database.subscription_until r
          ∧ Database.subscription_until r < t
          ∧ Database.is_active r = 1)
  ∧ (∀ (s : St) (user_id : Z) (u : Database.user_row),
     Database.users (db s) !! user_id = Some u →
     Database.subscription_until u = 0 →
     (∀ t, user_id ∉ Database.get_expired_subscriptions t (db s))
     ∧ ∃ evs, trace (subscription_checker_tick s).2 = trace s ++ evs
              ∧ EvStopSending user_id ∉ evs).
Proof.
  split; [apply elem_of_get_expired_subscriptions|].
  intros s user_id u Hu Hsub.
  assert (Hnever : ∀ t, user_id ∉ Database.get_expired_subscriptions t (db s)).
  { intros t Hin. apply elem_of_get_expired_subscriptions in Hin as (r & Hr & Hpos & _).
    rewrite Hu in Hr. injection Hr as <-. lia. }
  split; [done|].
  destruct (subscription_checker_tick_stops_expired_only s) as (evs & Htr & Hstop).
  exists evs. split; [done|]. intros Hin.
  destruct (Hstop user_id Hin) as (t & Ht). by apply (Hnever t).
Qed.

End Claims.

(* ===================================================================== *)
(** ** The claims on the sample worlds *)
(* ===================================================================== *)

Lemma expired_subscription_witness :
  ∃ s' post,
    _sending_loop_from (config := sample_config) 1 7 (running_at 1000 ready_store)
    = (Ret ByBreak, s')
    ∧ trace s' = EvSetActive 7 0 :: post
    ∧ Forall teardown_event post
    ∧ (is_Some (active_tasks (running_at 1000 ready_store) !! 7) → EvDelTask 7 ∈ post)
    ∧ active_tasks s' !! 7 = None
    ∧ Database.is_active <$> Database.get_user 7 (db s') = Some 0.
Proof.
  apply (expired_subscription_stops_within_the_cycle
           (config := sample_config) 0 7 (running_at 1000 ready_store) ann).
  - apply answers_nil.
  - reflexivity.
  - discriminate.
  - discriminate.
  - vm_compute. discriminate.
Defined.

Lemma configuration_fault_witness :
  ∃ s' post,
    _sending_loop_from (config := sample_config) 1 7 (running_at 10 no_groups_store)
    = (Ret ByBreak, s')
    ∧ trace s' = post
    ∧ Forall teardown_event post
    ∧ db s' = no_groups_store
    ∧ Database.get_user 7 (db s') = Some ann
    ∧ Database.is_active ann ≠ 0.
Proof.
  apply (configuration_fault_stops_without_clearing_the_flag
           (config := sample_config) 0 7 (running_at 10 no_groups_store) ann).
  - apply answers_nil.
  - reflexivity.
  - discriminate.
  - discriminate.
  - vm_compute. reflexivity.
  - right. right. reflexivity.
Defined.

Lemma rate_limit_delay_counterexample :
  ¬ rate_limit_delay_strictly_below_R_plus_15.
Proof.
  intros H. destruct (H 30 high_draw 45) as [_ Hlt].
  - vm_compute. reflexivity.
  - lia.
Qed.

Lemma rate_limit_delay_witness :
  ∃ n, 30 ≤ n ∧ 30 + 5 ≤ n ∧ n ≤ 30 + 15
       ∧ trace (send_to_group 0 "hello" 100
                  (with_transport_script [Raises (FloodWaitError 30)] high_draw)).2
         = [EvSendMessage 0 100 "hello"; EvSleep (inject_Z n)]
       ∧ ((next_wake []).1 = Elapsed →
          (send_to_group 0 "hello" 100
             (with_transport_script [Raises (FloodWaitError 30)] high_draw)).1
          = Ret ()).
Proof.
  exact (proj1 (rate_limit_delay_bounds (config := sample_config) 30) 0%nat "hello" 100
           (with_transport_script [Raises (FloodWaitError 30)] high_draw) []
           eq_refl).
Defined.



Lemma restore_banned_user_counterexample :
  ¬ restore_clears_every_unready_active_user.
Proof.
  intros H.
  specialize (H 7 (boot_at 10 banned_active_store)
                (Database.UserRow "Ann" 1 1 1 1000 5 5)
                eq_refl eq_refl eq_refl eq_refl (or_intror (or_intror eq_refl))).
  vm_compute in H. discriminate H.
Qed.

Lemma restore_on_boot_witness :
  (∃ s' evs,
     restore_active_tasks (boot_at 10 no_groups_store) = (Ret (), s')
     ∧ trace s' = evs
     ∧ Database.is_active <$> Database.get_user 7 (db s') = Some 0
     ∧ Forall (no_spawn 7) evs
     ∧ active_tasks s' !! 7 = None)
  ∧ (∃ s' evs,
       restore_active_tasks (boot_at 10 ready_store) = (Ret (), s')
       ∧ trace s' = evs
       ∧ EvStartSending 7 ∈ evs
       ∧ Database.is_active <$> Database.get_user 7 (db s') = Some 1
       ∧ ∃ t, active_tasks s' !! 7 = Some t
              ∧ task_objs s' !! t = Some (TaskObj (SendingLoop 7) Pending)).
Proof.
  split.
  - destruct (restore_on_boot 7 (boot_at 10 no_groups_store) ann
                eq_refl eq_refl eq_refl eq_refl eq_refl)
      as (s' & evs & Hrun & Htr & Hmiss & _).
    exists s', evs. split; [exact Hrun|]. split; [exact Htr|].
    exact (Hmiss (or_intror (or_intror eq_refl))).
  - destruct (restore_on_boot 7 (boot_at 10 ready_store) ann
                eq_refl eq_refl eq_refl eq_refl eq_refl)
      as (s' & evs & Hrun & Htr & _ & Hpres).
    destruct Hpres as [Hstart Hnew].
    + eexists. reflexivity.
    + eexists. reflexivity.
    + discriminate.
    + destruct (Hnew eq_refl) as (Hflag & t & _ & Hat & Hobj).
      exists s', evs. split; [exact Hrun|]. split; [exact Htr|].
      split; [exact Hstart|]. split; [exact Hflag|]. exists t. split; assumption.
Defined.


Lemma cancellation_witness :
  (db (_sending_loop_from (config := sample_config) 2 7 cancelled_while_asleep).2
   = ready_store)
  ∧ Database.get_user 7 (db (stop_sending 7 (running_at 10 ready_store)).2)
    = Some (Database.set_active_status 0 10 ann).
Proof.
  pose proof (cancellation_exit_writes_nothing (config := sample_config)) as [HA HB].
  split.
  - apply (HA 2%nat 7 cancelled_while_asleep). left. vm_compute. reflexivity.
  - destruct (HB 7 (running_at 10 ready_store) 0%nat None (answers_nil 1)
                eq_refl eq_refl) as (_ & _ & H).
    exact H.
Defined.



Lemma expired_subscriptions_witness :
  (∀ t, 7 ∉ Database.get_expired_subscriptions t lapsed_store)
  ∧ ∃ evs, trace (subscription_checker_tick (boot_at 1000 lapsed_store)).2 = evs
           ∧ EvStopSending 7 ∉ evs.
Proof.
  exact (proj2 expired_subscriptions_exact (boot_at 1000 lapsed_store) 7
           (Database.UserRow "Ann" 1 1 0 0 5 5) eq_refl eq_refl).
Defined.

(* ===================================================================== *)
(** ** Further properties of the code *)
(* ===================================================================== *)

(** ** The destinations table *)

Lemma get_user_groups_of (user_id : Z) (d : Database.tables) :
  Database.get_user_groups user_id d = groups_of user_id (Database.user_groups d).
Proof. reflexivity. Qed.

Lemma groups_of_app (user_id : Z) (l1 l2 : list Database.group_row) :
  groups_of user_id (l1 ++ l2) = groups_of user_id l1 ++ groups_of user_id l2.
Proof. unfold groups_of. by rewrite filter_app, fmap_app. Qed.

Lemma elem_of_groups_of (user_id g : Z) (l : list Database.group_row) :
  g ∈ groups_of user_id l ↔
  Exists (λ r, Database.group_user_id r = user_id ∧ Database.group_id r = g) l.
Proof.
  unfold groups_of. rewrite list_elem_of_fmap, Exists_exists. split.
  - intros (r & -> & Hr). apply list_elem_of_filter in Hr as [Hu Hin]. by exists r.
  - intros (r & Hin & Hu & Hg). exists r. split; [done|].
    apply list_elem_of_filter. by split.
Qed.


Lemma groups_of_filter_own (user_id : Z) (l : list Database.group_row) :
  groups_of user_id (filter (λ g, Database.group_user_id g ≠ user_id) l) = [].
Proof.
  unfold groups_of. induction l as [|g l IH]; [done|].
  rewrite filter_cons. destruct (decide (Database.group_user_id g ≠ user_id)) as [Hg|Hg].
  - rewrite filter_cons. by destruct (decide (Database.group_user_id g = user_id)).
  - done.
Qed.

Lemma groups_of_inserted (now user_id other : Z) (groups : list (Z * string)) :
  groups_of other ((λ gt, Database.GroupRow user_id gt.1 gt.2 now) <$> groups)
  = if decide (user_id = other) then groups.*1 else [].
Proof.
  unfold groups_of. destruct (decide (user_id = other)) as [Ho|Ho].
  - induction groups as [|[g t] groups IH]; [done|].
    rewrite !fmap_cons, filter_cons. cbn [Database.group_user_id].
    rewrite decide_True by done. rewrite fmap_cons. by rewrite IH.
  - induction groups as [|[g t] groups IH]; [done|].
    rewrite !fmap_cons, filter_cons. cbn [Database.group_user_id].
    by rewrite decide_False.
Qed.

Lemma add_user_group_result (now user_id group : Z) (title : string)
    (d : Database.tables) :
  Database.add_user_group now user_id group title d
  = if bool_decide (length (Database.get_user_groups user_id d) < 3)%nat
       && bool_decide (group ∉ Database.get_user_groups user_id d)
    then (true, Database.with_user_groups
                  (Database.user_groups d
                   ++ [Database.GroupRow user_id group title now]) d)
    else (false, d).
Proof.
  unfold Database.add_user_group, Database.get_user_groups.
  rewrite length_fmap.
  destruct (decide (3 ≤ length (filter (λ g, Database.group_user_id g = user_id)
                                       (Database.user_groups d)))%nat) as [Hc|Hc].
  - rewrite (bool_decide_eq_true_2 _ Hc).
    rewrite bool_decide_eq_false_2 by lia. done.
  - rewrite (bool_decide_eq_false_2 _ Hc).
    rewrite (bool_decide_eq_true_2 (_ < 3)%nat) by lia. simpl.
    destruct (decide (Exists (λ g, Database.group_user_id g = user_id
                                   ∧ Database.group_id g = group)
                             (Database.user_groups d))) as [He|He].
    + rewrite (bool_decide_eq_true_2 _ He).
      rewrite bool_decide_eq_false_2; [done|].
      intros Hn. apply Hn. by apply elem_of_groups_of.
    + rewrite (bool_decide_eq_false_2 _ He).
      rewrite bool_decide_eq_true_2; [done|].
      intros Hin. apply He. by apply elem_of_groups_of in Hin.
Qed.

Lemma groups_of_filter_length (user_id : Z) (P : Database.group_row → Prop)
    `{∀ g, Decision (P g)} (l : list Database.group_row) :
  (length (groups_of user_id (filter P l)) ≤ length (groups_of user_id l))%nat.
Proof.
  unfold groups_of. rewrite !length_fmap.
  induction l as [|g l IH]; [done|].
  rewrite !filter_cons. destruct (decide (P g)).
  - rewrite filter_cons.
    destruct (decide (Database.group_user_id g = user_id)); simpl; lia.
  - destruct (decide (Database.group_user_id g = user_id)); simpl; lia.
Qed.

Lemma groups_unique_filter (P : Database.group_row → Prop) `{∀ g, Decision (P g)}
    (d : Database.tables) :
  groups_unique d →
  groups_unique (Database.with_user_groups (filter P (Database.user_groups d)) d).
Proof.
  unfold groups_unique. simpl. intros Hnd.
  eapply sublist_NoDup; [exact Hnd|apply fmap_sublist, sublist_filter].
Qed.

(** X1: nobody gets past three destinations through the store's own
    operations: [add_user_group], [remove_user_group] and [clear_user_groups]
    keep the cap, and [save_user_groups] keeps it when it is given at most
    three groups (it checks nothing itself). *)
Theorem destinations_stay_capped (now user_id group removed : Z) (title : string)
    (groups : list (Z * string)) (d : Database.tables) :
  groups_capped d →
  groups_capped (Database.add_user_group now user_id group title d).2
  ∧ groups_capped (Database.remove_user_group user_id removed d)
  ∧ groups_capped (Database.clear_user_groups user_id d)
  ∧ ∀ d', (length groups ≤ 3)%nat →
          Database.save_user_groups now user_id groups d = Some d' →
          groups_capped d'.
Proof.
  intros Hcap. split; [|split; [|split]].
  - rewrite add_user_group_result.
    destruct (bool_decide (length (Database.get_user_groups user_id d) < 3)%nat)
      eqn:Hlt; simpl; [|done].
    destruct (bool_decide (group ∉ Database.get_user_groups user_id d)); simpl; [|done].
    apply bool_decide_eq_true in Hlt.
    intros u. rewrite get_user_groups_of. simpl. rewrite groups_of_app, length_app.
    unfold groups_of at 2. rewrite filter_cons, filter_nil. simpl.
    destruct (decide (user_id = u)) as [->|Hu]; simpl.
    + rewrite <- get_user_groups_of. lia.
    + rewrite <- get_user_groups_of. specialize (Hcap u). lia.
  - intros u. rewrite get_user_groups_of. simpl.
    etrans; [apply groups_of_filter_length|apply Hcap].
  - intros u. rewrite get_user_groups_of. simpl.
    etrans; [apply groups_of_filter_length|apply Hcap].
  - intros d' Hlen. unfold Database.save_user_groups.
    destruct (bool_decide (NoDup groups.*1)); [|done].
    intros [= <-] u. rewrite get_user_groups_of. simpl.
    rewrite groups_of_app, length_app, groups_of_inserted.
    destruct (decide (user_id = u)) as [->|Hu].
    + rewrite groups_of_filter_own, length_fmap. simpl. lia.
    + simpl. rewrite Nat.add_0_r.
      etrans; [apply groups_of_filter_length|apply Hcap].
Qed.


Lemma groups_of_NoDup (user_id : Z) (l : list Database.group_row) :
  NoDup (group_key <$> l) → NoDup (groups_of user_id l).
Proof.
  induction l as [|g l IH]; [intros _; apply NoDup_nil_2|].
  rewrite fmap_cons, NoDup_cons. intros [Hg Hl].
  unfold groups_of. rewrite filter_cons.
  destruct (decide (Database.group_user_id g = user_id)) as [Hu|Hu]; [|by apply IH].
  rewrite fmap_cons. apply NoDup_cons. split; [|by apply IH].
  intros Hin. apply Hg.
  apply (elem_of_groups_of user_id (Database.group_id g) l) in Hin.
  apply Exists_exists in Hin as (r & Hr & Hru & Hrg).
  apply list_elem_of_fmap. exists r. split; [|done].
  unfold group_key. by rewrite Hru, Hrg, Hu.
Qed.

(** X3: no destination is listed twice.  Every writer of the
    destinations table keeps [UNIQUE (user_id, group_id)], and under it the
    list [get_user_groups] hands to the send loop has no repetition. *)
Theorem destinations_stay_unique (now user_id group removed : Z) (title : string)
    (groups : list (Z * string)) (d : Database.tables) :
  groups_unique d →
  NoDup (Database.get_user_groups user_id d)
  ∧ groups_unique (Database.add_user_group now user_id group title d).2
  ∧ groups_unique (Database.remove_user_group user_id removed d)
  ∧ groups_unique (Database.clear_user_groups user_id d)
  ∧ ∀ d', Database.save_user_groups now user_id groups d = Some d' →
          groups_unique d'.
Proof.
  intros Hu. split; [|split; [|split; [|split]]].
  - rewrite get_user_groups_of. by apply groups_of_NoDup.
  - rewrite add_user_group_result.
    destruct (bool_decide (length (Database.get_user_groups user_id d) < 3)%nat);
      simpl; [|done].
    destruct (bool_decide (group ∉ Database.get_user_groups user_id d)) eqn:Hin;
      simpl; [|done].
    apply bool_decide_eq_true in Hin.
    unfold groups_unique. simpl. rewrite fmap_app. apply NoDup_app.
    split; [done|]. split; [|apply NoDup_singleton].
    intros k Hk Hk'. apply list_elem_of_singleton in Hk'. subst k.
    apply Hin. rewrite get_user_groups_of. apply elem_of_groups_of.
    apply list_elem_of_fmap in Hk as (r & Hr & Hrin).
    apply Exists_exists. exists r. split; [done|].
    unfold group_key in Hr. simpl in Hr. by inversion Hr.
  - by apply groups_unique_filter.
  - by apply groups_unique_filter.
  - intros d'. unfold Database.save_user_groups.
    destruct (bool_decide (NoDup groups.*1)) eqn:Hnd; [|done].
    apply bool_decide_eq_true in Hnd. intros [= <-].
    unfold groups_unique. simpl. rewrite fmap_app. apply NoDup_app.
    split; [|split].
    + eapply sublist_NoDup; [exact Hu|apply fmap_sublist, sublist_filter].
    + intros k Hk Hk'.
      apply list_elem_of_fmap in Hk as (r & -> & Hr).
      apply list_elem_of_filter in Hr as [Hne _].
      apply list_elem_of_fmap in Hk' as (r' & Hk' & Hr').
      apply list_elem_of_fmap in Hr' as (gt & -> & _).
      unfold group_key in Hk'. simpl in Hk'. inversion Hk'. by apply Hne.
    + rewrite <- list_fmap_compose.
      assert (Heq : (group_key ∘ (λ gt : Z * string,
                       Database.GroupRow user_id gt.1 gt.2 now)) <$> groups
                    = (λ g, (user_id, g)) <$> groups.*1).
      { rewrite <- list_fmap_compose. by apply list_fmap_ext. }
      rewrite Heq. apply NoDup_fmap_2; [|done]. by intros ?? [= ->].
Qed.



(** ** The users table *)

Lemma elem_of_active_ids (user_id : Z) (d : Database.tables) :
  user_id ∈ (Database.get_active_users d).*1 ↔
  ∃ r, Database.users d !! user_id = Some r
       ∧ Database.is_active r = 1 ∧ Database.is_banned r = 0.
Proof.
  rewrite list_elem_of_fmap. split.
  - intros ([u r] & -> & Hin). exists r. by apply elem_of_get_active_users.
  - intros (r & Hr). exists (user_id, r). split; [done|].
    by apply elem_of_get_active_users.
Qed.

Lemma alter_users_other (f : Database.user_row → Database.user_row)
    (user_id other : Z) (d : Database.tables) :
  other ≠ user_id →
  Database.get_user other (Database.with_users (alter f user_id (Database.users d)) d)
  = Database.get_user other d.
Proof. intros Ho. unfold Database.get_user. simpl. by rewrite lookup_alter_ne. Qed.

Lemma alter_users_self (f : Database.user_row → Database.user_row)
    (user_id : Z) (d : Database.tables) :
  Database.users (Database.with_users (alter f user_id (Database.users d)) d) !! user_id
  = f <$> Database.users d !! user_id.
Proof. simpl. by rewrite lookup_alter_eq. Qed.






(** X8: after [remove_subscription] the user is not subscribed at any
    instant from the epoch on, is not among the users restored on boot, and
    is not among the expired subscriptions the reaper collects; other users
    are untouched. *)
Theorem remove_subscription_deactivates (now user_id t : Z) (d : Database.tables) :
  0 ≤ t →
  let d' := Database.remove_subscription now user_id d in
  Database.check_subscription t user_id d' = false
  ∧ (user_id ∉ (Database.get_active_users d').*1)
  ∧ (user_id ∉ Database.get_expired_subscriptions t d')
  ∧ ∀ other, other ≠ user_id →
      Database.get_user other d' = Database.get_user other d.
Proof.
  intros Ht. cbv zeta. unfold Database.remove_subscription.
  split; [|split; [|split]].
  - unfold Database.check_subscription. rewrite alter_users_self.
    destruct (Database.users d !! user_id); simpl; [|done].
    apply bool_decide_eq_false. lia.
  - rewrite elem_of_active_ids. intros (r & Hr & Ha & _).
    rewrite alter_users_self in Hr.
    destruct (Database.users d !! user_id); simplify_eq/=.
  - rewrite elem_of_get_expired_subscriptions. intros (r & Hr & _ & _ & Ha).
    rewrite alter_users_self in Hr.
    destruct (Database.users d !! user_id); simplify_eq/=.
  - intros other Ho. by apply alter_users_other.
Qed.

(** X9: after [ban_user] the user is not among the users restored on
    boot and not among the expired subscriptions the reaper collects; the
    subscription itself is kept, and other users are untouched. *)
Theorem ban_user_deactivates (now user_id : Z) (d : Database.tables) :
  let d' := Database.ban_user now user_id d in
  (user_id ∉ (Database.get_active_users d').*1)
  ∧ (∀ t, user_id ∉ Database.get_expired_subscriptions t d')
  ∧ (∀ t, Database.check_subscription t user_id d'
          = Database.check_subscription t user_id d)
  ∧ ∀ other, other ≠ user_id →
      Database.get_user other d' = Database.get_user other d.
Proof.
  cbv zeta. unfold Database.ban_user. split; [|split; [|split]].
  - rewrite elem_of_active_ids. intros (r & Hr & Ha & _).
    rewrite alter_users_self in Hr.
    destruct (Database.users d !! user_id); simplify_eq/=.
  - intros t. rewrite elem_of_get_expired_subscriptions.
    intros (r & Hr & _ & _ & Ha).
    rewrite alter_users_self in Hr.
    destruct (Database.users d !! user_id); simplify_eq/=.
  - intros t. unfold Database.check_subscription. rewrite alter_users_self.
    by destruct (Database.users d !! user_id).
  - intros other Ho. by apply alter_users_other.
Qed.

(** X10: [upsert_user] (run on every [/start]) never changes what the
    sender goes by: the user is restored on boot, is collected by the
    reaper, and is subscribed exactly as before (a new user is none of
    these); the name is the given one; other users are untouched. *)
Theorem upsert_user_keeps_status (now user_id t : Z) (name : string)
    (d : Database.tables) :
  0 ≤ t →
  let d' := Database.upsert_user now user_id name d in
  Database.check_subscription t user_id d' = Database.check_subscription t user_id d
  ∧ (user_id ∈ (Database.get_active_users d').*1
     ↔ user_id ∈ (Database.get_active_users d).*1)
  ∧ (user_id ∈ Database.get_expired_subscriptions t d'
     ↔ user_id ∈ Database.get_expired_subscriptions t d)
  ∧ Database.full_name <$> Database.get_user user_id d' = Some name
  ∧ ∀ other, other ≠ user_id →
      Database.get_user other d' = Database.get_user other d.
Proof.
  intros Ht. cbv zeta. unfold Database.upsert_user.
  split; [|split; [|split; [|split]]].
  - unfold Database.check_subscription. simpl. rewrite lookup_insert_eq.
    destruct (Database.users d !! user_id); simpl; [done|].
    apply bool_decide_eq_false. lia.
  - rewrite !elem_of_active_ids. simpl. rewrite lookup_insert_eq.
    destruct (Database.users d !! user_id) as [row|]; split.
    + intros (r & [= <-] & Ha & Hb). by exists row.
    + intros (r & [= <-] & Ha & Hb). by eexists.
    + intros (r & [= <-] & Ha & Hb). done.
    + intros (r & [=] & _).
  - rewrite !elem_of_get_expired_subscriptions. simpl. rewrite lookup_insert_eq.
    destruct (Database.users d !! user_id) as [row|]; split.
    + intros (r & [= <-] & H1 & H2 & H3). by exists row.
    + intros (r & [= <-] & H1 & H2 & H3). by eexists.
    + intros (r & [= <-] & H1 & _). simpl in H1. lia.
    + intros (r & [=] & _).
  - unfold Database.get_user. simpl. rewrite lookup_insert_eq.
    by destruct (Database.users d !! user_id).
  - intros other Ho. unfold Database.get_user. simpl. by rewrite lookup_insert_ne.
Qed.

(** ** The client pool and the dialog listing *)

Lemma is_connected_after_connect (x : string) (s : St) :
  is_connected (length (client_objs s))
    (set_connected true (length (client_objs s))
       (with_client_objs (client_objs s ++ [ClientObj x false]) s)) = true.
Proof.
  unfold is_connected, set_connected. simpl.
  rewrite list_lookup_alter_eq, lookup_app_r by lia.
  by rewrite Nat.sub_diag.
Qed.

Lemma create_client_result (user_id : Z) (x : string) (s : St) :
  match create_client user_id x s with
  | (Ret c, s') => clients s' !! user_id = Some c ∧ is_connected c s' = true
  | (Raise _, s') => clients s' !! user_id = None
  | (OutOfFuel, _) => False
  end.
Proof.
  unfold create_client, bind, gets, ret, new_client, connect, await_transport,
    del_client, modify. simpl.
  destruct (clients s !! user_id) as [c|] eqn:Hc; simpl.
  - destruct (is_connected c s) eqn:Hup; simpl; [done|].
    destruct (next_outcome (transport_script s)) as [[|e] script]; simpl.
    + split; [by rewrite lookup_insert_eq|]. apply (is_connected_after_connect x s).
    + by rewrite lookup_delete_eq.
  - destruct (next_outcome (transport_script s)) as [[|e] script]; simpl.
    + split; [by rewrite lookup_insert_eq|]. apply (is_connected_after_connect x s).
    + done.
Qed.

(** X11: [create_client] hands out a client that is connected and is
    the one the pool holds for the user; when it fails, the pool holds no
    client for the user.  A pooled client that is connected is reused as it
    is, without a call of the transport. *)
Theorem create_client_pools_a_connected_client (user_id : Z) (x : string) (s : St) :
  match create_client user_id x s with
  | (Ret c, s') => clients s' !! user_id = Some c ∧ is_connected c s' = true
  | (Raise _, s') => clients s' !! user_id = None
  | (OutOfFuel, _) => False
  end
  ∧ ∀ c, clients s !! user_id = Some c → is_connected c s = true →
         create_client user_id x s = (Ret c, s).
Proof.
  split; [apply create_client_result|].
  intros c Hc Hup.
  unfold create_client, bind, gets, ret. simpl. rewrite Hc. simpl. by rewrite Hup.
Qed.

Lemma group_dialogs_filter (listing : list dialog) :
  group_dialogs listing
  = (λ d, (dialog_id d, title_or_default d))
      <$> filter (λ d, (is_group d || has_attr (megagroup d))
                       && negb (has_attr (broadcast d)) = true) listing.
Proof.
  induction listing as [|d l IH]; [done|].
  cbn [group_dialogs]. rewrite filter_cons.
  destruct (is_group d || has_attr (megagroup d));
    [destruct (has_attr (broadcast d))|].
  - by rewrite decide_False.
  - rewrite decide_True by done. by rewrite fmap_cons, IH.
  - by rewrite decide_False.
Qed.

Lemma title_or_default_nonempty (d : dialog) : title_or_default d ≠ "".
Proof. unfold title_or_default. by destruct (dialog_title d) as [[|]|]. Qed.

(** The selection holds exactly the listed dialogs that are a group or a
    megagroup and not a broadcast channel, in the order of the listing, each
    with a title that is not empty. *)
Lemma group_dialogs_offers_groups_only (listing : list dialog) :
  (∀ entry, entry ∈ group_dialogs listing ↔
     ∃ d, d ∈ listing
          ∧ (is_group d = true ∨ megagroup d = Some true)
          ∧ broadcast d ≠ Some true
          ∧ entry = (dialog_id d, title_or_default d))
  ∧ Forall (λ entry, entry.2 ≠ "") (group_dialogs listing)
  ∧ (group_dialogs listing).*1 `sublist_of` dialog_id <$> listing.
Proof.
  rewrite group_dialogs_filter. split; [|split].
  - intros entry. rewrite list_elem_of_fmap. split.
    + intros (d & -> & Hd). apply list_elem_of_filter in Hd as [Hok Hin].
      exists d. apply andb_true_iff in Hok as [Hg Hb].
      split; [done|]. split; [|split; [|done]].
      * apply orb_true_iff in Hg as [Hg|Hg]; [by left|right].
        by destruct (megagroup d) as [[]|].
      * intros Hbc. rewrite Hbc in Hb. done.
    + intros (d & Hin & Hg & Hb & ->). exists d. split; [done|].
      apply list_elem_of_filter. split; [|done].
      apply andb_true_iff. split.
      * destruct Hg as [->| ->]; [done|]. by rewrite orb_true_r.
      * by destruct (broadcast d) as [[]|].
  - apply Forall_fmap, Forall_forall. intros d _. apply title_or_default_nonempty.
  - rewrite <- list_fmap_compose. 
    change (fst ∘ (λ d, (dialog_id d, title_or_default d))) with dialog_id.
    apply fmap_sublist, sublist_filter.
Qed.

(** X12: what [get_user_dialogs] hands to its caller,
    whatever the store and the transport do.  It never fails: it returns a
    list, and only a cancellation passes through.  Every entry of the list
    is a dialog of the account that is a group or a megagroup and not a
    broadcast channel, with a title that is not empty.  Nothing is written
    to the store, and for a user without profile the list is empty and
    neither the transport nor the pool is touched. *)
Theorem get_user_dialogs_offers_groups_only (user_id : Z) (listing : list dialog)
    (s : St) :
  let r := get_user_dialogs user_id listing s in
  (r.1 = Raise CancelledError
   ∨ ∃ l, r.1 = Ret l
          ∧ Forall (λ entry,
                      entry.2 ≠ ""
                      ∧ ∃ d, d ∈ listing
                             ∧ (is_group d = true ∨ megagroup d = Some true)
                             ∧ broadcast d ≠ Some true
                             ∧ entry = (dialog_id d, title_or_default d)) l)
  ∧ db r.2 = db s
  ∧ (Database.get_profile user_id (db s) = None →
     (next_outcome (store_script s)).1 = Returns →
     r = (Ret [], with_store_script (next_outcome (store_script s)).2 s)).
Proof.
  cbv zeta. split; [|split].
  - assert (H : ∃ r s', get_user_dialogs user_id listing s = (r, s')
                        ∧ (r = Ret [] ∨ r = Ret (group_dialogs listing)
                           ∨ r = Raise CancelledError)).
    { unfold get_user_dialogs, try_except, bind at 1, await_query.
      destruct (next_outcome (store_script s)) as [[|e] script]; simpl.
      - destruct (Database.get_profile user_id (db s)) as [p|]; simpl;
          [|by eexists _, _; split; [reflexivity|left]].
        unfold bind at 1.
        pose proof (create_client_result user_id (Database.session p)
                      (with_store_script script s)) as Hcc.
        destruct (create_client user_id (Database.session p) _) as [[c|e|] s1];
          simpl; [| |done].
        + unfold bind, iter_dialogs, ret.
          destruct (next_outcome (transport_script s1)) as [[|e] script1]; simpl.
          * eexists _, _. split; [reflexivity|]. right. by left.
          * destruct e; simpl; eexists _, _; (split; [reflexivity|]); auto.
        + destruct e; simpl; eexists _, _; (split; [reflexivity|]); auto.
      - destruct e; simpl; eexists _, _; (split; [reflexivity|]); auto. }
    destruct H as (r & s1 & -> & [-> | [-> | ->]]); simpl.
    + right. exists []. split; [done|constructor].
    + right. exists (group_dialogs listing). split; [done|].
      destruct (group_dialogs_offers_groups_only listing) as (Hin & Hne & _).
      rewrite Forall_forall in Hne |- *. intros entry He.
      split; [by apply Hne|]. by apply Hin.
    + by left.
  - assert (Hp : preserves db (get_user_dialogs user_id listing)).
    { unfold get_user_dialogs. apply preserves_try_except.
      - apply preserves_bind; [apply preserves_await_query; by intros|].
        intros [p|]; [|apply preserves_ret].
        apply preserves_bind; [apply preserves_db_create_client|]. intros c.
        apply preserves_bind; [|intros; apply preserves_ret].
        intros s0. unfold iter_dialogs.
        by destruct (next_outcome (transport_script s0)) as [[|?] ?].
      - intros []; [apply preserves_raise|apply preserves_ret..]. }
    apply Hp.
  - intros Hp Hr. unfold get_user_dialogs, try_except, bind, await_query.
    destruct (next_outcome (store_script s)) as [[|e] script]; simpl in *; [|done].
    by rewrite Hp.
Qed.

(** X13: a listing that succeeds for a user who had no pooled
    client leaves a connected client in the pool: [get_user_dialogs]
    connects and never disconnects, and starts or registers no task. *)
Theorem get_user_dialogs_leaves_a_pooled_client (user_id : Z)
    (listing : list dialog) (s : St) (p : Database.profile_row) :
  Database.get_profile user_id (db s) = Some p →
  clients s !! user_id = None →
  answers 1 (store_script s) →
  answers 2 (transport_script s) →
  ∃ s', get_user_dialogs user_id listing s = (Ret (group_dialogs listing), s')
        ∧ clients s' !! user_id = Some (length (client_objs s))
        ∧ is_connected (length (client_objs s)) s' = true
        ∧ trace s' = trace s ++ [EvConnect (length (client_objs s))]
        ∧ active_tasks s' = active_tasks s
        ∧ task_objs s' = task_objs s.
Proof.
  intros Hp Hc Hs Ht.
  apply answers_next in Hs as (script & Hs & _).
  apply answers_next in Ht as (script1 & Ht1 & Ht).
  apply answers_next in Ht as (script2 & Ht2 & _).
  unfold get_user_dialogs, try_except, bind at 1, await_query. rewrite Hs. simpl.
  rewrite Hp. simpl.
  unfold bind at 1, create_client, bind at 1, gets. simpl. rewrite Hc. simpl.
  unfold bind at 1, ret at 1. simpl.
  unfold bind at 1, new_client. simpl.
  unfold bind at 1, connect, await_transport. simpl. rewrite Ht1. simpl.
  unfold bind, iter_dialogs, ret. simpl. rewrite Ht2. simpl.
  eexists. split; [reflexivity|]. simpl.
  split; [by rewrite lookup_insert_eq|].
  split; [|done].
  apply (is_connected_after_connect (Database.session p)
           (with_transport_script script1 (with_store_script script s))).
Qed.

(** ** Deleting a profile, the readiness gate, stopping the reaper *)

Lemma await_statement_answers (f : Z → Database.tables → Database.tables)
    (n : nat) (s : St) :
  answers (S n) (store_script s) →
  ∃ script,
    await_statement f s
    = (Ret (), with_db (f (now s) (db s)) (with_store_script script s))
    ∧ answers n script.
Proof.
  intros H. apply answers_next in H as (script & Hn & H).
  exists script. split; [|done]. unfold await_statement. by rewrite Hn.
Qed.

(** X14: when the store answers, [cleanup_profile] leaves the user
    without profile and message, logged out and inactive, with no task in
    the registry and no client in the pool; the readiness gate then refuses
    the user.  The selected destinations are kept. *)
Theorem cleanup_profile_logs_the_user_out (user_id : Z) (s : St) :
  answers 4 (store_script s) →
  ∃ s', cleanup_profile user_id s = (Ret (), s')
        ∧ Database.get_profile user_id (db s') = None
        ∧ Database.get_message user_id (db s') = None
        ∧ Database.is_logged_in <$> Database.get_user user_id (db s')
          = (λ _, 0) <$> Database.get_user user_id (db s)
        ∧ Database.is_active <$> Database.get_user user_id (db s')
          = (λ _, 0) <$> Database.get_user user_id (db s)
        ∧ active_tasks s' !! user_id = None
        ∧ clients s' !! user_id = None
        ∧ Database.user_groups (db s') = Database.user_groups (db s)
        ∧ (is_user_ready user_id s').1 ≠ Ret true.
Proof.
  intros H. destruct (stop_sending_answers user_id 3 s H) as (script & Hs & Heq).
  set (s0 := after_stop_write user_id script s) in Heq.
  set (s1 := (stop_client user_id (stop_task user_id s0).2).2) in Heq.
  assert (Hdb : db s1 = Database.update_user_active_status (now s) user_id 0 (db s)).
  { unfold s1. by rewrite preserves_db_stop_client, preserves_db_stop_task. }
  assert (Hclock : now s1 = now s).
  { unfold now, s1. by rewrite preserves_clock_stop_client, preserves_clock_stop_task. }
  assert (Hscript : store_script s1 = script).
  { unfold s1. by rewrite preserves_store_script_stop_client,
      preserves_store_script_stop_task. }
  assert (Htask : active_tasks s1 !! user_id = None).
  { unfold s1. rewrite preserves_active_tasks_stop_client. apply stop_task_drops_entry. }
  assert (Hpool : clients s1 !! user_id = None) by apply stop_client_drops_entry.
  clearbody s1. clear s0.
  rewrite <- Hscript in Hs.
  unfold cleanup_profile. unfold bind at 1. rewrite Heq.
  unfold bind at 1.
  destruct (await_statement_answers
              (λ _, Database.delete_profile user_id) 2 s1 Hs) as (script1 & -> & Hs1).
  set (s2 := with_db _ (with_store_script script1 s1)).
  unfold bind at 1.
  destruct (await_statement_answers
              (λ _, Database.delete_message user_id) 1 s2 Hs1) as (script2 & -> & Hs2).
  set (s3 := with_db _ (with_store_script script2 s2)).
  destruct (await_statement_answers
              (λ t, Database.update_user_login_status t user_id 0) 0 s3 Hs2)
    as (script3 & -> & _).
  set (d4 := Database.update_user_login_status (now s3) user_id 0 (db s3)).
  assert (Hrow : Database.get_user user_id d4
                 = (λ r, Database.set_login_status 0 (now s3)
                           (Database.set_active_status 0 (now s) r))
                     <$> Database.get_user user_id (db s)).
  { unfold d4, Database.get_user, Database.update_user_login_status. simpl.
    rewrite Hdb. simpl. rewrite !lookup_alter_eq.
    by destruct (Database.users (db s) !! user_id). }
  assert (Hprofile : Database.get_profile user_id d4 = None).
  { unfold d4, Database.get_profile. simpl. by rewrite lookup_delete_eq. }
  assert (Hmessage : Database.get_message user_id d4 = None).
  { unfold d4, Database.get_message. simpl. by rewrite lookup_delete_eq. }
  assert (Hgroups : Database.user_groups d4 = Database.user_groups (db s)).
  { unfold d4. simpl. by rewrite Hdb. }
  clearbody d4.
  eexists. split; [reflexivity|].
  cbn [db with_db active_tasks clients].
  split; [done|]. split; [done|].
  split; [rewrite Hrow; by destruct (Database.get_user user_id (db s))|].
  split; [rewrite Hrow; by destruct (Database.get_user user_id (db s))|].
  split; [done|]. split; [done|]. split; [done|].
  unfold is_user_ready, bind at 1, await_query.
  match goal with |- context [next_outcome ?x] =>
    destruct (next_outcome x) as [[|e] script4] end; cbn [fst snd db with_db with_store_script];
    [|done].
  rewrite Hrow. destruct (Database.get_user user_id (db s)); simpl; done.
Qed.

(** With a store that answers, the readiness gate says yes exactly when the
    user is known and logged in and has a profile, a message and a
    destination; it reads and changes nothing. *)
Lemma is_user_ready_exact (user_id : Z) (s : St) :
  answers 4 (store_script s) →
  ∃ b script,
    is_user_ready user_id s = (Ret b, with_store_script script s)
    ∧ (b = true ↔
       (∃ r, Database.get_user user_id (db s) = Some r
             ∧ Database.is_logged_in r ≠ 0)
       ∧ is_Some (Database.get_profile user_id (db s))
       ∧ is_Some (Database.get_message user_id (db s))
       ∧ Database.get_user_groups user_id (db s) ≠ []).
Proof.
  intros H. unfold is_user_ready. unfold bind at 1. store_step H.
  destruct (Database.get_user user_id (db s)) as [r|] eqn:Hr; simpl.
  - destruct (decide (Database.is_logged_in r = 0)) as [Hl|Hl].
    + rewrite (bool_decide_eq_true_2 _ Hl). eexists _, _. split; [reflexivity|].
      split; [done|]. intros ((r' & [= <-] & Hne) & _). done.
    + rewrite (bool_decide_eq_false_2 _ Hl).
      unfold bind at 1.
      match goal with H : answers (S _) _ |- _ => store_step H end.
      unfold bind at 1.
      match goal with H : answers (S _) _ |- _ => store_step H end.
      unfold bind at 1.
      match goal with H : answers (S _) _ |- _ => store_step H end.
      eexists _, _. split; [reflexivity|].
      destruct (Database.get_profile user_id (db s)) as [p|];
        destruct (Database.get_message user_id (db s)) as [m|];
        destruct (Database.get_user_groups user_id (db s)) as [|g gs];
        split; try done;
        try (intros (_ & Hp & Hm & Hg); by (destruct Hp || destruct Hm || idtac)).
      intros _. split; [by exists r|]. done.
  - eexists _, _. split; [reflexivity|]. split; [done|].
    intros ((r & [=] & _) & _).
Qed.



(** ** Setting a user up *)


(** ** Running without cancellation *)

Lemma never_cancelled_ext (s s' : St) :
  store_script s' = store_script s →
  transport_script s' = transport_script s →
  timer_script s' = timer_script s →
  never_cancelled s → never_cancelled s'.
Proof. unfold never_cancelled. by intros -> -> ->. Qed.

Lemma calm_ret {A} (a : A) : calm (ret a).
Proof. by intros s H. Qed.

Lemma calm_raise {A} (e : exn) : e ≠ CancelledError → calm (raise (A:=A) e).
Proof. intros He s H. split; [done|]. simpl. congruence. Qed.

Lemma calm_out_of_fuel {A} : calm (out_of_fuel (A:=A)).
Proof. by intros s H. Qed.

Lemma calm_gets {A} (g : St → A) : calm (gets g).
Proof. by intros s H. Qed.

Lemma calm_modify (g : St → St) :
  (∀ s, store_script (g s) = store_script s) →
  (∀ s, transport_script (g s) = transport_script s) →
  (∀ s, timer_script (g s) = timer_script s) →
  calm (modify g).
Proof.
  intros H1 H2 H3 s H. split; [|done]. simpl.
  by apply (never_cancelled_ext s).
Qed.

Lemma calm_bind {A B} (m : M A) (k : A → M B) :
  calm m → (∀ a, calm (k a)) → calm (bind m k).
Proof.
  intros Hm Hk s H. unfold bind. specialize (Hm s H).
  destruct (m s) as [[a|e|] s1]; simpl in *.
  - apply Hk, Hm.
  - destruct Hm as [H1 He]. split; [done|]. intros [= ->]. by apply He.
  - by destruct Hm.
Qed.

Lemma calm_try_except {A} (m : M A) (h : exn → M A) :
  calm m → (∀ e, e ≠ CancelledError → calm (h e)) → calm (try_except m h).
Proof.
  intros Hm Hh s H. unfold try_except. specialize (Hm s H).
  destruct (m s) as [[a|e|] s1]; simpl in *; [done| |done].
  destruct Hm as [H1 He]. apply Hh; [|done]. intros ->. by apply He.
Qed.

Lemma calm_try_finally {A} (m : M A) (c : M ()) :
  calm m → calm c → calm (try_finally m c).
Proof.
  intros Hm Hc s H. unfold try_finally. specialize (Hm s H).
  destruct (m s) as [[a|e|] s1]; simpl in *; [| |done].
  - destruct Hm as [H1 _]. specialize (Hc s1 H1).
    destruct (c s1) as [[[]|e|] s2]; simpl in *; destruct Hc as [H2 He2];
      (split; [done|]); [done| |done].
    intros [= ->]. by apply He2.
  - destruct Hm as [H1 He]. specialize (Hc s1 H1).
    destruct (c s1) as [[[]|e'|] s2]; simpl in *; destruct Hc as [H2 He2];
      (split; [done|]); [|intros [= ->]; by apply He2|done].
    intros [= ->]. by apply He.
Qed.

Lemma calm_for_each {A} (l : list A) (body : A → M ()) :
  (∀ x, calm (body x)) → calm (for_each l body).
Proof.
  intros Hb. induction l as [|x l IH]; simpl; [apply calm_ret|].
  apply calm_bind; [apply Hb|by intros].
Qed.

Lemma calm_next_outcome (script : list outcome) :
  Forall (λ o, o ≠ Raises CancelledError) script →
  (next_outcome script).1 ≠ Raises CancelledError
  ∧ Forall (λ o, o ≠ Raises CancelledError) (next_outcome script).2.
Proof. intros H. destruct H; simpl; [split; [done|constructor]|done]. Qed.

Lemma calm_await_query {A} (q : Z → Database.tables → A) : calm (await_query q).
Proof.
  intros s (Hs & Ht & Hw). unfold await_query.
  destruct (calm_next_outcome _ Hs) as [Ho Hrest].
  destruct (next_outcome (store_script s)) as [[|e] script]; simpl in *.
  - done.
  - split; [done|congruence].
Qed.

Lemma calm_await_update_user_active_status (user_id v : Z) :
  calm (await_update_user_active_status user_id v).
Proof.
  intros s (Hs & Ht & Hw). unfold await_update_user_active_status.
  destruct (calm_next_outcome _ Hs) as [Ho Hrest].
  destruct (next_outcome (store_script s)) as [[|e] script]; simpl in *.
  - done.
  - split; [done|congruence].
Qed.

Lemma calm_await_statement (f : Z → Database.tables → Database.tables) :
  calm (await_statement f).
Proof.
  intros s (Hs & Ht & Hw). unfold await_statement.
  destruct (calm_next_outcome _ Hs) as [Ho Hrest].
  destruct (next_outcome (store_script s)) as [[|e] script]; simpl in *.
  - done.
  - split; [done|congruence].
Qed.

Lemma calm_await_transport (e : event) (effect : St → St) :
  (∀ s, store_script (effect s) = store_script s) →
  (∀ s, transport_script (effect s) = transport_script s) →
  (∀ s, timer_script (effect s) = timer_script s) →
  calm (await_transport e effect).
Proof.
  intros H1 H2 H3 s (Hs & Ht & Hw). unfold await_transport.
  destruct (calm_next_outcome _ Ht) as [Ho Hrest].
  destruct (next_outcome (transport_script s)) as [[|x] script]; simpl in *.
  - split; [|done]. unfold never_cancelled. by rewrite H1, H2, H3.
  - split; [done|congruence].
Qed.

Lemma calm_sleep (d : Q) : calm (sleep d).
Proof.
  intros s (Hs & Ht & Hw). unfold sleep.
  destruct Hw as [|w script Hw Hrest]; simpl.
  - done.
  - subst w. simpl. done.
Qed.

Lemma calm_random : calm random.
Proof. intros s H. unfold random. by destruct (entropy s). Qed.

Lemma calm_randint (a b : Z) : calm (randint a b).
Proof.
  unfold randint. destruct (bool_decide (b < a)).
  - by apply calm_raise.
  - apply calm_bind; [apply calm_random|intros; apply calm_ret].
Qed.

Lemma calm_uniform (a b : Q) : calm (uniform a b).
Proof. apply calm_bind; [apply calm_random|intros; apply calm_ret]. Qed.

Ltac calm_step :=
  first
    [ apply calm_ret | apply calm_gets | apply calm_out_of_fuel
    | apply calm_await_query | apply calm_await_update_user_active_status
    | apply calm_await_statement
    | apply calm_sleep | apply calm_random | apply calm_randint | apply calm_uniform
    | apply calm_raise; congruence
    | apply calm_modify; by intros
    | apply calm_await_transport; by intros
    | apply calm_bind; [|intros]
    | apply calm_try_except; [|intros]
    | apply calm_try_finally
    | apply calm_for_each; intros
    | match goal with
      | |- calm (match ?x with _ => _ end) => destruct x
      end ].

Section Calm.
Context {config : Config}.

Lemma calm_cleanup (user_id : Z) : calm (cleanup user_id).
Proof. unfold cleanup. repeat calm_step. Qed.

Lemma calm_cancel_and_await (t : nat) : calm (cancel_and_await t).
Proof. unfold cancel_and_await. repeat calm_step. Qed.

Lemma calm_stop_sending (user_id : Z) : calm (stop_sending user_id).
Proof. unfold stop_sending, stop_task, stop_client. repeat calm_step. Qed.

Lemma calm_create_client (user_id : Z) (x : string) : calm (create_client user_id x).
Proof. unfold create_client. repeat calm_step. Qed.

Lemma calm_send_to_group (c : nat) (body : string) (group : Z) :
  calm (send_to_group c body group).
Proof. unfold send_to_group. repeat calm_step. Qed.

Lemma calm_send_cycle user_id profile message user_groups :
  calm (send_cycle user_id profile message user_groups).
Proof.
  unfold send_cycle. repeat (apply calm_bind; [|intros]);
    try apply calm_for_each; intros; try apply calm_send_to_group;
    try (unfold create_client; repeat calm_step).
Qed.

Lemma calm_on_cycle_error (user_id : Z) (e : exn) :
  e ≠ CancelledError → calm (on_cycle_error user_id e).
Proof.
  intros He. unfold on_cycle_error. destruct e; [done| |]; repeat calm_step.
Qed.

Lemma calm_cycle (user_id : Z) : calm (cycle user_id).
Proof.
  unfold cycle.
  apply calm_bind; [apply calm_await_query|]. intros [u|]; [|apply calm_ret].
  destruct (_ || _); [apply calm_ret|].
  apply calm_bind; [apply calm_await_query|]. intros has.
  destruct (negb has); [repeat calm_step|].
  apply calm_bind; [apply calm_await_query|]. intros profile.
  apply calm_bind; [apply calm_await_query|]. intros message.
  apply calm_bind; [apply calm_await_query|]. intros user_groups.
  destruct profile as [p|]; [|apply calm_ret].
  destruct message as [m|]; [|apply calm_ret].
  destruct user_groups as [|g gs]; [apply calm_ret|].
  apply calm_try_except.
  - apply calm_bind; [apply calm_send_cycle|intros; apply calm_ret].
  - intros e He. by apply calm_on_cycle_error.
Qed.

Lemma calm_cycles (fuel : nat) (user_id : Z) : calm (cycles fuel user_id).
Proof.
  induction fuel as [|fuel IH]; simpl; [apply calm_out_of_fuel|].
  apply calm_bind; [apply calm_cycle|]. intros []; [done|apply calm_ret].
Qed.

Lemma calm_subscription_checker_tick : calm subscription_checker_tick.
Proof.
  unfold subscription_checker_tick.
  apply calm_try_except.
  - apply calm_bind; [apply calm_sleep|]. intros _.
    apply calm_bind; [apply calm_await_query|]. intros l.
    apply calm_for_each. intros u. apply calm_stop_sending.
  - intros [] He; [done|apply calm_ret..].
Qed.

End Calm.

(** ** Relations every step keeps *)

Section Keeps.
Context (R : St → St → Prop).
Context (R_refl : ∀ s, R s s).
Context (R_trans : ∀ s1 s2 s3, R s1 s2 → R s2 s3 → R s1 s3).

Lemma keeps_ret {A} (a : A) : keeps R (ret a).
Proof. intros s. apply R_refl. Qed.

Lemma keeps_raise {A} (e : exn) : keeps R (raise (A:=A) e).
Proof. intros s. apply R_refl. Qed.

Lemma keeps_out_of_fuel {A} : keeps R (out_of_fuel (A:=A)).
Proof. intros s. apply R_refl. Qed.

Lemma keeps_gets {A} (g : St → A) : keeps R (gets g).
Proof. intros s. apply R_refl. Qed.

Lemma keeps_modify (g : St → St) : (∀ s, R s (g s)) → keeps R (modify g).
Proof. intros H s. apply H. Qed.

Lemma keeps_bind {A B} (m : M A) (k : A → M B) :
  keeps R m → (∀ a, keeps R (k a)) → keeps R (bind m k).
Proof.
  intros Hm Hk s. unfold bind. specialize (Hm s).
  destruct (m s) as [[a|e|] s1]; simpl in *; [|done..].
  eapply R_trans; [exact Hm|apply Hk].
Qed.

Lemma keeps_try_except {A} (m : M A) (h : exn → M A) :
  keeps R m → (∀ e, keeps R (h e)) → keeps R (try_except m h).
Proof.
  intros Hm Hh s. unfold try_except. specialize (Hm s).
  destruct (m s) as [[a|e|] s1]; simpl in *; [done| |done].
  eapply R_trans; [exact Hm|apply Hh].
Qed.

Lemma keeps_try_finally {A} (m : M A) (c : M ()) :
  keeps R m → keeps R c → keeps R (try_finally m c).
Proof.
  intros Hm Hc s. unfold try_finally. specialize (Hm s).
  destruct (m s) as [[a|e|] s1]; simpl in *; [| |done].
  - specialize (Hc s1). destruct (c s1) as [[[]|e|] s2]; simpl in *;
      eapply R_trans; eauto.
  - specialize (Hc s1). destruct (c s1) as [[[]|e'|] s2]; simpl in *;
      eapply R_trans; eauto.
Qed.

Lemma keeps_for_each {A} (l : list A) (body : A → M ()) :
  (∀ x, keeps R (body x)) → keeps R (for_each l body).
Proof.
  intros Hb. induction l as [|x l IH]; simpl; [apply keeps_ret|].
  apply keeps_bind; [apply Hb|by intros].
Qed.

Context (R_store_script : ∀ x s, R s (with_store_script x s)).
Context (R_transport_script : ∀ x s, R s (with_transport_script x s)).
Context (R_timer_script : ∀ x s, R s (with_timer_script x s)).
Context (R_entropy : ∀ x s, R s (with_entropy x s)).
Context (R_trace : ∀ x s, R s (with_trace x s)).

Lemma keeps_emit (e : event) : keeps R (emit e).
Proof. intros s. apply R_trace. Qed.

Lemma keeps_await_query {A} (q : Z → Database.tables → A) : keeps R (await_query q).
Proof.
  intros s. unfold await_query.
  destruct (next_outcome (store_script s)) as [[|e] script]; apply R_store_script.
Qed.

Lemma keeps_await_update_user_active_status (user_id v : Z) :
  (∀ x s, R s (with_db x s)) →
  keeps R (await_update_user_active_status user_id v).
Proof.
  intros Hdb s. unfold await_update_user_active_status.
  destruct (next_outcome (store_script s)) as [[|e] script]; simpl;
    [|apply R_store_script].
  eapply R_trans; [apply (R_store_script script)|].
  eapply R_trans; [apply Hdb|apply R_trace].
Qed.

Lemma keeps_await_statement (f : Z → Database.tables → Database.tables) :
  (∀ x s, R s (with_db x s)) → keeps R (await_statement f).
Proof.
  intros Hdb s. unfold await_statement.
  destruct (next_outcome (store_script s)) as [[|e] script]; simpl;
    [|apply R_store_script].
  eapply R_trans; [apply (R_store_script script)|apply Hdb].
Qed.

Lemma keeps_sleep (d : Q) :
  (∀ s, R s (with_clock (clock s + Qmax d 0)%Q s)) → keeps R (sleep d).
Proof.
  intros Hclock s. unfold sleep.
  destruct (next_wake (timer_script s)) as [[|] script].
  - eapply R_trans; [apply (R_timer_script script)|].
    eapply R_trans; [apply (R_trace (trace s ++ [EvSleep d]))|].
    exact (Hclock (with_trace (trace s ++ [EvSleep d]) (with_timer_script script s))).
  - eapply R_trans; [apply (R_timer_script script)|].
    exact (R_trace (trace s ++ [EvSleep d]) (with_timer_script script s)).
Qed.

Lemma keeps_random : keeps R random.
Proof. intros s. unfold random. destruct (entropy s); [apply R_refl|apply R_entropy]. Qed.

Lemma keeps_randint (a b : Z) : keeps R (randint a b).
Proof.
  unfold randint. destruct (bool_decide (b < a)); [apply keeps_raise|].
  apply keeps_bind; [apply keeps_random|intros; apply keeps_ret].
Qed.

Lemma keeps_uniform (a b : Q) : keeps R (uniform a b).
Proof. apply keeps_bind; [apply keeps_random|intros; apply keeps_ret]. Qed.

Lemma keeps_await_transport (e : event) (effect : St → St) :
  (∀ s, R s (effect s)) → keeps R (await_transport e effect).
Proof.
  intros He s. unfold await_transport.
  destruct (next_outcome (transport_script s)) as [[|x] script]; simpl.
  - eapply R_trans; [apply (R_transport_script script)|].
    eapply R_trans; [apply R_trace|apply He].
  - eapply R_trans; [apply (R_transport_script script)|apply R_trace].
Qed.

Lemma keeps_del_client (user_id : Z) :
  (∀ s, R s (with_clients (delete user_id (clients s)) s)) →
  keeps R (del_client user_id).
Proof. intros H s. simpl. eapply R_trans; [apply H|apply R_trace]. Qed.

Lemma keeps_del_task (user_id : Z) :
  (∀ s, R s (with_active_tasks (delete user_id (active_tasks s)) s)) →
  keeps R (del_task user_id).
Proof. intros H s. simpl. eapply R_trans; [apply H|apply R_trace]. Qed.

End Keeps.

Lemma shrinks_refl (s : St) : shrinks s s.
Proof. by split. Qed.

Lemma shrinks_trans (s1 s2 s3 : St) : shrinks s1 s2 → shrinks s2 s3 → shrinks s1 s3.
Proof. intros [H1 H2] [H3 H4]. split; intros k Hk; auto. Qed.

Lemma shrinks_same (s s' : St) :
  active_tasks s' = active_tasks s → clients s' = clients s → shrinks s s'.
Proof. intros H1 H2. unfold shrinks. by rewrite H1, H2. Qed.

Lemma later_refl (s : St) : later s s.
Proof. unfold later. apply Qle_refl. Qed.

Lemma later_trans (s1 s2 s3 : St) : later s1 s2 → later s2 s3 → later s1 s3.
Proof. unfold later. apply Qle_trans. Qed.

Lemma later_sleep (d : Q) (s : St) : later s (with_clock (clock s + Qmax d 0)%Q s).
Proof.
  unfold later. simpl. pose proof (Q.le_max_r d 0).
  rewrite <- (Qplus_0_r (clock s)) at 1. by apply Qplus_le_r.
Qed.

Ltac keeps_step R_refl R_trans :=
  first
    [ apply (keeps_ret _ R_refl) | apply (keeps_raise _ R_refl)
    | apply (keeps_gets _ R_refl) | apply (keeps_out_of_fuel _ R_refl)
    | apply (keeps_bind _ R_trans); [|intros]
    | apply (keeps_try_except _ R_trans); [|intros]
    | apply (keeps_try_finally _ R_trans)
    | apply (keeps_for_each _ R_refl R_trans); intros
    | match goal with
      | |- keeps _ (match ?x with _ => _ end) => destruct x
      end ].

Ltac shrinks_same := by (intros; apply shrinks_same).

Ltac shrinks_delete :=
  let k := fresh "k" in
  let Hk := fresh "Hk" in
  intros k Hk; simpl;
  match goal with
  | |- delete ?u _ !! _ = None =>
      by (destruct (decide (k = u)) as [->|];
          rewrite ?lookup_delete_eq, ?lookup_delete_ne by done)
  end.

Ltac shrinks_side :=
  first
    [ exact shrinks_refl | exact shrinks_trans | shrinks_same
    | intros; split; [done|shrinks_delete]
    | intros; split; [shrinks_delete|done] ].

Ltac keeps_with R_refl R_trans side :=
  first
    [ keeps_step R_refl R_trans
    | apply keeps_emit; side
    | apply keeps_await_query; side
    | apply keeps_await_update_user_active_status; side
    | apply keeps_await_statement; side
    | apply keeps_sleep; side
    | apply keeps_random; side
    | apply keeps_randint; side
    | apply keeps_uniform; side
    | apply keeps_await_transport; side
    | apply keeps_modify; side
    | apply keeps_del_client; side
    | apply keeps_del_task; side ].

Ltac shrinks_step := keeps_with shrinks_refl shrinks_trans shrinks_side.

Section Shrinks.
Context {config : Config}.

Lemma shrinks_cleanup (user_id : Z) : keeps shrinks (cleanup user_id).
Proof. unfold cleanup. repeat shrinks_step. Qed.

Lemma shrinks_cancel_and_await (t : nat) : keeps shrinks (cancel_and_await t).
Proof. unfold cancel_and_await. repeat shrinks_step. Qed.

Lemma shrinks_stop_sending (user_id : Z) : keeps shrinks (stop_sending user_id).
Proof. unfold stop_sending, stop_task, stop_client. repeat shrinks_step. Qed.

End Shrinks.

(** ** The reaper, and stopping many users in a row *)

Lemma stop_sending_effect (user_id : Z) (s : St) :
  store_script s = [] →
  ∃ s', stop_sending user_id s = (Ret (), s')
        ∧ store_script s' = []
        ∧ db s' = Database.update_user_active_status (now s) user_id 0 (db s)
        ∧ clock s' = clock s
        ∧ active_tasks s' !! user_id = None
        ∧ clients s' !! user_id = None
        ∧ shrinks s s'.
Proof.
  intros Hnil.
  assert (H : answers 1 (store_script s)) by (rewrite Hnil; apply answers_nil).
  pose proof (shrinks_stop_sending user_id s) as Hshr.
  set (s1 := after_stop_write user_id [] s).
  assert (Hs : stop_sending user_id s
               = (stop_task user_id ;; stop_client user_id) s1).
  { unfold stop_sending, bind at 1, emit, modify. simpl.
    unfold bind at 1, await_update_user_active_status. simpl. rewrite Hnil.
    simpl. rewrite <- app_assoc. reflexivity. }
  rewrite Hs in Hshr |- *. clear Hs. unfold bind in *.
  pose proof (stop_task_returns user_id s1) as H1.
  pose proof (preserves_db_stop_task user_id s1) as Hd1.
  pose proof (preserves_clock_stop_task user_id s1) as Hc1.
  pose proof (preserves_store_script_stop_task user_id s1) as Hs1.
  pose proof (stop_task_drops_entry user_id s1) as He1.
  destruct (stop_task user_id s1) as [[[]|e|] s2]; simpl in *; try done.
  pose proof (stop_client_returns user_id s2) as H2.
  pose proof (preserves_db_stop_client user_id s2) as Hd2.
  pose proof (preserves_clock_stop_client user_id s2) as Hc2.
  pose proof (preserves_store_script_stop_client user_id s2) as Hs2.
  pose proof (preserves_active_tasks_stop_client user_id s2) as Ha2.
  pose proof (stop_client_drops_entry user_id s2) as He2.
  destruct (stop_client user_id s2) as [[[]|e|] s3]; simpl in *; try done.
  exists s3. split; [done|].
  split; [by rewrite Hs2, Hs1|].
  split; [by rewrite Hd2, Hd1|].
  split; [by rewrite Hc2, Hc1|].
  split; [by rewrite Ha2|]. done.
Qed.

Lemma set_active_status_twice (t : Z) (r : Database.user_row) :
  Database.set_active_status 0 t (Database.set_active_status 0 t r)
  = Database.set_active_status 0 t r.
Proof. done. Qed.

(** Stopping the users of a list one after the other, with a store that
    answers: each of them is stopped, nobody else's row changes, and the
    registry and the pool gain nothing. *)
Lemma stop_all (body : Z → M ()) (l : list Z) :
  (∀ u s, store_script s = [] → body u s = stop_sending u s) →
  ∀ s, store_script s = [] →
  ∃ s', for_each l body s = (Ret (), s')
        ∧ store_script s' = []
        ∧ clock s' = clock s
        ∧ shrinks s s'
        ∧ (∀ u, u ∈ l → active_tasks s' !! u = None ∧ clients s' !! u = None)
        ∧ ∀ u, Database.get_user u (db s')
               = if decide (u ∈ l)
                 then Database.set_active_status 0 (now s)
                        <$> Database.get_user u (db s)
                 else Database.get_user u (db s).
Proof.
  intros Hbody. induction l as [|v l IH]; intros s Hnil.
  - exists s. split; [done|]. split; [done|]. split; [done|].
    split; [apply shrinks_refl|]. split.
    + intros u Hu. by apply elem_of_nil in Hu.
    + intros u. rewrite decide_False; [done|]. apply not_elem_of_nil.
  - simpl. unfold bind. rewrite (Hbody v s Hnil).
    destruct (stop_sending_effect v s Hnil)
      as (s1 & -> & Hs1 & Hd1 & Hc1 & Ha1 & Hp1 & Hshr1).
    destruct (IH s1 Hs1) as (s' & -> & Hs' & Hc' & Hshr' & Hl' & Hd').
    exists s'. split; [done|]. split; [done|]. split; [by rewrite Hc', Hc1|].
    split; [by apply shrinks_trans with s1|]. split.
    + intros u Hu. apply elem_of_cons in Hu as [->|Hu]; [|by apply Hl'].
      destruct Hshr' as [Hsa Hsc]. split; [by apply Hsa|by apply Hsc].
    + intros u. rewrite Hd'.
      assert (Hnow : now s1 = now s) by (unfold now; by rewrite Hc1).
      rewrite Hnow, Hd1.
      destruct (decide (u = v)) as [->|Huv].
      * rewrite get_user_update_user_active_status.
        rewrite (decide_True (P := v ∈ v :: l)) by (apply elem_of_cons; by left).
        destruct (decide (v ∈ l)); [|done].
        by destruct (Database.get_user v (db s)).
      * rewrite get_user_update_other by done.
        destruct (decide (u ∈ l)) as [Hin|Hin].
        -- rewrite decide_True; [done|]. apply elem_of_cons. by right.
        -- rewrite decide_False; [done|].
           intros Hc. apply elem_of_cons in Hc as [?|?]; done.
Qed.

Section Reaper.
Context {config : Config}.

(** X17: one turn of the reaper, with a store that answers and a
    sleep that is not interrupted: every user whose subscription has run
    out and who is still flagged active ends up inactive, without task and
    without client; nobody else's row is touched; and afterwards the store
    holds no expired user that is still active. *)
Theorem reaper_tick_stops_expired_users (s : St) :
  (next_wake (timer_script s)).1 = Elapsed →
  store_script s = [] →
  let t := Qfloor (clock s + 300) in
  ∃ s', subscription_checker_tick s = (Ret (), s')
        ∧ (∀ u, u ∈ Database.get_expired_subscriptions t (db s) →
             Database.is_active <$> Database.get_user u (db s') = Some 0
             ∧ active_tasks s' !! u = None
             ∧ clients s' !! u = None)
        ∧ (∀ u, u ∉ Database.get_expired_subscriptions t (db s) →
             Database.get_user u (db s') = Database.get_user u (db s))
        ∧ Database.get_expired_subscriptions t (db s') = [].
Proof.
  intros Hw Hnil. cbv zeta.
  unfold subscription_checker_tick, try_except, bind at 1, sleep.
  destruct (next_wake (timer_script s)) as [w script]. simpl in Hw. subst w.
  cbn [fst snd]. unfold bind at 1.
  rewrite await_query_nil by done. cbn [fst snd].
  match goal with |- context [for_each ?l stop_sending ?st] =>
    set (expired := l); set (s1 := st) end.
  assert (Hexp : expired = Database.get_expired_subscriptions
                             (Qfloor (clock s + 300)) (db s)) by reflexivity.
  assert (Hnow1 : now s1 = Qfloor (clock s + 300)) by reflexivity.
  destruct (stop_all stop_sending expired (λ _ _ _, eq_refl) s1 eq_refl)
    as (s' & -> & Hs' & Hc' & Hshr & Hl & Hd).
  rewrite <- Hexp. clearbody expired.
  assert (Hdb1 : db s1 = db s) by reflexivity.
  clearbody s1. exists s'. split; [done|].
  assert (Hrow : ∀ u, u ∈ expired →
                      Database.is_active <$> Database.get_user u (db s') = Some 0).
  { intros u Hu. rewrite Hd, decide_True by done. rewrite Hdb1.
    rewrite Hexp in Hu. apply elem_of_get_expired_subscriptions in Hu as (r & Hr & _).
    unfold Database.get_user. by rewrite Hr. }
  split; [|split].
  - intros u Hu. split; [by apply Hrow|by apply Hl].
  - intros u Hu. rewrite Hd, decide_False by done. by rewrite Hdb1.
  - apply elem_of_nil_inv. intros u Hu.
    apply elem_of_get_expired_subscriptions in Hu as (r & Hr & H0 & Ht & Ha).
    destruct (decide (u ∈ expired)) as [Hin|Hin].
    + specialize (Hrow u Hin). unfold Database.get_user in Hrow.
      rewrite Hr in Hrow. simpl in Hrow. congruence.
    + specialize (Hd u). rewrite decide_False in Hd by done.
      rewrite Hdb1 in Hd. unfold Database.get_user in Hd. rewrite Hr in Hd.
      apply Hin. rewrite Hexp. apply elem_of_get_expired_subscriptions.
      by exists r.
Qed.

Lemma subscription_checker_tick_result (s : St) :
  (subscription_checker_tick s).1 = Ret ()
  ∨ (subscription_checker_tick s).1 = Raise CancelledError
  ∨ (subscription_checker_tick s).1 = OutOfFuel.
Proof.
  unfold subscription_checker_tick, try_except.
  match goal with |- context [let (_, _) := ?m s in _] =>
    destruct (m s) as [[[]|[]|] s1] end; simpl; auto.
Qed.

Lemma subscription_checker_ticks_result (fuel : nat) (s : St) :
  (subscription_checker_ticks fuel s).1 = Raise CancelledError
  ∨ (subscription_checker_ticks fuel s).1 = OutOfFuel.
Proof.
  revert s. induction fuel as [|fuel IH]; intros s; simpl; [by right|].
  unfold bind. pose proof (subscription_checker_tick_result s) as H.
  destruct (subscription_checker_tick s) as [[[]|e|] s1]; simpl in *.
  - apply IH.
  - destruct H as [H|[H|H]]; [done| |done]. left. congruence.
  - by right.
Qed.

Lemma subscription_checker_ticks_never_cancelled (fuel : nat) (s : St) :
  never_cancelled s → (subscription_checker_ticks fuel s).1 = OutOfFuel.
Proof.
  revert s. induction fuel as [|fuel IH]; intros s Hs; simpl; [done|].
  unfold bind. destruct (calm_subscription_checker_tick s Hs) as [H1 H2].
  pose proof (subscription_checker_tick_result s) as H.
  destruct (subscription_checker_tick s) as [[[]|e|] s1]; simpl in *.
  - by apply IH.
  - destruct H as [H|[H|H]]; done.
  - done.
Qed.

(** X18: the reaper does not die of a fault: whatever the
    store, the transport and the timer do, [_subscription_checker_loop]
    never ends with an exception; and as long as nobody cancels it, it does
    not end at all. *)
Theorem reaper_only_ends_by_cancellation (fuel : nat) (s : St) :
  ((_subscription_checker_loop fuel s).1 = Ret ()
   ∨ (_subscription_checker_loop fuel s).1 = OutOfFuel)
  ∧ (never_cancelled s → (_subscription_checker_loop fuel s).1 = OutOfFuel).
Proof.
  unfold _subscription_checker_loop, try_except.
  pose proof (subscription_checker_ticks_result fuel s) as H.
  pose proof (subscription_checker_ticks_never_cancelled fuel s) as Hn.
  destruct (subscription_checker_ticks fuel s) as [[[]|e|] s1]; simpl in *.
  - by destruct H.
  - destruct H as [H|H]; [|done]. injection H as ->. simpl.
    split; [by left|]. intros Hs. by specialize (Hn Hs).
  - split; [by right|done].
Qed.

End Reaper.

(** ** Shutting down *)







Section Shutdown.
Context {config : Config}.







End Shutdown.

(** ** A delivery round *)

Lemma later_same (s s' : St) : clock s' = clock s → later s s'.
Proof. unfold later. intros ->. apply Qle_refl. Qed.

Ltac later_side :=
  first
    [ exact later_refl | exact later_trans
    | by (intros; apply later_same)
    | intros; apply later_sleep ].

Ltac later_step := keeps_with later_refl later_trans later_side.

Lemma sleep_not_interrupted (d : Q) (s : St) :
  Forall (λ w, w = Elapsed) (timer_script s) →
  ∃ script,
    sleep d s = (Ret (), with_clock (clock s + Qmax d 0)%Q
                           (with_trace (trace s ++ [EvSleep d])
                              (with_timer_script script s))).
Proof.
  intros H. unfold sleep. destruct H as [|w script -> _]; simpl; by eexists.
Qed.

Lemma attempts_app (evs1 evs2 : list event) :
  attempts (evs1 ++ evs2) = attempts evs1 ++ attempts evs2.
Proof. apply omap_app. Qed.

Lemma attempts_delays (evs : list event) :
  Forall (λ e, ∃ d, e = EvSleep d) evs → attempts evs = [].
Proof.
  induction 1 as [|e evs [d ->] _ IH]; [done|]. unfold attempts in *. simpl. done.
Qed.

Section Round.
Context {config : Config}.

Lemma later_send_to_group (c : nat) (body : string) (group : Z) :
  keeps later (send_to_group c body group).
Proof. unfold send_to_group, flood_wait, send_message. repeat later_step. Qed.

(** One destination, when nobody cancels: the message is handed to the
    transport once, and whatever the transport answers the loop goes on. *)
Lemma send_to_group_attempt (c : nat) (body : string) (group : Z) (s : St) :
  never_cancelled s →
  ∃ s' evs,
    send_to_group c body group s = (Ret (), s')
    ∧ trace s' = trace s ++ EvSendMessage c group body :: evs
    ∧ Forall (λ e, ∃ d, e = EvSleep d) evs.
Proof.
  intros (Hs & Ht & Hw).
  destruct (transport_script s) as [|[|[|R|]] script] eqn:Hscript.
  - (* the script is exhausted: the call returns *)
    unfold send_to_group, try_except, bind at 1, send_message, await_transport.
    rewrite Hscript. simpl.
    unfold bind at 1.
    match goal with |- context [uniform 2 5 ?x] =>
      destruct (uniform_spec 2 5 x) as (d & -> & _); [done|] end.
    match goal with |- context [sleep d ?x] =>
      destruct (sleep_not_interrupted d x) as (script' & ->); [done|] end.
    eexists _, [EvSleep d]. split; [reflexivity|]. simpl.
    split; [by rewrite <- app_assoc|]. repeat constructor. by exists d.
  - unfold send_to_group, try_except, bind at 1, send_message, await_transport.
    rewrite Hscript. simpl.
    unfold bind at 1.
    match goal with |- context [uniform 2 5 ?x] =>
      destruct (uniform_spec 2 5 x) as (d & -> & _); [done|] end.
    match goal with |- context [sleep d ?x] =>
      destruct (sleep_not_interrupted d x) as (script' & ->); [done|] end.
    eexists _, [EvSleep d]. split; [reflexivity|]. simpl.
    split; [by rewrite <- app_assoc|]. repeat constructor. by exists d.
  - apply Forall_cons in Ht as [Ht _]. done.
  - destruct (send_to_group_flood c body group s R script Hscript)
      as (r & _ & _ & ->).
    match goal with |- context [sleep ?d ?x] =>
      destruct (sleep_not_interrupted d x) as (script' & ->); [done|] end.
    eexists _, [EvSleep _]. split; [reflexivity|]. simpl.
    split; [by rewrite <- app_assoc|]. repeat constructor. by eexists.
  - unfold send_to_group, try_except, bind at 1, send_message, await_transport.
    rewrite Hscript. simpl.
    eexists _, []. split; [reflexivity|]. simpl. split; [done|constructor].
Qed.

(** The [for] loop over the destinations, when nobody cancels. *)
Lemma for_each_attempts (c : nat) (body : string) (groups : list Z) :
  ∀ s, never_cancelled s →
  ∃ s' evs,
    for_each groups (send_to_group c body) s = (Ret (), s')
    ∧ trace s' = trace s ++ evs
    ∧ attempts evs = (λ g, (c, g, body)) <$> groups
    ∧ Forall delivery_event evs
    ∧ never_cancelled s'
    ∧ later s s'.
Proof.
  induction groups as [|g groups IH]; intros s Hs.
  - exists s, []. split; [done|]. split; [by rewrite app_nil_r|].
    split; [done|]. split; [constructor|]. split; [done|apply later_refl].
  - simpl. unfold bind.
    destruct (send_to_group_attempt c body g s Hs) as (s1 & evs1 & Hrun & Htr & Hev).
    pose proof (calm_send_to_group c body g s Hs) as [Hs1 _].
    pose proof (later_send_to_group c body g s) as Hl1.
    rewrite Hrun in Hs1, Hl1 |- *. simpl in Hs1, Hl1.
    destruct (IH s1 Hs1) as (s' & evs & -> & Htr' & Hat & Hdel & Hs' & Hl').
    exists s', (EvSendMessage c g body :: evs1 ++ evs).
    split; [done|]. split; [|split; [|split; [|split]]].
    + rewrite Htr', Htr. by rewrite <- app_assoc.
    + change (EvSendMessage c g body :: evs1 ++ evs)
        with ([EvSendMessage c g body] ++ (evs1 ++ evs)).
      rewrite !attempts_app, (attempts_delays evs1 Hev), Hat. done.
    + constructor; [done|]. apply Forall_app. split; [|done].
      eapply Forall_impl; [exact Hev|]. by intros e [d ->].
    + done.
    + by apply later_trans with s1.
Qed.

Lemma await_query_tail {A} (q : Z → Database.tables → A) (n : nat) (s : St) :
  answers (S n) (store_script s) →
  await_query q s
  = (Ret (q (now s) (db s)), with_store_script (tail (store_script s)) s)
  ∧ answers n (tail (store_script s)).
Proof.
  intros H. unfold await_query.
  destruct (store_script s) as [|o script]; simpl; [split; [done|apply answers_nil]|].
  apply Forall_cons in H as [-> H]. done.
Qed.

Lemma drop_5_tail {A} (l : list A) :
  tail (tail (tail (tail (tail l)))) = drop 5 l.
Proof. by destruct l as [|? [|? [|? [|? [|? ?]]]]]. Qed.

(** The checks at the head of a cycle, passed by a user who is ready. *)
Lemma cycle_passes_checks (user_id : Z) (s : St) (u : Database.user_row)
    (p : Database.profile_row) (m : Database.message_row) (g : Z) (gs : list Z) :
  answers 5 (store_script s) →
  Database.users (db s) !! user_id = Some u →
  Database.is_active u ≠ 0 → Database.is_banned u ≠ 1 →
  now s < Database.subscription_until u →
  Database.get_profile user_id (db s) = Some p →
  Database.get_message user_id (db s) = Some m →
  Database.get_user_groups user_id (db s) = g :: gs →
  cycle user_id s
  = try_except (send_cycle user_id p m (g :: gs) ;; ret true)
      (on_cycle_error user_id) (with_store_script (drop 5 (store_script s)) s).
Proof.
  intros Hs Hu Hact Hban Hsub Hp Hm Hg. rewrite <- drop_5_tail.
  unfold cycle. unfold bind at 1.
  destruct (await_query_tail (λ _, Database.get_user user_id) 4 s Hs) as [-> H4].
  unfold Database.get_user. rewrite Hu.
  rewrite !bool_decide_eq_false_2 by done. cbn [orb].
  unfold bind at 1.
  set (s1 := with_store_script (tail (store_script s)) s).
  destruct (await_query_tail (λ t, Database.check_subscription t user_id) 3 s1 H4)
    as [-> H3].
  assert (Hcs : Database.check_subscription (now s1) user_id (db s1) = true).
  { unfold Database.check_subscription. change (db s1) with (db s). rewrite Hu.
    apply bool_decide_eq_true. exact Hsub. }
  rewrite Hcs. cbn [negb].
  set (s2 := with_store_script (tail (store_script s1)) s1).
  unfold bind at 1.
  destruct (await_query_tail (λ _, Database.get_profile user_id) 2 s2 H3) as [-> H2].
  set (s3 := with_store_script (tail (store_script s2)) s2).
  unfold bind at 1.
  destruct (await_query_tail (λ _, Database.get_message user_id) 1 s3 H2) as [-> H1].
  set (s4 := with_store_script (tail (store_script s3)) s3).
  unfold bind at 1.
  destruct (await_query_tail (λ _, Database.get_user_groups user_id) 0 s4 H1)
    as [-> _].
  change (db s2) with (db s). change (db s3) with (db s). change (db s4) with (db s).
  rewrite Hp, Hm, Hg. reflexivity.
Qed.

Lemma preserves_db_for_each_send (c : nat) (body : string) (groups : list Z) :
  preserves db (for_each groups (send_to_group c body)).
Proof. apply preserves_for_each. intros g. apply preserves_db_send_to_group. Qed.

Lemma preserves_frame_for_each_send (c : nat) (body : string) (groups : list Z) :
  preserves (λ s, (clients s, client s, client_objs s))
    (for_each groups (send_to_group c body)).
Proof.
  apply preserves_for_each. intros g.
  unfold send_to_group, flood_wait, send_message. repeat preserves_step.
Qed.

(** Lines 191-214 once the client is at hand: the destinations, the reset of
    the retry counter, and the pause before the next round. *)
Lemma round_tail (c : nat) (body : string) (groups : list Z) (s : St) :
  never_cancelled s →
  DEFAULT_RANDOM_INTERVAL_MIN ≤ DEFAULT_RANDOM_INTERVAL_MAX →
  ∃ s' evs n,
    (for_each groups (send_to_group c body) ;;
     modify (with_retry_count 0) ;;
     interval ← randint DEFAULT_RANDOM_INTERVAL_MIN DEFAULT_RANDOM_INTERVAL_MAX;
     sleep (inject_Z interval)) s = (Ret (), s')
    ∧ trace s' = trace s ++ evs ++ [EvSleep (inject_Z n)]
    ∧ attempts evs = (λ g, (c, g, body)) <$> groups
    ∧ Forall delivery_event evs
    ∧ DEFAULT_RANDOM_INTERVAL_MIN ≤ n ∧ n ≤ DEFAULT_RANDOM_INTERVAL_MAX
    ∧ retry_count s' = 0
    ∧ db s' = db s
    ∧ clients s' = clients s
    ∧ client s' = client s
    ∧ client_objs s' = client_objs s
    ∧ (clock s + inject_Z n <= clock s')%Q.
Proof.
  intros Hs Hcfg.
  pose proof (preserves_db_for_each_send c body groups s) as Hdb.
  pose proof (preserves_frame_for_each_send c body groups s) as Hfr.
  destruct (for_each_attempts c body groups s Hs)
    as (s1 & evs & Hrun & Htr & Hat & Hdel & Hs1 & Hl1).
  unfold bind at 1. rewrite Hrun in Hdb, Hfr |- *. simpl in Hdb, Hfr.
  injection Hfr as Hf1 Hf2 Hf3.
  unfold bind at 1, modify at 1. cbn [fst snd].
  unfold bind at 1.
  destruct (randint_spec DEFAULT_RANDOM_INTERVAL_MIN DEFAULT_RANDOM_INTERVAL_MAX
              (with_retry_count 0 s1) Hcfg) as (n & -> & Hlo & Hhi).
  match goal with |- context [sleep ?d ?x] =>
    destruct (sleep_not_interrupted d x) as (script' & ->);
      [by destruct Hs1 as (_ & _ & ?)|] end.
  eexists _, evs, n. split; [reflexivity|]. simpl.
  split; [by rewrite Htr, <- app_assoc|].
  split; [done|]. split; [done|]. split; [done|]. split; [done|].
  split; [done|]. split; [done|]. split; [done|]. split; [done|].
  split; [done|].
  unfold later in Hl1.
  apply Qle_trans with (clock s1 + inject_Z n)%Q.
  - by apply Qplus_le_l.
  - apply Qplus_le_r. apply Q.le_max_l.
Qed.

(** X21: a round of a ready user whose connection is open, when nobody
    cancels.  The pooled connection is reused: no connect is made.  Every
    destination is attempted exactly once, in the order of the user's list,
    whatever the transport answers for the others; nothing is written to
    the store; the retry counter is back at 0; and the round ends with a
    pause of between [DEFAULT_RANDOM_INTERVAL_MIN] and
    [DEFAULT_RANDOM_INTERVAL_MAX] seconds, so that the next round starts at
    least that much later. *)
Theorem delivery_round (user_id : Z) (s : St) (u : Database.user_row)
    (p : Database.profile_row) (m : Database.message_row) (g : Z) (gs : list Z)
    (c : nat) :
  Database.users (db s) !! user_id = Some u →
  Database.is_active u ≠ 0 → Database.is_banned u ≠ 1 →
  now s < Database.subscription_until u →
  Database.get_profile user_id (db s) = Some p →
  Database.get_message user_id (db s) = Some m →
  Database.get_user_groups user_id (db s) = g :: gs →
  client s = Some c → is_connected c s = true →
  answers 5 (store_script s) →
  never_cancelled s →
  DEFAULT_RANDOM_INTERVAL_MIN ≤ DEFAULT_RANDOM_INTERVAL_MAX →
  ∃ s' evs n,
    cycle user_id s = (Ret true, s')
    ∧ trace s' = trace s ++ evs ++ [EvSleep (inject_Z n)]
    ∧ attempts evs = (λ x, (c, x, Database.text m)) <$> (g :: gs)
    ∧ Forall delivery_event evs
    ∧ DEFAULT_RANDOM_INTERVAL_MIN ≤ n ∧ n ≤ DEFAULT_RANDOM_INTERVAL_MAX
    ∧ retry_count s' = 0
    ∧ db s' = db s
    ∧ client s' = Some c
    ∧ is_connected c s' = true
    ∧ (clock s + inject_Z n <= clock s')%Q.
Proof.
  intros Hu Hact Hban Hsub Hp Hm Hg Hc Hup Hans Hs Hcfg.
  rewrite (cycle_passes_checks user_id s u p m g gs) by done.
  set (s0 := with_store_script (drop 5 (store_script s)) s).
  assert (Hs0 : never_cancelled s0).
  { destruct Hs as (H1 & H2 & H3). split; [|done]. by apply Forall_drop. }
  destruct (round_tail c (Database.text m) (g :: gs) s0 Hs0 Hcfg)
    as (s' & evs & n & Hrun & Htr & Hat & Hdel & Hlo & Hhi & Hrc & Hdb
        & _ & Hcur & Hobjs & Hcl).
  assert (Hsc : send_cycle user_id p m (g :: gs) s0 = (Ret (), s')).
  { unfold send_cycle. unfold bind at 1, gets at 1. cbn [fst snd].
    change (client s0) with (client s). rewrite Hc.
    unfold bind at 1. unfold bind at 1, gets at 1. cbn [fst snd].
    change (is_connected c s0) with (is_connected c s). rewrite Hup.
    unfold ret at 1. exact Hrun. }
  exists s', evs, n. split.
  - unfold try_except, bind at 1. rewrite Hsc. done.
  - split; [done|]. split; [done|]. split; [done|]. split; [done|].
    split; [done|]. split; [done|]. split; [done|].
    split; [by rewrite Hcur|]. split; [|done].
    unfold is_connected in *. by rewrite Hobjs.
Qed.

(** Lines 187-214 for a loop that has no client yet, when the connection
    succeeds. *)
Lemma first_send_cycle (user_id : Z) (s : St) (p : Database.profile_row)
    (m : Database.message_row) (groups : list Z) :
  client s = None → clients s !! user_id = None →
  answers 1 (transport_script s) →
  never_cancelled s →
  DEFAULT_RANDOM_INTERVAL_MIN ≤ DEFAULT_RANDOM_INTERVAL_MAX →
  let c := length (client_objs s) in
  ∃ s' evs n,
    send_cycle user_id p m groups s = (Ret (), s')
    ∧ trace s' = trace s ++ EvConnect c :: evs ++ [EvSleep (inject_Z n)]
    ∧ attempts evs = (λ x, (c, x, Database.text m)) <$> groups
    ∧ Forall delivery_event evs
    ∧ DEFAULT_RANDOM_INTERVAL_MIN ≤ n ∧ n ≤ DEFAULT_RANDOM_INTERVAL_MAX
    ∧ retry_count s' = 0
    ∧ db s' = db s
    ∧ client s' = Some c
    ∧ clients s' !! user_id = Some c
    ∧ is_connected c s' = true.
Proof.
  intros Hc Hpool Htr Hs Hcfg. cbv zeta.
  apply answers_next in Htr as (script & Hnext & _).
  set (s1 := with_client (Some (length (client_objs s)))
               (with_clients (<[user_id := length (client_objs s)]> (clients s))
                  (set_connected true (length (client_objs s))
                     (with_trace (trace s ++ [EvConnect (length (client_objs s))])
                        (with_transport_script script
                           (with_client_objs
                              (client_objs s ++ [ClientObj (Database.session p) false])
                              s)))))).
  assert (Hs1 : never_cancelled s1).
  { destruct Hs as (H1 & H2 & H3). split; [done|]. split; [|done].
    change (transport_script s1) with script.
    destruct (transport_script s) as [|o rest]; simpl in Hnext.
    - injection Hnext as <-. constructor.
    - injection Hnext as -> ->. by apply Forall_cons in H2 as [_ ?]. }
  destruct (round_tail (length (client_objs s)) (Database.text m) groups s1 Hs1 Hcfg)
    as (s' & evs & n & Hrun & Htrace & Hat & Hdel & Hlo & Hhi & Hrc & Hdb
        & Hpool' & Hcur & Hobjs & _).
  exists s', evs, n. split.
  { unfold send_cycle. unfold bind at 1, gets at 1. cbn [fst snd].
    rewrite Hc.
    unfold bind at 1. unfold bind at 1.
    unfold create_client. unfold bind at 1, gets at 1. cbn [fst snd].
    rewrite Hpool.
    unfold bind at 1, ret at 1. cbn [fst snd].
    unfold bind at 1, new_client. cbn [fst snd].
    unfold bind at 1, connect, await_transport. cbn [fst snd transport_script
      with_client_objs].
    rewrite Hnext.
    cbn [fst snd]. unfold bind at 1, modify at 1. cbn [fst snd].
    unfold ret at 1. cbn [fst snd].
    unfold bind at 1, modify at 1. cbn [fst snd].
    unfold ret at 1. exact Hrun. }
  split.
  { rewrite Htrace. change (trace s1) with
      (trace s ++ [EvConnect (length (client_objs s))]). by rewrite <- app_assoc. }
  split; [done|]. split; [done|]. split; [done|]. split; [done|].
  split; [done|]. split; [done|].
  split; [by rewrite Hcur|].
  split; [rewrite Hpool'; apply lookup_insert_eq|].
  unfold is_connected. rewrite Hobjs.
  apply (is_connected_after_connect (Database.session p) s).
Qed.

(** X22: the first round of a ready user who has no client yet,
    when the transport lets the connection through and nobody cancels: one
    connect is made, the new client is pooled and kept by the loop, and
    every destination is then attempted exactly once, in order. *)
Theorem first_delivery_round (user_id : Z) (s : St) (u : Database.user_row)
    (p : Database.profile_row) (m : Database.message_row) (g : Z) (gs : list Z) :
  Database.users (db s) !! user_id = Some u →
  Database.is_active u ≠ 0 → Database.is_banned u ≠ 1 →
  now s < Database.subscription_until u →
  Database.get_profile user_id (db s) = Some p →
  Database.get_message user_id (db s) = Some m →
  Database.get_user_groups user_id (db s) = g :: gs →
  client s = None → clients s !! user_id = None →
  answers 5 (store_script s) →
  answers 1 (transport_script s) →
  never_cancelled s →
  DEFAULT_RANDOM_INTERVAL_MIN ≤ DEFAULT_RANDOM_INTERVAL_MAX →
  let c := length (client_objs s) in
  ∃ s' evs n,
    cycle user_id s = (Ret true, s')
    ∧ trace s' = trace s ++ EvConnect c :: evs ++ [EvSleep (inject_Z n)]
    ∧ attempts evs = (λ x, (c, x, Database.text m)) <$> (g :: gs)
    ∧ Forall delivery_event evs
    ∧ DEFAULT_RANDOM_INTERVAL_MIN ≤ n ∧ n ≤ DEFAULT_RANDOM_INTERVAL_MAX
    ∧ retry_count s' = 0
    ∧ db s' = db s
    ∧ client s' = Some c
    ∧ clients s' !! user_id = Some c
    ∧ is_connected c s' = true.
Proof.
  intros Hu Hact Hban Hsub Hp Hm Hg Hc Hpool Hans Htr Hs Hcfg. cbv zeta.
  rewrite (cycle_passes_checks user_id s u p m g gs) by done.
  set (s0 := with_store_script (drop 5 (store_script s)) s).
  assert (Hs0 : never_cancelled s0).
  { destruct Hs as (H1 & H2 & H3). split; [|done]. by apply Forall_drop. }
  destruct (first_send_cycle user_id s0 p m (g :: gs) Hc Hpool Htr Hs0 Hcfg)
    as (s' & evs & n & Hsc & Hrest).
  exists s', evs, n. split.
  - unfold try_except, bind at 1. rewrite Hsc. done.
  - exact Hrest.
Qed.

End Round.

(** ** How the send loop ends *)

Section Exits.
Context {config : Config}.

Lemma cycle_inactive (user_id : Z) (s : St) :
  answers 1 (store_script s) →
  (∀ r, Database.get_user user_id (db s) = Some r →
        Database.is_active r = 0 ∨ Database.is_banned r = 1) →
  ∃ script, cycle user_id s = (Ret false, with_store_script script s).
Proof.
  intros Hs Hrow. unfold cycle. unfold bind at 1. store_step Hs.
  exists script.
  destruct (Database.get_user user_id (db s)) as [r|]; simpl; [|done].
  destruct (Hrow r eq_refl) as [Hr|Hr]; rewrite Hr; simpl; [done|].
  by rewrite orb_true_r.
Qed.

(** X23: a loop whose user is unknown, flagged inactive or banned
    (as after [ban_user], [remove_subscription] or a stop) ends at its next
    cycle by a [break]: it sends nothing, writes nothing, and its cleanup
    drops the registry entry and the pooled client. *)
Theorem inactive_user_leaves_the_loop (fuel : nat) (user_id : Z) (s : St) :
  answers 1 (store_script s) →
  (∀ r, Database.get_user user_id (db s) = Some r →
        Database.is_active r = 0 ∨ Database.is_banned r = 1) →
  ∃ s' post,
    _sending_loop_from (S fuel) user_id s = (Ret ByBreak, s')
    ∧ trace s' = trace s ++ post
    ∧ Forall teardown_event post
    ∧ db s' = db s
    ∧ active_tasks s' !! user_id = None
    ∧ clients s' !! user_id = None.
Proof.
  intros Hs Hrow.
  destruct (cycle_inactive user_id s Hs Hrow) as (script & Hcycle).
  assert (Hg : guarded_cycles (S fuel) user_id s
               = (Ret ByBreak, with_store_script script s)).
  { unfold guarded_cycles, try_except, bind. simpl. unfold bind.
    by rewrite Hcycle. }
  rewrite sending_loop_from_unfold by (by rewrite Hg).
  rewrite Hg. simpl.
  set (s1 := with_store_script _ _).
  destruct (emits_cleanup teardown_event (λ e H, H) user_id s1)
    as (post & Hpost & Hall).
  exists (cleanup user_id s1).2, post.
  split; [done|]. split; [done|]. split; [done|].
  split; [by rewrite preserves_db_cleanup|].
  destruct (cleanup_drops_entries user_id s1). done.
Qed.

(** X24: a fault of the store at the head of a cycle ends the loop.
    When the store then takes the write of the outer handler, the loop ends
    by that handler with the user flagged inactive.  When that write fails
    too, the loop ends with this second exception and the flag is left as it
    was.  Either way the cleanup has run: no registry entry, no pooled
    client. *)
Theorem store_fault_ends_the_loop (fuel : nat) (user_id : Z) (s : St)
    (e : exn) (script : list outcome) :
  store_script s = Raises e :: script →
  e ≠ CancelledError →
  (answers 1 script →
   ∃ s' post,
     _sending_loop_from (S fuel) user_id s = (Ret ByFault, s')
     ∧ trace s' = trace s ++ EvSetActive user_id 0 :: post
     ∧ Forall teardown_event post
     ∧ Database.is_active <$> Database.get_user user_id (db s')
       = (λ _, 0) <$> Database.get_user user_id (db s)
     ∧ active_tasks s' !! user_id = None
     ∧ clients s' !! user_id = None)
  ∧ (∀ e' script', script = Raises e' :: script' →
     ∃ s' post,
       _sending_loop_from (S fuel) user_id s = (Raise e', s')
       ∧ trace s' = trace s ++ post
       ∧ Forall teardown_event post
       ∧ db s' = db s
       ∧ active_tasks s' !! user_id = None
       ∧ clients s' !! user_id = None).
Proof.
  intros Hscript He.
  assert (Hc : cycles (S fuel) user_id s = (Raise e, with_store_script script s)).
  { simpl. unfold bind at 1, cycle, bind at 1, await_query. by rewrite Hscript. }
  split.
  - intros Hans. apply answers_next in Hans as (script1 & Hn & _).
    assert (Hg : guarded_cycles (S fuel) user_id s
                 = (Ret ByFault,
                    with_trace (trace s ++ [EvSetActive user_id 0])
                      (with_db (Database.update_user_active_status (now s) user_id 0
                                  (db s))
                         (with_store_script script1 s)))).
    { unfold guarded_cycles, try_except, bind at 1. rewrite Hc.
      destruct e; [done| |];
        unfold bind, await_update_user_active_status; simpl; by rewrite Hn. }
    rewrite sending_loop_from_unfold by (by rewrite Hg).
    rewrite Hg. simpl.
    set (s1 := with_trace _ _).
    destruct (emits_cleanup teardown_event (λ e H, H) user_id s1)
      as (post & Hpost & Hall).
    exists (cleanup user_id s1).2, post.
    split; [done|]. split.
    { rewrite Hpost. subst s1. simpl. by rewrite <- app_assoc. }
    split; [done|]. split.
    { rewrite preserves_db_cleanup. subst s1. simpl.
      rewrite get_user_update_user_active_status.
      by destruct (Database.get_user user_id (db s)). }
    destruct (cleanup_drops_entries user_id s1). done.
  - intros e' script' ->.
    assert (Hg : guarded_cycles (S fuel) user_id s
                 = (Raise e', with_store_script script' s)).
    { unfold guarded_cycles, try_except, bind at 1. rewrite Hc.
      destruct e; [done| |];
        unfold bind, await_update_user_active_status; simpl; done. }
    rewrite sending_loop_from_unfold by (by rewrite Hg).
    rewrite Hg. simpl.
    set (s1 := with_store_script _ _).
    destruct (emits_cleanup teardown_event (λ e H, H) user_id s1)
      as (post & Hpost & Hall).
    exists (cleanup user_id s1).2, post.
    split; [done|]. split; [done|]. split; [done|].
    split; [by rewrite preserves_db_cleanup|].
    destruct (cleanup_drops_entries user_id s1). done.
Qed.

Lemma calm_guarded_cycles_result (fuel : nat) (user_id : Z) (s : St) :
  never_cancelled s →
  never_cancelled (guarded_cycles fuel user_id s).2
  ∧ (guarded_cycles fuel user_id s).1 ≠ Ret ByCancellation
  ∧ (guarded_cycles fuel user_id s).1 ≠ Raise CancelledError.
Proof.
  intros Hs. destruct (guarded_cycles fuel user_id s) as [r s2] eqn:Hg. simpl.
  unfold guarded_cycles, try_except, bind at 1 in Hg.
  destruct (calm_cycles fuel user_id s Hs) as [Hs1 Hr].
  destruct (cycles fuel user_id s) as [[[]|e|] s1]; simpl in *.
  - by injection Hg as <- <-.
  - pose proof (calm_await_update_user_active_status user_id 0 s1 Hs1) as [H1 H2].
    destruct e; [done| |]; unfold bind in Hg;
      destruct (await_update_user_active_status user_id 0 s1) as [[[]|e'|] s3];
      simpl in *; injection Hg as <- <-; (split; [done|]); split; try done;
      intros [= ->]; done.
  - by injection Hg as <- <-.
Qed.

(** X25: the loop reports a cancellation only when it was
    cancelled: as long as no call and no sleep of the loop is interrupted,
    [_sending_loop] neither ends by its [except asyncio.CancelledError]
    clause nor lets a [CancelledError] escape, whatever faults the store and
    the transport produce. *)
Theorem uncancelled_loop_does_not_end_by_cancellation
    (fuel : nat) (user_id : Z) (s : St) :
  never_cancelled s →
  (_sending_loop fuel user_id s).1 ≠ Ret ByCancellation
  ∧ (_sending_loop fuel user_id s).1 ≠ Raise CancelledError.
Proof.
  intros Hs. rewrite sending_loop_enters.
  set (s0 := with_client None (with_retry_count 0 s)).
  assert (Hs0 : never_cancelled s0) by exact Hs.
  destruct (calm_guarded_cycles_result fuel user_id s0 Hs0) as (Hs1 & H1 & H2).
  destruct (_sending_loop_from fuel user_id s0) as [r s3] eqn:Hl. simpl.
  unfold _sending_loop_from, try_finally in Hl.
  destruct (guarded_cycles fuel user_id s0) as [[p|e|] s1]; simpl in *.
  - pose proof (cleanup_returns user_id s1) as Hc.
    destruct (cleanup user_id s1) as [[[]|e'|] s2]; simpl in *; try done.
    injection Hl as <- <-. split; [|done]. intros [= ->]. done.
  - pose proof (cleanup_returns user_id s1) as Hc.
    destruct (cleanup user_id s1) as [[[]|e'|] s2]; simpl in *; try done.
    injection Hl as <- <-. split; [done|]. intros [= ->]. done.
  - by injection Hl as <- <-.
Qed.

End Exits.

(** ** Restore on boot: the users it does not start *)

Section RestoreMore.
Context {config : Config}.

Lemma restore_user_expired (user_id : Z) (s : St) (u : Database.user_row) :
  store_script s = [] →
  Database.users (db s) !! user_id = Some u →
  Database.subscription_until u ≤ now s →
  restore_user user_id s
  = (Ret (), with_trace (trace s ++ [EvSetActive user_id 0])
               (with_db (Database.update_user_active_status (now s) user_id 0 (db s))
                  (with_store_script [] s))).
Proof.
  intros Hs Hu Hsub. unfold restore_user, bind at 1.
  rewrite await_query_nil by done. cbn [fst snd].
  unfold Database.check_subscription. rewrite Hu.
  rewrite bool_decide_eq_false_2 by lia. cbn [negb].
  by rewrite await_update_nil.
Qed.

(** X26: on boot, a user persisted as active whose
    subscription has run out is not started: with a store that answers,
    [restore_active_tasks] clears the user's flag, never calls
    [start_sending] for the user, creates no task for the user and leaves
    the user's registry entry as it was. *)
Theorem restore_clears_expired_user (user_id : Z) (s : St) (u : Database.user_row) :
  store_script s = [] →
  Database.users (db s) !! user_id = Some u →
  Database.is_active u = 1 → Database.is_banned u = 0 →
  Database.subscription_until u ≤ now s →
  ∃ s' evs,
    restore_active_tasks s = (Ret (), s')
    ∧ trace s' = trace s ++ evs
    ∧ Database.is_active <$> Database.get_user user_id (db s') = Some 0
    ∧ Forall (no_spawn user_id) evs
    ∧ active_tasks s' !! user_id = active_tasks s !! user_id.
Proof.
  intros Hs Hu Hact Hban Hsub.
  unfold restore_active_tasks, bind at 1. rewrite await_query_nil by done.
  set (s0 := with_store_script [] s).
  assert (Hin : (user_id, u) ∈ Database.get_active_users (db s)).
  { by apply elem_of_get_active_users. }
  pose proof (NoDup_get_active_users (db s)) as Hnd.
  apply list_elem_of_split in Hin as (l1 & l2 & Hl). rewrite Hl in Hnd |- *.
  rewrite fmap_app, fmap_cons in Hnd. simpl in Hnd.
  apply NoDup_app in Hnd as (_ & Hn1 & Hn2).
  apply NoDup_cons in Hn2 as [Hn2 _].
  assert (Hn1' : user_id ∉ l1.*1).
  { intros Hx. apply (Hn1 _ Hx). by left. }
  destruct (restore_users_untouched user_id l1 s0 Hn1' eq_refl)
    as (s1 & Hr1 & U1).
  destruct U1 as (A1 & A2 & A3 & A4 & A5 & A6 & A7 & A8 & e1 & Ht1 & He1).
  assert (Hu1 : Database.users (db s1) !! user_id = Some u).
  { unfold Database.get_user in A1. by rewrite A1. }
  assert (Hsub1 : Database.subscription_until u ≤ now s1).
  { unfold now. by rewrite A6. }
  pose proof (restore_user_expired user_id s1 u (A7 eq_refl) Hu1 Hsub1) as Hr2.
  set (s2 := with_trace _ _) in Hr2.
  destruct (restore_users_untouched user_id l2 s2 Hn2 eq_refl) as (s3 & Hr3 & U3).
  destruct (start_subscription_checker_untouched user_id s3) as (s4 & Hr4 & U4).
  pose proof (untouched_trans _ _ _ _ U3 U4) as U.
  destruct U as (B1 & B2 & B3 & B4 & B5 & B6 & B7 & B8 & e3 & Ht3 & He3).
  assert (Hrun : (for_each (l1 ++ (user_id, u) :: l2)
                    (λ user, restore_user user.1) ;; start_subscription_checker) s0
                 = (Ret (), s4)).
  { unfold bind at 1. rewrite for_each_app. unfold bind at 1. rewrite Hr1.
    simpl. unfold bind at 1. rewrite Hr2. by rewrite Hr3. }
  unfold bind at 1 in Hrun. unfold bind at 1. rewrite Hrun. clear Hrun.
  exists s4, (e1 ++ [EvSetActive user_id 0] ++ e3). split; [done|]. split.
  { rewrite Ht3. subst s2. simpl. rewrite Ht1. subst s0. simpl.
    by rewrite <- !app_assoc. }
  split.
  { rewrite B1. subst s2. simpl. rewrite get_user_update_user_active_status.
    unfold Database.get_user. by rewrite Hu1. }
  split.
  { rewrite !Forall_app. split; [done|]. split; [|done].
    repeat constructor; discriminate. }
  rewrite B5. subst s2. simpl. by rewrite A5.
Qed.

(** X27: on boot, a user who is not persisted as active, or
    who is banned, is left exactly as found: with a store that answers,
    [restore_active_tasks] changes neither the user's row nor the user's
    registry entry, and starts nothing for the user. *)
Theorem restore_leaves_inactive_users_alone (user_id : Z) (s : St) :
  store_script s = [] →
  (∀ r, Database.users (db s) !! user_id = Some r →
        Database.is_active r ≠ 1 ∨ Database.is_banned r ≠ 0) →
  ∃ s' evs,
    restore_active_tasks s = (Ret (), s')
    ∧ trace s' = trace s ++ evs
    ∧ Forall (no_spawn user_id) evs
    ∧ Database.get_user user_id (db s') = Database.get_user user_id (db s)
    ∧ active_tasks s' !! user_id = active_tasks s !! user_id.
Proof.
  intros Hs Hrow.
  unfold restore_active_tasks, bind at 1. rewrite await_query_nil by done.
  set (s0 := with_store_script [] s).
  assert (Hn : user_id ∉ (Database.get_active_users (db s)).*1).
  { rewrite elem_of_active_ids. intros (r & Hr & Ha & Hb).
    destruct (Hrow r Hr); done. }
  destruct (restore_users_untouched user_id _ s0 Hn eq_refl) as (s1 & Hr1 & U1).
  destruct (start_subscription_checker_untouched user_id s1) as (s2 & Hr2 & U2).
  pose proof (untouched_trans _ _ _ _ U1 U2) as U.
  destruct U as (B1 & B2 & B3 & B4 & B5 & B6 & B7 & B8 & evs & Ht & He).
  exists s2, evs. unfold bind at 1. rewrite Hr1. cbn [fst snd].
  split; [done|]. split; [done|]. split; [done|]. split; [done|]. done.
Qed.

End RestoreMore.

(** ** Stopping a loop that runs *)

Section StopRunning.
Context {config : Config}.

(** X28: [stop_sending] on a user whose loop is suspended at an
    [await] with an open connection, when the store and the transport
    answer: the loop is cancelled and runs its cleanup, which closes the
    connection; the teardown of [stop_sending] itself then finds no pooled
    client, so the connection is closed exactly once.  Afterwards the task
    is done, the client is disconnected, the user has no registry entry and
    no pooled client, and is flagged inactive. *)
Theorem stop_sending_ends_a_running_loop (user_id : Z) (s : St) (t c : nat) :
  active_tasks s !! user_id = Some t →
  task_objs s !! t = Some (TaskObj (SendingLoop user_id) (Suspended (Some c))) →
  clients s !! user_id = Some c →
  is_connected c s = true →
  answers 1 (store_script s) →
  answers 1 (transport_script s) →
  ∃ s',
    stop_sending user_id s = (Ret (), s')
    ∧ trace s' = trace s ++ [EvStopSending user_id; EvSetActive user_id 0;
                             EvCancel t; EvDisconnect c; EvDelClient user_id;
                             EvDelTask user_id; EvDelTask user_id]
    ∧ done t s' = true
    ∧ is_connected c s' = false
    ∧ active_tasks s' !! user_id = None
    ∧ clients s' !! user_id = None
    ∧ Database.is_active <$> Database.get_user user_id (db s')
      = (λ _, 0) <$> Database.get_user user_id (db s).
Proof.
  intros Hreg Htask Hpool Hup Hs Ht.
  destruct (stop_sending_answers user_id 0 s Hs) as (script & _ & ->).
  apply answers_next in Ht as (tscript & Hnext & _).
  set (s1 := after_stop_write user_id script s).
  assert (Hstop : stop_task user_id s1
                  = (Ret (),
                     with_trace (trace s1 ++ [EvCancel t; EvDisconnect c;
                                              EvDelClient user_id; EvDelTask user_id;
                                              EvDelTask user_id])
                       (with_active_tasks
                          (delete user_id (delete user_id (active_tasks s)))
                          (set_task_state t Finished
                             (with_clients (delete user_id (clients s))
                                (set_connected false c
                                   (with_transport_script tscript
                                      (with_client (Some c) s1)))))))).
  { unfold stop_task, bind at 1, gets at 1. cbn [fst snd].
    change (active_tasks s1 !! user_id) with (active_tasks s !! user_id).
    rewrite Hreg. unfold bind at 1. unfold bind at 1, gets at 1. cbn [fst snd].
    assert (Hd : done t s1 = false).
    { unfold done. change (task_objs s1) with (task_objs s). by rewrite Htask. }
    rewrite Hd.
    unfold cancel_and_await, bind at 1, emit, modify at 1. cbn [fst snd].
    unfold bind at 1, gets at 1. cbn [fst snd task_objs with_trace].
    change (task_objs s1) with (task_objs s). rewrite Htask.
    unfold bind at 1, modify at 1. cbn [fst snd].
    unfold bind at 1.
    set (s2 := with_client (Some c) (with_trace (trace s1 ++ [EvCancel t]) s1)).
    assert (Hcl : cleanup user_id s2
                  = (Ret (),
                     with_trace (trace s1 ++ [EvCancel t; EvDisconnect c;
                                              EvDelClient user_id; EvDelTask user_id])
                       (with_active_tasks (delete user_id (active_tasks s))
                          (with_clients (delete user_id (clients s))
                             (set_connected false c
                                (with_transport_script tscript s2)))))).
    { unfold cleanup, bind at 1, gets at 1. cbn [fst snd].
      change (client s2) with (Some c).
      unfold bind at 1. unfold bind at 1, gets at 1. cbn [fst snd].
      change (is_connected c s2) with (is_connected c s). rewrite Hup.
      unfold try_except, disconnect, await_transport.
      change (transport_script s2) with (transport_script s). rewrite Hnext.
      cbn [fst snd].
      unfold bind at 1, gets at 1. cbn [fst snd clients with_trace
        with_transport_script set_connected with_client_objs].
      change (clients s2 !! user_id) with (clients s !! user_id). rewrite Hpool.
      unfold bind at 1, del_client, modify at 1. cbn [fst snd].
      unfold bind at 1, gets at 1. cbn [fst snd active_tasks with_trace with_clients
        with_transport_script set_connected with_client_objs].
      change (active_tasks s2 !! user_id) with (active_tasks s !! user_id).
      rewrite Hreg. unfold del_task, modify.
      f_equal. unfold s2. simpl. rewrite <- !app_assoc. reflexivity. }
    rewrite Hcl. cbn [fst snd]. unfold modify at 1. cbn [fst snd].
    unfold del_task, modify. f_equal. unfold s2. simpl.
    rewrite <- !app_assoc. reflexivity. }
  rewrite Hstop. cbn [fst snd].
  match goal with |- context [stop_client user_id ?x] => set (s3 := x) end.
  assert (Hc3 : clients s3 !! user_id = None).
  { unfold s3. simpl. apply lookup_delete_eq. }
  rewrite (stop_client_without_entry user_id s3 Hc3). cbn [fst snd].
  exists s3. split; [done|]. split; [|split; [|split; [|split; [|split]]]].
  - unfold s3, s1. simpl. by rewrite <- app_assoc.
  - unfold done, s3, set_task_state. simpl.
    rewrite list_lookup_alter_eq, Htask. done.
  - unfold is_connected, s3. simpl.
    rewrite list_lookup_alter_eq. unfold is_connected in Hup.
    by destruct (client_objs s !! c).
  - unfold s3. simpl. apply lookup_delete_eq.
  - exact Hc3.
  - unfold s3, s1. simpl. rewrite get_user_update_user_active_status.
    by destruct (Database.get_user user_id (db s)).
Qed.

End StopRunning.

(** ** From the readiness gate to the first round *)

Section Served.
Context {config : Config}.

Lemma calm_start_sending (user_id : Z) : calm (start_sending user_id).
Proof.
  unfold start_sending, start_sending_unguarded, spawn_sending_loop.
  repeat calm_step.
Qed.

Lemma calm_is_user_ready (user_id : Z) : calm (is_user_ready user_id).
Proof. unfold is_user_ready. repeat calm_step. Qed.

Lemma is_user_ready_keeps_store_answering (user_id : Z) (s : St) :
  store_script s = [] → store_script (is_user_ready user_id s).2 = [].
Proof.
  intros Hnil. unfold is_user_ready.
  unfold bind at 1. rewrite await_query_nil by done. cbn [fst snd].
  destruct (Database.get_user user_id (db s)) as [u|]; [|done].
  destruct (bool_decide (Database.is_logged_in u = 0)); [done|].
  unfold bind at 1. rewrite await_query_nil by done. cbn [fst snd].
  unfold bind at 1. rewrite await_query_nil by done. cbn [fst snd].
  unfold bind at 1. rewrite await_query_nil by done. done.
Qed.

(** X29: from the gate to the messages.  Take a user who is not
    banned, is subscribed and has no task and no client yet, a store and a
    transport that answer, and nobody who cancels.  If the readiness gate of
    the handlers says yes, then [start_sending] flags the user active and
    creates the task, and the first turn of the loop connects once and
    attempts every destination of the user exactly once, in order, with the
    stored message. *)
Theorem ready_user_is_served (user_id : Z) (s : St) (r : Database.user_row) :
  store_script s = [] →
  answers 1 (transport_script s) →
  never_cancelled s →
  DEFAULT_RANDOM_INTERVAL_MIN ≤ DEFAULT_RANDOM_INTERVAL_MAX →
  Database.users (db s) !! user_id = Some r →
  Database.is_banned r ≠ 1 →
  now s < Database.subscription_until r →
  has_live_task user_id s = false →
  clients s !! user_id = None →
  (is_user_ready user_id s).1 = Ret true →
  ∃ s1 s2 s3 evs n m,
    is_user_ready user_id s = (Ret true, s1)
    ∧ start_sending user_id s1 = (Ret (), s2)
    ∧ cycle user_id (with_client None (with_retry_count 0 s2)) = (Ret true, s3)
    ∧ Database.get_message user_id (db s) = Some m
    ∧ Database.get_user_groups user_id (db s) ≠ []
    ∧ trace s3
      = trace s ++ [EvStartSending user_id; EvSetActive user_id 1;
                    EvCreateTask (SendingLoop user_id) (length (task_objs s));
                    EvConnect (length (client_objs s))]
                ++ evs ++ [EvSleep (inject_Z n)]
    ∧ attempts evs
      = (λ g, (length (client_objs s), g, Database.text m))
          <$> Database.get_user_groups user_id (db s).
Proof.
  intros Hnil Htr Hs Hcfg Hr Hban Hsub Hlive Hpool Hready.
  assert (Hans : answers 4 (store_script s)) by (rewrite Hnil; apply answers_nil).
  destruct (is_user_ready_exact user_id s Hans) as (b & script & Hrun & Hb).
  rewrite Hrun in Hready. simpl in Hready. injection Hready as ->.
  destruct (proj1 Hb eq_refl) as (_ & [p Hp] & [m Hm] & Hg).
  destruct (Database.get_user_groups user_id (db s)) as [|g gs] eqn:Hgs; [done|].
  set (s1 := with_store_script script s) in *.
  pose proof (calm_is_user_ready user_id s Hs) as [Hs1 _].
  rewrite Hrun in Hs1. simpl in Hs1.
  assert (Hans1 : answers 6 (store_script s1)).
  { pose proof (is_user_ready_keeps_store_answering user_id s Hnil) as Hscript.
    rewrite Hrun in Hscript. simpl in Hscript. simpl. rewrite Hscript.
    apply answers_nil. }
  destruct (start_sending_spawns user_id 5 s1 Hlive Hans1) as (script2 & Hans2 & Hstart).
  match type of Hstart with _ = (_, ?x) => set (s2 := x) in * end.
  pose proof (calm_start_sending user_id s1 Hs1) as [Hs2 _].
  rewrite Hstart in Hs2. simpl in Hs2.
  set (s2' := with_client None (with_retry_count 0 s2)).
  assert (Hrow : Database.users (db s2') !! user_id
                 = Some (Database.set_active_status 1 (now s) r)).
  { unfold s2', s2. simpl. by rewrite lookup_alter_eq, Hr. }
  assert (Hchecks : cycle user_id s2'
                    = try_except (send_cycle user_id p m (g :: gs) ;; ret true)
                        (on_cycle_error user_id)
                        (with_store_script (drop 5 (store_script s2')) s2')).
  { by apply (cycle_passes_checks user_id s2'
                (Database.set_active_status 1 (now s) r) p m g gs). }
  set (s0 := with_store_script (drop 5 (store_script s2')) s2') in Hchecks.
  assert (Hs0 : never_cancelled s0).
  { destruct Hs2 as (H1 & H2 & H3). split; [|done]. by apply Forall_drop. }
  destruct (first_send_cycle user_id s0 p m (g :: gs) eq_refl Hpool Htr Hs0 Hcfg)
    as (s3 & evs & n & Hsc & Htrace & Hat & _).
  exists s1, s2, s3, evs, n, m.
  split; [done|]. split; [done|]. split.
  { fold s2'. rewrite Hchecks. unfold try_except, bind at 1. by rewrite Hsc. }
  split; [done|]. split; [done|]. split; [|done].
  rewrite Htrace. unfold s0, s2', s2, s1. simpl. by rewrite <- !app_assoc.
Qed.

End Served.

(** ** The registry stays exclusive *)

Lemma finished_task_same (o : task_obj) :
  t_state o = Finished → TaskObj (t_kind o) Finished = o.
Proof. destruct o as [k st]. simpl. by intros ->. Qed.

Lemma set_task_state_done (t : nat) (s : St) :
  done t s = true → task_objs (set_task_state t Finished s) = task_objs s.
Proof.
  unfold done, set_task_state. simpl. intros Hd.
  apply list_eq. intros i. destruct (decide (i = t)) as [->|Hne].
  - rewrite list_lookup_alter_eq.
    destruct (task_objs s !! t) as [[k []]|]; done.
  - by rewrite list_lookup_alter_ne.
Qed.

Lemma set_task_state_dangling (t : nat) (s : St) :
  task_objs s !! t = None → task_objs (set_task_state t Finished s) = task_objs s.
Proof.
  unfold set_task_state. simpl. intros Hd.
  apply list_eq. intros i. destruct (decide (i = t)) as [->|Hne].
  - by rewrite list_lookup_alter_eq, Hd.
  - by rewrite list_lookup_alter_ne.
Qed.

Section Exclusive.
Context {config : Config}.

Lemma cleanup_active_tasks (user_id : Z) (s : St) :
  active_tasks (cleanup user_id s).2 = delete user_id (active_tasks s).
Proof.
  cleanup_cases s user_id; rewrite ?delete_id by done; done.
Qed.

(** What [stop_task] does to the tasks and to the registry: the registered
    task, if any, is finished; the registry loses the user's entry and, when
    the task was a suspended loop, the entry of that loop's user. *)
Lemma stop_task_registry (user_id : Z) (s : St) :
  match active_tasks s !! user_id with
  | None =>
      task_objs (stop_task user_id s).2 = task_objs s
      ∧ active_tasks (stop_task user_id s).2 = active_tasks s
  | Some t =>
      task_objs (stop_task user_id s).2 = task_objs (set_task_state t Finished s)
      ∧ ∀ v, active_tasks (stop_task user_id s).2 !! v = active_tasks s !! v
             ∨ (active_tasks (stop_task user_id s).2 !! v = None
                ∧ (v = user_id
                   ∨ ∃ c, task_objs s !! t
                          = Some (TaskObj (SendingLoop v) (Suspended c))))
  end.
Proof.
  destruct (active_tasks s !! user_id) as [t|] eqn:Hreg.
  2:{ by rewrite stop_task_without_entry. }
  assert (Hdel : ∀ (m : gmap Z nat) v,
             delete user_id m !! v = m !! v
             ∨ (delete user_id m !! v = None ∧ v = user_id)).
  { intros m v. destruct (decide (v = user_id)) as [->|Hne].
    - right. by rewrite lookup_delete_eq.
    - left. by rewrite lookup_delete_ne. }
  remember (stop_task user_id s) as rs eqn:Hrs.
  unfold stop_task, bind at 1, gets at 1 in Hrs. cbn [fst snd] in Hrs.
  rewrite Hreg in Hrs.
  unfold bind at 1 in Hrs. unfold bind at 1, gets at 1 in Hrs. cbn [fst snd] in Hrs.
  destruct (done t s) eqn:Hdone.
  - unfold ret at 1, del_task, modify in Hrs. cbn [fst snd] in Hrs. subst rs.
    unfold modify. cbn [snd task_objs active_tasks with_trace with_active_tasks].
    split; [by rewrite set_task_state_done|].
    intros v. destruct (Hdel (active_tasks s) v) as [?|[? ?]]; auto.
  - unfold cancel_and_await, bind at 1, emit, modify at 1 in Hrs.
    cbn [fst snd] in Hrs.
    unfold bind at 1, gets at 1 in Hrs. cbn [fst snd task_objs with_trace] in Hrs.
    destruct (task_objs s !! t) as [[[w|] [|c|]]|] eqn:Ho;
      try (unfold modify, del_task in Hrs; cbn [fst snd] in Hrs; subst rs; unfold modify;
           cbn [snd task_objs active_tasks with_trace with_active_tasks
                set_task_state with_task_objs];
           split; [done|];
           intros v; destruct (Hdel (active_tasks s) v) as [?|[? ?]]; by auto).
    + unfold bind at 1, modify at 1 in Hrs. cbn [fst snd] in Hrs.
      unfold bind at 1 in Hrs.
      match type of Hrs with context [cleanup w ?x] => set (s1 := x) in Hrs end.
      pose proof (cleanup_returns w s1) as Hr.
      pose proof (cleanup_active_tasks w s1) as Ha.
      pose proof (preserves_task_objs_cleanup w s1) as Hto.
      destruct (cleanup w s1) as [[[]|e|] s2]; simpl in Hr, Ha, Hto; try done.
      unfold modify, del_task in Hrs. cbn [fst snd] in Hrs. subst rs.
      unfold modify. cbn [snd task_objs active_tasks with_trace with_active_tasks
           set_task_state with_task_objs].
      rewrite Hto, Ha. split; [done|].
      intros v. change (active_tasks s1) with (active_tasks s).
      destruct (decide (v = user_id)) as [->|Hne].
      * right. rewrite lookup_delete_eq. auto.
      * rewrite lookup_delete_ne by done.
        destruct (decide (v = w)) as [->|Hnw].
        -- right. rewrite lookup_delete_eq. split; [done|]. right. by exists c.
        -- left. by rewrite lookup_delete_ne.
    + unfold modify, del_task in Hrs. cbn [fst snd] in Hrs. subst rs.
      unfold modify. cbn [snd task_objs active_tasks with_trace with_active_tasks].
      split; [by rewrite set_task_state_dangling|].
      intros v. destruct (Hdel (active_tasks s) v) as [?|[? ?]]; auto.
Qed.

Lemma live_send_tasks_after_finish (v : Z) (t : nat) (l : list task_obj) :
  (length (filter (is_live_send_task v)
             (alter (λ o, TaskObj (t_kind o) Finished) t l))
   ≤ length (filter (is_live_send_task v) l))%nat.
Proof.
  revert t. induction l as [|o l IH]; intros t; [done|].
  destruct t as [|t]; simpl.
  - rewrite !filter_cons.
    destruct (decide (is_live_send_task v (TaskObj (t_kind o) Finished)))
      as [[_ H]|_]; [done|].
    destruct (decide (is_live_send_task v o)); simpl; lia.
  - rewrite !filter_cons. specialize (IH t). unfold alter in IH.
    destruct (decide (is_live_send_task v o)); simpl; lia.
Qed.

Lemma stop_task_keeps_one_task_per_user (user_id : Z) (s : St) :
  one_task_per_user s → one_task_per_user (stop_task user_id s).2.
Proof.
  intros Hinv. pose proof (stop_task_registry user_id s) as H.
  destruct (active_tasks s !! user_id) as [t|] eqn:Hreg.
  2:{ destruct H as [Ho Ha]. intros v. unfold live_send_tasks.
      rewrite Ho, Ha. apply Hinv. }
  destruct H as [Ho Ha]. intros v. destruct (Hinv v) as [Hlen Hown].
  unfold live_send_tasks. rewrite Ho. split.
  - etrans; [apply live_send_tasks_after_finish|exact Hlen].
  - intros t' o' Ht' Hlive.
    assert (Hne : t' ≠ t).
    { intros ->. unfold set_task_state in Ht'. simpl in Ht'.
      rewrite list_lookup_alter_eq in Ht'.
      destruct (task_objs s !! t) as [o|]; simplify_eq/=.
      by destruct Hlive as [_ ?]. }
    unfold set_task_state in Ht'. simpl in Ht'.
    rewrite list_lookup_alter_ne in Ht' by done.
    specialize (Hown t' o' Ht' Hlive).
    destruct (Ha v) as [Hsame|[_ [->|[c Hc]]]].
    + by rewrite Hsame.
    + rewrite Hreg in Hown. by injection Hown as ->.
    + destruct (Hinv v) as [_ Hown'].
      specialize (Hown' t _ Hc). rewrite Hown in Hown'.
      assert (Hl : is_live_send_task v (TaskObj (SendingLoop v) (Suspended c)))
        by (split; done).
      specialize (Hown' Hl). by injection Hown' as ->.
Qed.

(** X30: calls of [start_sending] and [stop_sending] that do not
    overlap keep the registry exclusive: if every user has at most one live
    send task, and that task is the one the registry holds for the user,
    then the same is true after either call (with a store that answers). *)
Theorem registry_stays_exclusive (user_id : Z) (s : St) :
  answers 1 (store_script s) →
  one_task_per_user s →
  one_task_per_user (start_sending user_id s).2
  ∧ one_task_per_user (stop_sending user_id s).2.
Proof.
  intros Hs Hinv. split; [by apply start_sending_keeps_one_task_per_user|].
  destruct (stop_sending_answers user_id 0 s Hs) as (script & _ & ->). cbn [snd].
  set (s1 := after_stop_write user_id script s).
  assert (Hinv1 : one_task_per_user s1) by exact Hinv.
  pose proof (stop_task_keeps_one_task_per_user user_id s1 Hinv1) as Hinv2.
  intros v. unfold live_send_tasks.
  rewrite !preserves_task_objs_stop_client, !preserves_active_tasks_stop_client.
  apply Hinv2.
Qed.

End Exclusive.

(* ===================================================================== *)
(** ** The further properties on the sample worlds *)
(* ===================================================================== *)

Lemma ready_store_capped : groups_capped ready_store.
Proof.
  intros u. unfold Database.get_user_groups. rewrite length_fmap.
  etrans; [apply length_filter|]. simpl. lia.
Defined.

Lemma destinations_stay_capped_witness :
  groups_capped (Database.add_user_group 20 7 300 "three" ready_store).2
  ∧ groups_capped (Database.remove_user_group 7 100 ready_store)
  ∧ groups_capped (Database.clear_user_groups 7 ready_store)
  ∧ ∀ d', (length [(300, "three")] ≤ 3)%nat →
          Database.save_user_groups 20 7 [(300, "three")] ready_store = Some d' →
          groups_capped d'.
Proof.
  apply (destinations_stay_capped 20 7 300 100 "three" [(300, "three")] ready_store).
  exact ready_store_capped.
Defined.

Lemma ready_store_unique : groups_unique ready_store.
Proof.
  unfold groups_unique. simpl. apply NoDup_cons. split.
  - intros H. apply list_elem_of_singleton in H. discriminate H.
  - apply NoDup_singleton.
Defined.

Lemma destinations_stay_unique_witness :
  NoDup (Database.get_user_groups 7 ready_store)
  ∧ groups_unique (Database.add_user_group 20 7 300 "three" ready_store).2
  ∧ groups_unique (Database.remove_user_group 7 100 ready_store)
  ∧ groups_unique (Database.clear_user_groups 7 ready_store)
  ∧ ∀ d', Database.save_user_groups 20 7 [(300, "three")] ready_store = Some d' →
          groups_unique d'.
Proof.
  apply (destinations_stay_unique 20 7 300 100 "three" [(300, "three")] ready_store).
  exact ready_store_unique.
Defined.



Lemma remove_subscription_deactivates_witness :
  let d' := Database.remove_subscription 20 7 ready_store in
  Database.check_subscription 20 7 d' = false
  ∧ (7 ∉ (Database.get_active_users d').*1)
  ∧ (7 ∉ Database.get_expired_subscriptions 20 d')
  ∧ ∀ other, other ≠ 7 →
      Database.get_user other d' = Database.get_user other ready_store.
Proof.
  apply (remove_subscription_deactivates 20 7 20 ready_store). lia.
Defined.

Lemma upsert_user_keeps_status_witness :
  let d' := Database.upsert_user 20 7 "Ann B." ready_store in
  Database.check_subscription 20 7 d' = Database.check_subscription 20 7 ready_store
  ∧ (7 ∈ (Database.get_active_users d').*1
     ↔ 7 ∈ (Database.get_active_users ready_store).*1)
  ∧ (7 ∈ Database.get_expired_subscriptions 20 d'
     ↔ 7 ∈ Database.get_expired_subscriptions 20 ready_store)
  ∧ Database.full_name <$> Database.get_user 7 d' = Some "Ann B."
  ∧ ∀ other, other ≠ 7 →
      Database.get_user other d' = Database.get_user other ready_store.
Proof.
  apply (upsert_user_keeps_status 20 7 20 "Ann B." ready_store). lia.
Defined.

Lemma get_user_dialogs_leaves_a_pooled_client_witness :
  ∃ s', get_user_dialogs 7 sample_listing (boot_at 10 ready_store)
        = (Ret (group_dialogs sample_listing), s')
        ∧ clients s' !! 7 = Some 0%nat
        ∧ is_connected 0 s' = true
        ∧ trace s' = [EvConnect 0]
        ∧ active_tasks s' = ∅
        ∧ task_objs s' = [].
Proof.
  apply (get_user_dialogs_leaves_a_pooled_client 7 sample_listing
           (boot_at 10 ready_store) (Database.ProfileRow "+100" "session-7" 5)).
  - reflexivity.
  - reflexivity.
  - apply answers_nil.
  - apply answers_nil.
Defined.


Lemma cleanup_profile_logs_the_user_out_witness :
  ∃ s', cleanup_profile 7 (sending_at 10 ready_store) = (Ret (), s')
        ∧ Database.get_profile 7 (db s') = None
        ∧ Database.get_message 7 (db s') = None
        ∧ Database.is_logged_in <$> Database.get_user 7 (db s')
          = (λ _, 0) <$> Database.get_user 7 ready_store
        ∧ Database.is_active <$> Database.get_user 7 (db s')
          = (λ _, 0) <$> Database.get_user 7 ready_store
        ∧ active_tasks s' !! 7 = None
        ∧ clients s' !! 7 = None
        ∧ Database.user_groups (db s') = Database.user_groups ready_store
        ∧ (is_user_ready 7 s').1 ≠ Ret true.
Proof.
  apply (cleanup_profile_logs_the_user_out 7 (sending_at 10 ready_store)).
  apply answers_nil.
Defined.


Lemma reaper_tick_stops_expired_users_witness :
  let t := Qfloor (400 + 300) in
  ∃ s', subscription_checker_tick (boot_at 400 lapsed_store) = (Ret (), s')
        ∧ (∀ u, u ∈ Database.get_expired_subscriptions t lapsed_store →
             Database.is_active <$> Database.get_user u (db s') = Some 0
             ∧ active_tasks s' !! u = None
             ∧ clients s' !! u = None)
        ∧ (∀ u, u ∉ Database.get_expired_subscriptions t lapsed_store →
             Database.get_user u (db s') = Database.get_user u lapsed_store)
        ∧ Database.get_expired_subscriptions t (db s') = [].
Proof.
  apply (reaper_tick_stops_expired_users (boot_at 400 lapsed_store)); reflexivity.
Defined.


Lemma no_cancellation_in_sight (s : St) :
  store_script s = [] → timer_script s = [] →
  Forall (λ o, o ≠ Raises CancelledError) (transport_script s) →
  never_cancelled s.
Proof.
  intros H1 H2 H3. unfold never_cancelled. rewrite H1, H2.
  split; [constructor|]. split; [exact H3|constructor].
Defined.

Lemma faulty_transport_never_cancelled : never_cancelled faulty_transport.
Proof.
  apply no_cancellation_in_sight; [reflexivity..|].
  repeat constructor; discriminate.
Defined.

Lemma delivery_round_witness :
  ∃ s' evs n,
    cycle (config := sample_config) 7 faulty_transport = (Ret true, s')
    ∧ trace s' = evs ++ [EvSleep (inject_Z n)]
    ∧ attempts evs = [(0%nat, 100, "hello"); (0%nat, 200, "hello")]
    ∧ Forall delivery_event evs
    ∧ 300 ≤ n ∧ n ≤ 360
    ∧ retry_count s' = 0
    ∧ db s' = ready_store
    ∧ client s' = Some 0%nat
    ∧ is_connected 0 s' = true
    ∧ (10 + inject_Z n <= clock s')%Q.
Proof.
  apply (delivery_round (config := sample_config) 7 faulty_transport ann
           (Database.ProfileRow "+100" "session-7" 5)
           (Database.MessageRow "hello" 5) 100 [200] 0%nat).
  - reflexivity.
  - discriminate.
  - discriminate.
  - vm_compute. reflexivity.
  - reflexivity.
  - reflexivity.
  - reflexivity.
  - reflexivity.
  - reflexivity.
  - apply answers_nil.
  - exact faulty_transport_never_cancelled.
  - vm_compute. discriminate.
Defined.

Lemma running_never_cancelled (t : Q) (d : Database.tables) :
  never_cancelled (running_at t d).
Proof. apply no_cancellation_in_sight; [reflexivity..|constructor]. Defined.

Lemma first_delivery_round_witness :
  ∃ s' evs n,
    cycle (config := sample_config) 7 (running_at 10 ready_store) = (Ret true, s')
    ∧ trace s' = EvConnect 0 :: evs ++ [EvSleep (inject_Z n)]
    ∧ attempts evs = [(0%nat, 100, "hello"); (0%nat, 200, "hello")]
    ∧ Forall delivery_event evs
    ∧ 300 ≤ n ∧ n ≤ 360
    ∧ retry_count s' = 0
    ∧ db s' = ready_store
    ∧ client s' = Some 0%nat
    ∧ clients s' !! 7 = Some 0%nat
    ∧ is_connected 0 s' = true.
Proof.
  apply (first_delivery_round (config := sample_config) 7 (running_at 10 ready_store)
           ann (Database.ProfileRow "+100" "session-7" 5)
           (Database.MessageRow "hello" 5) 100 [200]).
  - reflexivity.
  - discriminate.
  - discriminate.
  - vm_compute. reflexivity.
  - reflexivity.
  - reflexivity.
  - reflexivity.
  - reflexivity.
  - reflexivity.
  - apply answers_nil.
  - apply answers_nil.
  - apply running_never_cancelled.
  - vm_compute. discriminate.
Defined.

Lemma inactive_user_leaves_the_loop_witness :
  ∃ s' post,
    _sending_loop_from (config := sample_config) 1 7 (running_at 10 banned_active_store)
    = (Ret ByBreak, s')
    ∧ trace s' = post
    ∧ Forall teardown_event post
    ∧ db s' = banned_active_store
    ∧ active_tasks s' !! 7 = None
    ∧ clients s' !! 7 = None.
Proof.
  apply (inactive_user_leaves_the_loop (config := sample_config) 0 7
           (running_at 10 banned_active_store)).
  - apply answers_nil.
  - intros r Hr. vm_compute in Hr. injection Hr as <-. right. reflexivity.
Defined.

Lemma store_fault_ends_the_loop_witness :
  (∃ s' post,
     _sending_loop_from (config := sample_config) 1 7
       (with_store_script [Raises Exception] (running_at 10 ready_store))
     = (Ret ByFault, s')
     ∧ trace s' = EvSetActive 7 0 :: post
     ∧ Forall teardown_event post
     ∧ Database.is_active <$> Database.get_user 7 (db s')
       = (λ _, 0) <$> Database.get_user 7 ready_store
     ∧ active_tasks s' !! 7 = None
     ∧ clients s' !! 7 = None)
  ∧ (∃ s' post,
       _sending_loop_from (config := sample_config) 1 7
         (with_store_script [Raises Exception; Raises Exception]
            (running_at 10 ready_store))
       = (Raise Exception, s')
       ∧ trace s' = post
       ∧ Forall teardown_event post
       ∧ db s' = ready_store
       ∧ active_tasks s' !! 7 = None
       ∧ clients s' !! 7 = None).
Proof.
  split.
  - apply (proj1 (store_fault_ends_the_loop (config := sample_config) 0 7
                    (with_store_script [Raises Exception] (running_at 10 ready_store))
                    Exception [] eq_refl ltac:(discriminate))).
    apply answers_nil.
  - apply (proj2 (store_fault_ends_the_loop (config := sample_config) 0 7
                    (with_store_script [Raises Exception; Raises Exception]
                       (running_at 10 ready_store))
                    Exception [Raises Exception] eq_refl ltac:(discriminate))
             Exception [] eq_refl).
Defined.

Lemma uncancelled_loop_witness :
  (_sending_loop (config := sample_config) 2 7 (running_at 10 ready_store)).1
  ≠ Ret ByCancellation
  ∧ (_sending_loop (config := sample_config) 2 7 (running_at 10 ready_store)).1
    ≠ Raise CancelledError.
Proof.
  apply (uncancelled_loop_does_not_end_by_cancellation (config := sample_config)
           2 7 (running_at 10 ready_store)).
  apply running_never_cancelled.
Defined.

Lemma restore_clears_expired_user_witness :
  ∃ s' evs,
    restore_active_tasks (boot_at 1000 lapsed_store) = (Ret (), s')
    ∧ trace s' = evs
    ∧ Database.is_active <$> Database.get_user 8 (db s') = Some 0
    ∧ Forall (no_spawn 8) evs
    ∧ active_tasks s' !! 8 = None.
Proof.
  apply (restore_clears_expired_user 8 (boot_at 1000 lapsed_store)
           (Database.UserRow "Bob" 1 1 0 500 5 5)).
  - reflexivity.
  - reflexivity.
  - reflexivity.
  - reflexivity.
  - vm_compute. discriminate.
Defined.

Lemma restore_leaves_inactive_users_alone_witness :
  ∃ s' evs,
    restore_active_tasks (boot_at 10 banned_active_store) = (Ret (), s')
    ∧ trace s' = evs
    ∧ Forall (no_spawn 7) evs
    ∧ Database.get_user 7 (db s') = Database.get_user 7 banned_active_store
    ∧ active_tasks s' !! 7 = None.
Proof.
  apply (restore_leaves_inactive_users_alone 7 (boot_at 10 banned_active_store)).
  - reflexivity.
  - intros r Hr. vm_compute in Hr. injection Hr as <-. right. discriminate.
Defined.

Lemma stop_sending_ends_a_running_loop_witness :
  ∃ s',
    stop_sending 7 (sending_at 10 ready_store) = (Ret (), s')
    ∧ trace s' = [EvStopSending 7; EvSetActive 7 0; EvCancel 0; EvDisconnect 0;
                  EvDelClient 7; EvDelTask 7; EvDelTask 7]
    ∧ done 0 s' = true
    ∧ is_connected 0 s' = false
    ∧ active_tasks s' !! 7 = None
    ∧ clients s' !! 7 = None
    ∧ Database.is_active <$> Database.get_user 7 (db s')
      = (λ _, 0) <$> Database.get_user 7 ready_store.
Proof.
  apply (stop_sending_ends_a_running_loop 7 (sending_at 10 ready_store) 0 0).
  - reflexivity.
  - reflexivity.
  - reflexivity.
  - reflexivity.
  - apply answers_nil.
  - apply answers_nil.
Defined.

Lemma ready_user_is_served_witness :
  ∃ s1 s2 s3 evs n m,
    is_user_ready 7 (boot_at 10 ready_store) = (Ret true, s1)
    ∧ start_sending 7 s1 = (Ret (), s2)
    ∧ cycle (config := sample_config) 7 (with_client None (with_retry_count 0 s2))
      = (Ret true, s3)
    ∧ Database.get_message 7 ready_store = Some m
    ∧ Database.get_user_groups 7 ready_store ≠ []
    ∧ trace s3
      = [] ++ [EvStartSending 7; EvSetActive 7 1;
               EvCreateTask (SendingLoop 7) 0; EvConnect 0]
           ++ evs ++ [EvSleep (inject_Z n)]
    ∧ attempts evs
      = (λ g, (0%nat, g, Database.text m)) <$> Database.get_user_groups 7 ready_store.
Proof.
  apply (ready_user_is_served (config := sample_config) 7 (boot_at 10 ready_store) ann).
  - reflexivity.
  - apply answers_nil.
  - apply no_cancellation_in_sight; [reflexivity..|constructor].
  - vm_compute. discriminate.
  - reflexivity.
  - discriminate.
  - vm_compute. reflexivity.
  - reflexivity.
  - reflexivity.
  - reflexivity.
Defined.

Lemma running_one_task_per_user : one_task_per_user (running_at 10 ready_store).
Proof.
  intros v. split.
  - unfold live_send_tasks. etrans; [apply length_filter|]. simpl. lia.
  - intros t o Ht [Hk _]. destruct t as [|t]; [|done].
    injection Ht as <-. injection Hk as <-. reflexivity.
Defined.

Lemma registry_stays_exclusive_witness :
  one_task_per_user (start_sending 7 (running_at 10 ready_store)).2
  ∧ one_task_per_user (stop_sending 7 (running_at 10 ready_store)).2.
Proof.
  apply (registry_stays_exclusive 7 (running_at 10 ready_store)).
  - apply answers_nil.
  - exact running_one_task_per_user.
Defined.
